(** * KBank (K PLUS) slip verification: parser, validator, risk scorer,
      timestamp cross-check, slip validation and OCR text repair.

    A shallow embedding of the class [TransactionParser]
    (src/utils/transactionParser.js), of the class [ValidationService]
    and of the text methods of the class [OCRService]: cleaning,
    identifier repair and the search for an identifier (the services
    validationService.js and ocrService.js, whose text is in
    test-ocr-cleaning.js).

    JavaScript strings are sequences of UTF-16 code units ([list N]);
    regular expressions without the [u] flag work on code units, which
    is how they are modelled.  JavaScript numbers that come out of
    [parseInt] are integers or [NaN]; the score ratio of [validateSlip]
    is evaluated in binary64. *)

From stdpp Require Import gmap list strings.
From Stdlib Require Import ZArith NArith Floats Uint63 Lia Bool.

(** ** Host layer: strings as code units *)

(** A string: its UTF-16 code units. *)
Abbreviation jsstring := (list N).

Module JS.
Local Open Scope N_scope.

(** Code units of a source literal.  Rocq string literals are UTF-8
    bytes; [utf16] decodes one-, two- and three-byte sequences (the
    whole Basic Multilingual Plane, which covers the Thai block used by
    the substitution tables). *)
Fixpoint utf16_bytes (fuel : nat) (bs : list N) : list N :=
  match fuel with
  | O => []
  | S fuel' =>
    match bs with
    | [] => []
    | b0 :: r0 =>
      if b0 <? 0x80 then b0 :: utf16_bytes fuel' r0
      else if b0 <? 0xE0 then
        match r0 with
        | b1 :: r1 =>
            ((b0 - 0xC0) * 64 + (b1 - 0x80)) :: utf16_bytes fuel' r1
        | [] => [b0]
        end
      else
        match r0 with
        | b1 :: b2 :: r2 =>
            ((b0 - 0xE0) * 4096 + (b1 - 0x80) * 64 + (b2 - 0x80))
              :: utf16_bytes fuel' r2
        | _ => b0 :: r0
        end
    end
  end.

Definition utf16 (s : String.string) : jsstring :=
  let bs := map Ascii.N_of_ascii (String.list_ascii_of_string s) in
  utf16_bytes (length bs) bs.
Arguments utf16 s%_string_scope.

(** *** Character classes *)

Definition inRange (a b c : N) : bool := (a <=? c) && (c <=? b).

(** [\d] : ASCII digits only. *)
Definition isDigit (c : N) : bool := inRange 48 57 c.
(** [[A-Z]] *)
Definition isUpper (c : N) : bool := inRange 65 90 c.
(** [[A-Z0-9]] *)
Definition isUpperAlnum (c : N) : bool := isUpper c || isDigit c.

(** Line terminators: LF, CR, LS, PS. *)
Definition isLineTerminator (c : N) : bool :=
  (c =? 0x0A) || (c =? 0x0D) || (c =? 0x2028) || (c =? 0x2029).

(** [.] : anything but a line terminator. *)
Definition isDot (c : N) : bool := negb (isLineTerminator c).

(** [\s], which is also what [trim] strips: ECMAScript WhiteSpace and
    LineTerminator. *)
Definition isWhiteSpace (c : N) : bool :=
  inRange 0x09 0x0D c || (c =? 0x20) || (c =? 0xA0) || (c =? 0x1680)
  || inRange 0x2000 0x200A c || (c =? 0x2028) || (c =? 0x2029)
  || (c =? 0x202F) || (c =? 0x205F) || (c =? 0x3000) || (c =? 0xFEFF).

(** [[ก-๙]] : U+0E01 .. U+0E59. *)
Definition isThai (c : N) : bool := inRange 0x0E01 0x0E59 c.

(** *** String primitives *)

Definition eqs (a b : jsstring) : bool := bool_decide (a = b).

(** [!s] on a string: only the empty string is falsy. *)
Definition falsy (s : jsstring) : bool :=
  match s with [] => true | _ => false end.

(** [s.startsWith(p)] *)
Fixpoint startsWith (p s : jsstring) : bool :=
  match p with
  | [] => true
  | a :: p' =>
    match s with
    | [] => false
    | b :: s' => (a =? b) && startsWith p' s'
    end
  end.

(** [s.includes(p)] *)
Fixpoint includes (p s : jsstring) : bool :=
  startsWith p s ||
  match s with
  | [] => false
  | _ :: s' => includes p s'
  end.

Fixpoint trimStart (s : jsstring) : jsstring :=
  match s with
  | c :: s' => if isWhiteSpace c then trimStart s' else s
  | [] => []
  end.

(** [s.trim()] *)
Definition trim (s : jsstring) : jsstring :=
  rev (trimStart (rev (trimStart s))).

(** [s.replace(/\s/g, '')] and [s.replace(/\s+/g, '')] *)
Definition removeWhiteSpace (s : jsstring) : jsstring :=
  filter (λ c, isWhiteSpace c = false) s.

(** [s.replace(/[ก-๙]/g, '')] *)
Definition removeThai (s : jsstring) : jsstring :=
  filter (λ c, isThai c = false) s.

(** [s.substring(a, b)] for [a <= b]. *)
Definition substring (a b : nat) (s : jsstring) : jsstring :=
  take (b - a) (drop a s).

(** [s.split(sep)] for a one-character separator. *)
Fixpoint split (sep : N) (s : jsstring) : list jsstring :=
  match s with
  | [] => [[]]
  | c :: s' =>
    if c =? sep then [] :: split sep s'
    else match split sep s' with
         | w :: ws => (c :: w) :: ws
         | [] => [[c]]
         end
  end.

(** [s.replace(new RegExp(p, 'g'), r)] for a non-empty pattern [p] made
    of ordinary characters and a replacement [r] without [$]: leftmost
    occurrences, left to right, not overlapping.  [skip] counts the
    characters of the current occurrence that are still to be
    dropped. *)
Fixpoint replaceFrom (p r : jsstring) (skip : nat) (s : jsstring) : jsstring :=
  match s with
  | [] => []
  | c :: s' =>
    match skip with
    | S k => replaceFrom p r k s'
    | O =>
      if startsWith p s then r ++ replaceFrom p r (length p - 1)%nat s'
      else c :: replaceFrom p r O s'
    end
  end.

Definition replaceAll (p r s : jsstring) : jsstring := replaceFrom p r 0 s.

(** The characters of [r] do not occur in [q]. *)
Definition Apart (q r : jsstring) : Prop := ∀ c, c ∈ r → c ∉ q.

Definition apartb (q r : jsstring) : bool :=
  forallb (λ c, negb (existsb (N.eqb c) q)) r.

(** *** Numbers produced by [parseInt] *)

Inductive jsnum := Num (z : Z) | NaN.

Definition digitVal (c : N) : Z := Z.of_N (c - 48).

Fixpoint digitsAcc (acc : Z) (s : jsstring) : Z :=
  match s with
  | c :: s' => if isDigit c then digitsAcc (10 * acc + digitVal c) s' else acc
  | [] => acc
  end.

(** [parseInt(s, 10)] : leading white space, an optional sign, then the
    longest run of decimal digits; [NaN] when that run is empty. *)
Definition parseInt (s : jsstring) : jsnum :=
  let s1 := trimStart s in
  let neg := startsWith [45] s1 in                       (* '-' *)
  let signed := neg || startsWith [43] s1 in             (* '-' or '+' *)
  let s2 := if signed then drop 1 s1 else s1 in
  match s2 with
  | c :: _ =>
    if isDigit c then
      Num (if neg then (- digitsAcc 0 s2)%Z else digitsAcc 0 s2)
    else NaN
  | [] => NaN
  end.

Definition num_ltb (a b : jsnum) : bool :=
  match a, b with Num x, Num y => (x <? y)%Z | _, _ => false end.
Definition num_leb (a b : jsnum) : bool :=
  match a, b with Num x, Num y => (x <=? y)%Z | _, _ => false end.
Definition num_gtb (a b : jsnum) : bool := num_ltb b a.
(** [a === b] on numbers *)
Definition num_eqb (a b : jsnum) : bool :=
  match a, b with Num x, Num y => (x =? y)%Z | _, _ => false end.
Definition num_add (a b : jsnum) : jsnum :=
  match a, b with Num x, Num y => Num (x + y) | _, _ => NaN end.
Definition num_sub (a b : jsnum) : jsnum :=
  match a, b with Num x, Num y => Num (x - y) | _, _ => NaN end.
(** [Math.abs] *)
Definition num_abs (a : jsnum) : jsnum :=
  match a with Num x => Num (Z.abs x) | NaN => NaN end.
(** truthiness of a number *)
Definition num_truthy (a : jsnum) : bool :=
  match a with Num x => negb (x =? 0)%Z | NaN => false end.

End JS.


(** ** Regular expressions

    Every regular expression of the modelled code is a sequence of
    quantified character classes, anchored at both ends ([^...$]) or
    at neither.  [matchSeq] is the backtracking matcher: a greedy
    quantifier tries the largest count first, a lazy one the smallest,
    and the first overall success wins.  The result holds one captured
    piece per atom; a capture group of the source is the concatenation
    of the pieces of its atoms. *)

Module Regex.
Import JS.

Record atom := Atom {
  cls : N → bool;       (* the character class *)
  lo : nat;             (* minimal count *)
  hi : option nat;      (* maximal count, None for unbounded *)
  lazy : bool           (* true for a lazy quantifier *)
}.

Definition regex := list atom.

(** One literal character. *)
Definition lit (c : N) : atom := Atom (N.eqb c) 1 (Some 1) false.
(** A literal string. *)
Definition lits (s : jsstring) : regex := map lit s.
(** [C{n}] *)
Definition exactly (n : nat) (c : N → bool) : atom := Atom c n (Some n) false.
(** [C{a,b}] *)
Definition between (a b : nat) (c : N → bool) : atom := Atom c a (Some b) false.
(** [C{a,b}?] *)
Definition betweenLazy (a b : nat) (c : N → bool) : atom := Atom c a (Some b) true.
(** [C+] *)
Definition plus (c : N → bool) : atom := Atom c 1 None false.
(** [C?] *)
Definition opt (c : N → bool) : atom := Atom c 0 (Some 1) false.

Fixpoint firstSome {A B} (f : A → option B) (l : list A) : option B :=
  match l with
  | [] => None
  | x :: l' => match f x with Some y => Some y | None => firstSome f l' end
  end.

(** The counts an atom may take out of [n] available characters, in
    the order in which the matcher tries them. *)
Definition counts (a : atom) (n : nat) : list nat :=
  let top := match hi a with Some h => Nat.min h n | None => n end in
  let up := seq (lo a) (S top - lo a) in
  if lazy a then up else rev up.

Fixpoint matchSeq (re : regex) (toEnd : bool) (s : jsstring)
  : option (list jsstring) :=
  match re with
  | [] =>
    if toEnd then match s with [] => Some [] | _ => None end else Some []
  | a :: re' =>
    firstSome
      (λ k, if forallb (cls a) (take k s)
            then cons (take k s) <$> matchSeq re' toEnd (drop k s)
            else None)
      (counts a (length s))
  end.

(** [s.match(/^re$/)] *)
Definition matchFull (re : regex) (s : jsstring) : option (list jsstring) :=
  matchSeq re true s.

(** [/^re$/.test(s)] *)
Definition test (re : regex) (s : jsstring) : bool :=
  bool_decide (is_Some (matchFull re s)).

(** [s.match(/re/)] : the leftmost position at which [re] matches. *)
Fixpoint search (re : regex) (s : jsstring) : option (list jsstring) :=
  match matchSeq re false s with
  | Some caps => Some caps
  | None =>
    match s with
    | [] => None
    | _ :: s' => search re s'
    end
  end.

(** [/re/.test(s)] *)
Definition testAnywhere (re : regex) (s : jsstring) : bool :=
  bool_decide (is_Some (search re s)).

(** What a captured piece must satisfy. *)
Definition fits (a : atom) (w : jsstring) : Prop :=
  lo a ≤ length w ∧
  match hi a with Some h => length w ≤ h | None => True end ∧
  forallb (cls a) w = true.

(** [/^(\d)\1+$/.test(s)] : a digit followed by one or more copies of
    itself (the only back-reference of the code base). *)
Definition repeatedDigit (s : jsstring) : bool :=
  match s with
  | d :: (_ :: _) as r => isDigit d && forallb (N.eqb d) r
  | _ => false
  end.

(** [C*] *)
Definition star (c : N → bool) : atom := Atom c 0 None false.

(** [Array.from(s.matchAll(/re/g))] for a pattern that does not match
    the empty string: the matches from left to right, each one searched
    from the end of the one before.  [skip] counts the characters of
    the current match that are still to be passed. *)
Fixpoint matchAllFrom (re : regex) (skip : nat) (s : jsstring)
  : list (list jsstring) :=
  match s with
  | [] => []
  | _ :: s' =>
    match skip with
    | S k => matchAllFrom re k s'
    | O =>
      match matchSeq re false s with
      | Some caps => caps :: matchAllFrom re (length (concat caps) - 1) s'
      | None => matchAllFrom re O s'
      end
    end
  end.

Definition matchAll (re : regex) (s : jsstring) : list (list jsstring) :=
  matchAllFrom re 0 s.

(** [s.replace(/re/g, '')] for a pattern that does not match the empty
    string. *)
Fixpoint removeFrom (re : regex) (skip : nat) (s : jsstring) : jsstring :=
  match s with
  | [] => []
  | c :: s' =>
    match skip with
    | S k => removeFrom re k s'
    | O =>
      match matchSeq re false s with
      | Some caps => removeFrom re (length (concat caps) - 1) s'
      | None => c :: removeFrom re O s'
      end
    end
  end.

Definition removeAll (re : regex) (s : jsstring) : jsstring :=
  removeFrom re 0 s.

End Regex.

(** ** The host's case conversion

    [String.prototype.toUpperCase] and [toLowerCase] are the host's
    Unicode case mappings.  The development is parametric in them; the
    only fact used is that upper-casing leaves a string of ASCII digits
    and capital letters as it is. *)

Class Host := {
  toUpperCase : jsstring → jsstring;
  toLowerCase : jsstring → jsstring;
  toUpperCase_upperAlnum :
    ∀ s, forallb JS.isUpperAlnum s = true → toUpperCase s = s
}.

(** ** TransactionParser (src/utils/transactionParser.js) *)

Module TransactionParser.
Import JS Regex.

Definition KBANK_PREFIX : jsstring := utf16 "0152".
Definition MIN_LENGTH : nat := 20.
Definition MAX_LENGTH : nat := 21.

(** [/^0152\d{8}[A-Z0-9]{4}\d{3,5}$/] *)
Definition STRICT_PATTERN : regex :=
  lits (utf16 "0152")
  ++ [exactly 8 isDigit; exactly 4 isUpperAlnum; between 3 5 isDigit].

(** [/^0152(\d{2})(\d{2})(\d{2})(\d{2})([A-Z0-9]{4})(\d{3,5})$/] *)
Definition PARSE_PATTERN : regex :=
  lits (utf16 "0152")
  ++ [exactly 2 isDigit; exactly 2 isDigit; exactly 2 isDigit;
      exactly 2 isDigit; exactly 4 isUpperAlnum; between 3 5 isDigit].

Definition transactionTypes : gmap jsstring jsstring :=
  list_to_map
    [ (utf16 "BPMO", utf16 "Bill Payment Mobile Online");
      (utf16 "BQR0", utf16 "Bill QR Payment");
      (utf16 "BQR",  utf16 "Bill QR Payment");
      (utf16 "BPAY", utf16 "Bill Payment");
      (utf16 "ATF0", utf16 "Account Transfer via Mobile");
      (utf16 "ATF",  utf16 "Account Transfer");
      (utf16 "ATMO", utf16 "Account Transfer Mobile Online");
      (utf16 "ATMB", utf16 "ATM Transfer");
      (utf16 "APM0", utf16 "App Payment");
      (utf16 "APM",  utf16 "App Payment");
      (utf16 "APAY", utf16 "App Payment");
      (utf16 "QRP0", utf16 "QR Payment");
      (utf16 "QRPM", utf16 "QR PromptPay");
      (utf16 "TFMO", utf16 "Transfer Mobile") ].

Definition UNKNOWN_TYPE : jsstring := utf16 "Unknown Transaction Type".

(** The object built by [buildTimestamp]. *)
Record Timestamp := {
  ts_year : jsnum; ts_hour : jsnum; ts_minute : jsnum; ts_second : jsnum
}.

(** The record returned by [parse]; its five constant flags
    ([valid], [validPrefix], ... all [true]) are left out, and the
    field [length] is called [idLength]. *)
Record ParsedTransaction := {
  raw : jsstring;
  prefix : jsstring;
  year : jsnum;
  yearCode : jsstring;
  time : jsstring;
  hour : jsnum;
  minute : jsnum;
  second : jsnum;
  type : jsstring;
  typeDescription : jsstring;
  isKnownType : bool;
  sequence : jsstring;
  idLength : nat;
  timestamp : Timestamp
}.

Definition buildTimestamp (year : jsnum) (hh mm ss : jsstring) : Timestamp :=
  {| ts_year := year; ts_hour := parseInt hh;
     ts_minute := parseInt mm; ts_second := parseInt ss |}.

(** The reason reported by [isValid]:
    - [Required]: 'Transaction ID is required and must be a string'
    - [InvalidPrefix got]: 'Invalid prefix. Expected "0152" (KBank K PLUS), got "<got>"'
    - [InvalidLength n]: 'Invalid length. Expected 20-21 characters, got <n>'
    - [InvalidFormat]: 'Invalid format. Expected pattern: 0152 + 8 digits + 4 letters + 3-5 digits'
    - [ParseFailed]: 'Failed to parse transaction ID. May contain invalid time or year values'
    - [ValidId]: 'Valid KBank K PLUS transaction ID' *)
Inductive Reason :=
| Required
| InvalidPrefix (got : jsstring)
| InvalidLength (got : nat)
| InvalidFormat
| ParseFailed
| ValidId.

(** The two shapes of the object returned by [isValid]:
    [{valid: false, reason}] and [{valid: true, reason, parsed}]. *)
Inductive Validation :=
| Rejected (why : Reason)
| Accepted (parsed : ParsedTransaction).

Definition valid (v : Validation) : bool :=
  match v with Accepted _ => true | Rejected _ => false end.
Definition reason (v : Validation) : Reason :=
  match v with Accepted _ => ValidId | Rejected r => r end.
Definition parsed (v : Validation) : option ParsedTransaction :=
  match v with Accepted p => Some p | Rejected _ => None end.

Inductive RiskLevel := LOW | MEDIUM | HIGH.

(** The entries of a [reasons] list:
    - [Invalid r]: the reason of [isValid]
    - [UnknownType t]: 'Unknown transaction type code: <t>'
    - [RepetitiveSequence]: 'Sequential number is repetitive (e.g., 1111, 2222)'
    - [YearOlder y]: 'Transaction year <y> is older than expected'
    - [YearFuture y]: 'Transaction year <y> is in the future'
    - [Midnight]: 'Transaction time is exactly 00:00:00 (unusual)' *)
Inductive Suspicion :=
| Invalid (r : Reason)
| UnknownType (t : jsstring)
| RepetitiveSequence
| YearOlder (y : jsnum)
| YearFuture (y : jsnum)
| Midnight.

(** - [RejectInvalid]: 'Reject - Invalid transaction ID format'
    - [RejectMultiple]: 'Reject - Multiple suspicious indicators'
    - [Review]: 'Review - Some suspicious indicators detected'
    - [Accept]: 'Accept - No major concerns' *)
Inductive Recommendation := RejectInvalid | RejectMultiple | Review | Accept.

Record FakeDetection := {
  isSuspicious : bool;
  riskLevel : RiskLevel;
  reasons : list Suspicion;
  recommendation : Recommendation;
  assessed : option ParsedTransaction      (* the field [parsed] *)
}.

(** The two locals [suspiciousReasons] and [riskLevel] that the checks
    of [detectFakeSlip] update in turn. *)
Record Running := {
  suspiciousReasons : list Suspicion;
  level : RiskLevel
}.

(** [suspiciousReasons.push(r); riskLevel = l] *)
Definition flag (r : Suspicion) (l : RiskLevel) (st : Running) : Running :=
  {| suspiciousReasons := suspiciousReasons st ++ [r]; level := l |}.

(** Check 1: unknown transaction type. *)
Definition check1 (p : ParsedTransaction) (st : Running) : Running :=
  if negb (isKnownType p) then flag (UnknownType (type p)) MEDIUM st else st.

(** Check 2: repetitive sequence number. *)
Definition check2 (p : ParsedTransaction) (st : Running) : Running :=
  if repeatedDigit (sequence p) then flag RepetitiveSequence MEDIUM st else st.

(** Check 3: year too old or in the future. *)
Definition check3 (currentYear : Z) (p : ParsedTransaction) (st : Running)
  : Running :=
  if num_ltb (year p) (Num (currentYear - 2)) then
    flag (YearOlder (year p)) MEDIUM st
  else if num_gtb (year p) (Num (currentYear + 1)) then
    flag (YearFuture (year p)) HIGH st
  else st.

(** Check 4: time 00:00:00. *)
Definition check4 (p : ParsedTransaction) (st : Running) : Running :=
  if num_eqb (hour p) (Num 0) && num_eqb (minute p) (Num 0)
     && num_eqb (second p) (Num 0)
  then flag Midnight MEDIUM st else st.

(** Overall assessment: more than two reasons force HIGH. *)
Definition overall (st : Running) : Running :=
  if 2 <? length (suspiciousReasons st)
  then {| suspiciousReasons := suspiciousReasons st; level := HIGH |}
  else st.

Definition start : Running := {| suspiciousReasons := []; level := LOW |}.

(** The states of the two locals of [detectFakeSlip], from their
    initialisation to the end of the overall assessment. *)
Definition running (currentYear : Z) (p : ParsedTransaction) : list Running :=
  let s1 := check1 p start in
  let s2 := check2 p s1 in
  let s3 := check3 currentYear p s2 in
  let s4 := check4 p s3 in
  [start; s1; s2; s3; s4; overall s4].

Definition recommend (l : RiskLevel) : Recommendation :=
  match l with
  | HIGH => RejectMultiple
  | MEDIUM => Review
  | LOW => Accept
  end.

(** The message of [verifyDateTime]:
    - [BadId]: 'Invalid transaction ID format'
    - [NoOcr]: 'OCR date/time not provided'
    - [Matching]: 'Date and time match between transaction ID and OCR'
    - [Mismatch ...]: 'Mismatch - Transaction: Time <hour>:<minute> | OCR:
      Year <ocrYear>, Time <ocrHour>:<ocrMinute>' *)
Inductive Message :=
| BadId
| NoOcr
| Matching
| Mismatch (hour minute : jsnum) (ocrYear ocrHour ocrMinute : option jsnum).

Record TransactionDateTime := {
  t_year : jsnum; t_yearCode : jsstring; t_time : jsstring;
  t_hour : jsnum; t_minute : jsnum
}.

Record OcrDateTime := {
  o_raw : jsstring; o_year : option jsnum; o_yearCode : option jsnum;
  o_hour : option jsnum; o_minute : option jsnum
}.

Record DateTimeCheck := {
  dt_valid : bool;                 (* the field [valid] *)
  message : Message;
  dateMatch : bool;
  timeMatch : bool;
  transactionDateTime : option TransactionDateTime;
  ocrDateTime : option OcrDateTime
}.

(** [/\s(\d{2})\s+(\d{1,2}):(\d{2})/] *)
Definition YEAR_TIME_PATTERN : regex :=
  [exactly 1 isWhiteSpace; exactly 2 isDigit; plus isWhiteSpace;
   between 1 2 isDigit; lit 58; exactly 2 isDigit].

(** [/(\d{1,2}):(\d{2})/] *)
Definition TIME_PATTERN : regex :=
  [between 1 2 isDigit; lit 58; exactly 2 isDigit].

(** The message of [verifyTime]:
    - [BadIdFormat]: 'Invalid transaction ID format'
    - [SlipTimeMissing]: 'Slip time not provided'
    - [BadSlipTime]: 'Invalid slip time format'
    - [TimeOk]: 'Time matches'
    - [TimeOff t h m]: 'Time mismatch: Transaction <t> vs Slip <h>:<m>' *)
Inductive TimeVerdict :=
| BadIdFormat
| SlipTimeMissing
| BadSlipTime
| TimeOk
| TimeOff (transactionTime : jsstring) (slipHour slipMinute : jsnum).

(** The object returned by [verifyTime]; [slipTime], the text
    '<hour>:<minute>' padded to two digits, is kept as the two
    numbers. *)
Record TimeVerification := {
  tv_valid : bool;                         (* the field [valid] *)
  tv_message : TimeVerdict;                (* the field [message] *)
  transactionTime : option jsstring;
  tv_slipTime : option (jsnum * jsnum);    (* the field [slipTime] *)
  hourMatch : option bool;
  minuteMatch : option bool
}.

(** [s.replace(/น\.|น$/g, '')] : the letter no nu followed by a full
    stop, or the letter no nu at the very end. *)
Fixpoint removeNor (s : jsstring) : jsstring :=
  match s with
  | [] => []
  | c :: s' =>
    if N.eqb c 0x0E19 then
      match s' with
      | [] => []
      | d :: s'' => if N.eqb d 46 then removeNor s'' else c :: removeNor s'
      end
    else c :: removeNor s'
  end.

Section WithHost.
Context {host : Host}.

(** [transactionId.trim().replace(/\s/g, '').toUpperCase()] *)
Definition clean (transactionId : jsstring) : jsstring :=
  toUpperCase (removeWhiteSpace (trim transactionId)).

(** [parse]; [currentYear] is [new Date().getFullYear() + 543].  The
    type code is made of four capital letters or digits, so looking it
    up in [transactionTypes] never reaches an inherited property. *)
Definition parse (currentYear : Z) (transactionId : jsstring)
  : option ParsedTransaction :=
  if falsy transactionId then None else
  let cleanId := clean transactionId in
  if negb (startsWith KBANK_PREFIX cleanId) then None else
  if (length cleanId <? MIN_LENGTH) || (MAX_LENGTH <? length cleanId)
  then None else
  if negb (test STRICT_PATTERN cleanId) then None else
  match matchFull PARSE_PATTERN cleanId with
  | Some [_; _; _; _; yy; hh; mm; ss; type; seq] =>
    let hour := parseInt hh in
    let minute := parseInt mm in
    let second := parseInt ss in
    if num_gtb hour (Num 23) || num_gtb minute (Num 59)
       || num_gtb second (Num 59)
    then None else
    let year := num_add (Num 2470) (parseInt yy) in
    if num_ltb year (Num (currentYear - 5))
       || num_gtb year (Num (currentYear + 1))
    then None else
    let time := hh ++ [58%N] ++ mm ++ [58%N] ++ ss in
    let typeDescription :=
      match transactionTypes !! type with
      | Some d => if falsy d then UNKNOWN_TYPE else d
      | None => UNKNOWN_TYPE
      end in
    let isKnownType := bool_decide (is_Some (transactionTypes !! type)) in
    Some {| raw := cleanId; prefix := KBANK_PREFIX; year := year;
            yearCode := yy; time := time; hour := hour; minute := minute;
            second := second; type := type;
            typeDescription := typeDescription;
            isKnownType := isKnownType; sequence := seq;
            idLength := length cleanId;
            timestamp := buildTimestamp year hh mm ss |}
  | _ => None
  end.

(** [isValid] *)
Definition isValid (currentYear : Z) (transactionId : jsstring) : Validation :=
  if falsy transactionId then Rejected Required else
  let cleanId := clean transactionId in
  if negb (startsWith KBANK_PREFIX cleanId)
  then Rejected (InvalidPrefix (substring 0 4 cleanId)) else
  if (length cleanId <? MIN_LENGTH) || (MAX_LENGTH <? length cleanId)
  then Rejected (InvalidLength (length cleanId)) else
  if negb (test STRICT_PATTERN cleanId) then Rejected InvalidFormat else
  match parse currentYear cleanId with
  | None => Rejected ParseFailed
  | Some parsed => Accepted parsed
  end.

(** [detectFakeSlip]; the year read by the scorer is the one read by
    the parser. *)
Definition detectFakeSlip (currentYear : Z) (transactionId : jsstring)
  : FakeDetection :=
  match isValid currentYear transactionId with
  | Rejected why =>
    {| isSuspicious := true; riskLevel := HIGH; reasons := [Invalid why];
       recommendation := RejectInvalid; assessed := None |}
  | Accepted p =>
    let st :=
      overall (check4 p (check3 currentYear p (check2 p (check1 p start)))) in
    {| isSuspicious := 0 <? length (suspiciousReasons st);
       riskLevel := level st;
       reasons := suspiciousReasons st;
       recommendation := recommend (level st);
       assessed := Some p |}
  end.

(** [verifyDateTime] *)
Definition verifyDateTime (currentYear : Z) (transactionId ocrDateTime : jsstring)
  : DateTimeCheck :=
  match parse currentYear transactionId with
  | None =>
    {| dt_valid := false; message := BadId; dateMatch := false;
       timeMatch := false; transactionDateTime := None; ocrDateTime := None |}
  | Some p =>
    if falsy ocrDateTime then
      {| dt_valid := false; message := NoOcr; dateMatch := false;
         timeMatch := false; transactionDateTime := None;
         ocrDateTime := None |}
    else
      let yearMatch := search YEAR_TIME_PATTERN ocrDateTime in
      let timeMatch_ := search TIME_PATTERN ocrDateTime in
      let ocrYear :=
        match yearMatch with
        | Some (_ :: yy :: _) => Some (parseInt yy)
        | _ => None
        end in
      let dateMatches := true in
      let '(timeMatches, ocrHour, ocrMinute) :=
        match timeMatch_ with
        | Some (h :: _ :: m :: _) =>
          let ocrHour := parseInt h in
          let ocrMinute := parseInt m in
          let hourMatches := num_eqb (hour p) ocrHour in
          let minuteDiff := num_abs (num_sub (minute p) ocrMinute) in
          let minuteMatches := num_leb minuteDiff (Num 2) in
          (hourMatches && minuteMatches, Some ocrHour, Some ocrMinute)
        | _ => (false, None, None)
        end in
      let overallMatch := dateMatches && timeMatches in
      {| dt_valid := overallMatch;
         dateMatch := dateMatches;
         timeMatch := timeMatches;
         transactionDateTime :=
           Some {| t_year := year p; t_yearCode := yearCode p;
                   t_time := time p; t_hour := hour p;
                   t_minute := minute p |};
         ocrDateTime :=
           Some {| o_raw := ocrDateTime;
                   o_year :=
                     match ocrYear with
                     | Some y => if num_truthy y
                                 then Some (num_add (Num 2470) y) else None
                     | None => None
                     end;
                   o_yearCode := ocrYear;
                   o_hour := ocrHour; o_minute := ocrMinute |};
         message :=
           if overallMatch then Matching
           else Mismatch (hour p) (minute p) ocrYear ocrHour ocrMinute |}
  end.

(** [isValidQuick] *)
Definition isValidQuick (currentYear : Z) (transactionId : jsstring) : bool :=
  valid (isValid currentYear transactionId).

(** [verifyTime], the legacy time check *)
Definition verifyTime (currentYear : Z) (transactionId slipTime : jsstring)
  : TimeVerification :=
  match parse currentYear transactionId with
  | None =>
    {| tv_valid := false; tv_message := BadIdFormat; transactionTime := None;
       tv_slipTime := None; hourMatch := None; minuteMatch := None |}
  | Some p =>
    if falsy slipTime then
      {| tv_valid := false; tv_message := SlipTimeMissing;
         transactionTime := None; tv_slipTime := None; hourMatch := None;
         minuteMatch := None |}
    else
      let cleanSlipTime := trim (removeNor (trim slipTime)) in
      let slipTimeParts := split 58 cleanSlipTime in
      if length slipTimeParts <? 2 then
        {| tv_valid := false; tv_message := BadSlipTime;
           transactionTime := None; tv_slipTime := None; hourMatch := None;
           minuteMatch := None |}
      else
        let slipHour := parseInt (nth 0 slipTimeParts []) in
        let slipMinute := parseInt (nth 1 slipTimeParts []) in
        let hourMatch_ := num_eqb (hour p) slipHour in
        let minuteDiff := num_abs (num_sub (minute p) slipMinute) in
        let minuteMatch_ := num_leb minuteDiff (Num 2) in
        let timeMatch_ := hourMatch_ && minuteMatch_ in
        {| tv_valid := timeMatch_;
           transactionTime := Some (time p);
           tv_slipTime := Some (slipHour, slipMinute);
           hourMatch := Some hourMatch_;
           minuteMatch := Some minuteMatch_;
           tv_message :=
             if timeMatch_ then TimeOk
             else TimeOff (time p) slipHour slipMinute |}
  end.

(** [extractYear] *)
Definition extractYear (currentYear : Z) (transactionId : jsstring)
  : option jsnum :=
  match parse currentYear transactionId with
  | Some p => Some (year p)
  | None => None
  end.

(** [getTransactionType] *)
Definition getTransactionType (currentYear : Z) (transactionId : jsstring)
  : option jsstring :=
  match parse currentYear transactionId with
  | Some p => Some (typeDescription p)
  | None => None
  end.

End WithHost.
End TransactionParser.

(** ** ValidationService (services/validationService.js) *)

Module ValidationService.
Import JS Regex.
Module TP := TransactionParser.

(** [slipData.dateTime]; an absent string field is the empty string,
    which every test made on it treats like [undefined]. *)
Record DateTime := {
  rawOCR : jsstring;
  time : jsstring
}.

(** The slip data handed over by the OCR layer.  An absent amount is
    [None]; an absent [ocrConfidence] is [nan]. *)
Record SlipData := {
  success : bool;
  transactionId : jsstring;
  dateTime : option DateTime;
  amount : option float;
  recipient : jsstring;
  ocrConfidence : float
}.

Record ExpectedData := {
  expectedAmount : option float;       (* [expectedData.amount] *)
  expectedRecipient : jsstring         (* [expectedData.recipient] *)
}.

(** The message of [validateTime]:
    - [TimeNotFound]: 'Time not found in slip'
    - [InvalidTimeFormat]: 'Invalid time format'
    - [TimeMatches]: 'Time matches between slip and transaction ID'
    - [TimeDiffers s t]: 'Time mismatch: Slip shows <s>, transaction ID indicates <t>' *)
Inductive TimeMessage :=
| TimeNotFound
| InvalidTimeFormat
| TimeMatches
| TimeDiffers (slipTime transactionTime : jsstring).

Record TimeCheck := {
  tc_valid : bool;
  tc_message : TimeMessage
}.

Record AmountCheck := {
  ac_valid : bool;
  actualAmount : float;
  expectedAmount_ : float;
  difference : float
}.

Record RecipientCheck := {
  rc_valid : bool;
  actualRecipient : jsstring;
  expectedRecipient_ : jsstring
}.

(** The entries of [result.errors]:
    - [SlipParseFailed]: 'Failed to parse slip image'
    - [NoTransactionId]: 'Transaction ID not found in slip'
    - [InvalidTransactionId r]: 'Invalid transaction ID: <r>'
    - [HighRiskFakeSlip rs]: 'High risk fake slip: <rs joined>'
    - [DateMismatch]: 'Date mismatch between transaction ID and OCR'
    - [TimeMismatch]: 'Time mismatch between transaction ID and OCR'
    - [TimeError m]: the message of [validateTime]
    - [AmountMismatch e a]: 'Amount mismatch: Expected <e> but found <a>' *)
Inductive Error :=
| SlipParseFailed
| NoTransactionId
| InvalidTransactionId (r : TP.Reason)
| HighRiskFakeSlip (rs : list TP.Suspicion)
| DateMismatch
| TimeMismatch
| TimeError (m : TimeMessage)
| AmountMismatch (expected actual : float).

(** The entries of [result.warnings]:
    - [SuspiciousIndicators rs]: 'Suspicious indicators: <rs joined>'
    - [TimeWarning m]: the message of [verifyDateTime]
    - [AmountNotFound]: 'Amount not found or invalid in slip'
    - [RecipientMismatch e a]: 'Recipient mismatch: Expected "<e>" but found "<a>"'
    - [OcrBelowOptimal]: 'OCR confidence is below optimal level'
    - [OcrLow]: 'Low OCR confidence - results may be unreliable' *)
Inductive Warning :=
| SuspiciousIndicators (rs : list TP.Suspicion)
| TimeWarning (m : TP.Message)
| AmountNotFound
| RecipientMismatch (expected actual : jsstring)
| OcrBelowOptimal
| OcrLow.

(** - [LikelyAuthentic]: 'Likely authentic'
    - [ReviewRequired]: 'Review required'
    - [HighRiskOfFake]: 'High risk of fake' *)
Inductive Authenticity := LikelyAuthentic | ReviewRequired | HighRiskOfFake.

Inductive OcrQuality := Good | Fair | Poor.

(** The object returned by [validateSlip].  Of [details] only
    [transactionInfo], [authenticity] and [ocrQuality] are kept (the
    other entries are copies of intermediate results that nothing
    reads); [scorePercentage] is kept before rounding. *)
Record Result := {
  valid : bool;
  errors : list Error;
  warnings : list Warning;
  transactionInfo : option TP.ParsedTransaction;
  authenticity : option Authenticity;
  ocrQuality : option OcrQuality;
  score : Z;
  maxScore : Z;
  fakeSlipDetection : option TP.FakeDetection;
  scorePercentage : option float
}.

Definition initial : Result :=
  {| valid := false; errors := []; warnings := []; transactionInfo := None;
     authenticity := None; ocrQuality := None; score := 0; maxScore := 0;
     fakeSlipDetection := None; scorePercentage := None |}.

(** [result.errors.push(e)] *)
Definition pushError (e : Error) (r : Result) : Result :=
  {| valid := valid r; errors := errors r ++ [e]; warnings := warnings r;
     transactionInfo := transactionInfo r; authenticity := authenticity r;
     ocrQuality := ocrQuality r; score := score r; maxScore := maxScore r;
     fakeSlipDetection := fakeSlipDetection r;
     scorePercentage := scorePercentage r |}.

(** [result.warnings.push(w)] *)
Definition pushWarning (w : Warning) (r : Result) : Result :=
  {| valid := valid r; errors := errors r; warnings := warnings r ++ [w];
     transactionInfo := transactionInfo r; authenticity := authenticity r;
     ocrQuality := ocrQuality r; score := score r; maxScore := maxScore r;
     fakeSlipDetection := fakeSlipDetection r;
     scorePercentage := scorePercentage r |}.

(** [result.score += n] *)
Definition addScore (n : Z) (r : Result) : Result :=
  {| valid := valid r; errors := errors r; warnings := warnings r;
     transactionInfo := transactionInfo r; authenticity := authenticity r;
     ocrQuality := ocrQuality r; score := score r + n; maxScore := maxScore r;
     fakeSlipDetection := fakeSlipDetection r;
     scorePercentage := scorePercentage r |}.

(** [result.maxScore += n] *)
Definition addMax (n : Z) (r : Result) : Result :=
  {| valid := valid r; errors := errors r; warnings := warnings r;
     transactionInfo := transactionInfo r; authenticity := authenticity r;
     ocrQuality := ocrQuality r; score := score r; maxScore := maxScore r + n;
     fakeSlipDetection := fakeSlipDetection r;
     scorePercentage := scorePercentage r |}.

Definition setTransactionInfo (p : TP.ParsedTransaction) (r : Result) : Result :=
  {| valid := valid r; errors := errors r; warnings := warnings r;
     transactionInfo := Some p; authenticity := authenticity r;
     ocrQuality := ocrQuality r; score := score r; maxScore := maxScore r;
     fakeSlipDetection := fakeSlipDetection r;
     scorePercentage := scorePercentage r |}.

Definition setFakeSlipDetection (f : TP.FakeDetection) (r : Result) : Result :=
  {| valid := valid r; errors := errors r; warnings := warnings r;
     transactionInfo := transactionInfo r; authenticity := authenticity r;
     ocrQuality := ocrQuality r; score := score r; maxScore := maxScore r;
     fakeSlipDetection := Some f;
     scorePercentage := scorePercentage r |}.

Definition setAuthenticity (a : Authenticity) (r : Result) : Result :=
  {| valid := valid r; errors := errors r; warnings := warnings r;
     transactionInfo := transactionInfo r; authenticity := Some a;
     ocrQuality := ocrQuality r; score := score r; maxScore := maxScore r;
     fakeSlipDetection := fakeSlipDetection r;
     scorePercentage := scorePercentage r |}.

Definition setOcrQuality (q : OcrQuality) (r : Result) : Result :=
  {| valid := valid r; errors := errors r; warnings := warnings r;
     transactionInfo := transactionInfo r; authenticity := authenticity r;
     ocrQuality := Some q; score := score r; maxScore := maxScore r;
     fakeSlipDetection := fakeSlipDetection r;
     scorePercentage := scorePercentage r |}.

(** A score as a binary64 number (scores are small natural numbers). *)
Definition toNumber (z : Z) : float := PrimFloat.of_uint63 (Uint63.of_Z z).

(** [(result.score / result.maxScore) * 100] *)
Definition percentage (score maxScore : Z) : float :=
  PrimFloat.mul (PrimFloat.div (toNumber score) (toNumber maxScore)) 100%float.

(** The last three statements of [validateSlip]. *)
Definition conclude (r : Result) : Result :=
  let scorePercentage := percentage (score r) (maxScore r) in
  {| valid := bool_decide (length (errors r) = 0)
              && PrimFloat.leb 70%float scorePercentage;
     errors := errors r; warnings := warnings r;
     transactionInfo := transactionInfo r; authenticity := authenticity r;
     ocrQuality := ocrQuality r; score := score r; maxScore := maxScore r;
     fakeSlipDetection := fakeSlipDetection r;
     scorePercentage := Some scorePercentage |}.

(** Truthiness of a number. *)
Definition truthy (x : float) : bool :=
  negb (PrimFloat.is_nan x) && negb (PrimFloat.eqb x 0%float).

(** [validateTime] *)
Definition validateTime (slipData : SlipData) (parsedTransaction : TP.ParsedTransaction)
  : TimeCheck :=
  match dateTime slipData with
  | None => {| tc_valid := false; tc_message := TimeNotFound |}
  | Some dt =>
    if falsy (time dt) then {| tc_valid := false; tc_message := TimeNotFound |}
    else
      let slipTime := time dt in
      let transactionTime := TP.time parsedTransaction in
      let slipParts := split 58 slipTime in
      let transParts := split 58 transactionTime in
      if (length slipParts <? 2) || (length transParts <? 2) then
        {| tc_valid := false; tc_message := InvalidTimeFormat |}
      else
        let slipHour := parseInt (nth 0 slipParts []) in
        let slipMinute := parseInt (nth 1 slipParts []) in
        let transHour := parseInt (nth 0 transParts []) in
        let transMinute := parseInt (nth 1 transParts []) in
        let hourMatch := num_eqb slipHour transHour in
        let minuteDiff := num_abs (num_sub slipMinute transMinute) in
        let minuteMatch := num_leb minuteDiff (Num 2) in
        let valid := hourMatch && minuteMatch in
        {| tc_valid := valid;
           tc_message := if valid then TimeMatches
                         else TimeDiffers slipTime transactionTime |}
  end.

(** [validateAmount] with its default tolerance 0.01 *)
#[warnings="-inexact-float"]
Definition validateAmount (actualAmount expectedAmount : float) : AmountCheck :=
  let difference := PrimFloat.abs (PrimFloat.sub actualAmount expectedAmount) in
  {| ac_valid := PrimFloat.leb difference 0.01%float;
     actualAmount := actualAmount; expectedAmount_ := expectedAmount;
     difference := difference |}.

(** The message of [validateTransactionType]:
    - [InvalidId]: 'Invalid transaction ID'
    - [TypeMatches d]: 'Transaction type matches: <d>'
    - [TypeDiffers e a]: 'Transaction type mismatch: Expected <e> but found <a>' *)
Inductive TypeMessage :=
| InvalidId
| TypeMatches (description : jsstring)
| TypeDiffers (expected actual : jsstring).

Record TypeCheck := {
  ty_valid : bool;                   (* the field [valid] *)
  actualType : option jsstring;
  ty_message : TypeMessage           (* the field [message] *)
}.

(** The recommendation of [quickValidate]: the one of the fake slip
    detection, 'Accept', or 'Reject - Invalid format'. *)
Inductive QuickRecommendation :=
| Detected (r : TP.Recommendation)
| PlainAccept
| RejectInvalidFormat.

(** The object returned by [quickValidate] (without the copy of its
    argument). *)
Record QuickResult := {
  q_valid : bool;
  q_reason : TP.Reason;
  q_parsed : option TP.ParsedTransaction;
  q_fakeSlipDetection : option TP.FakeDetection;
  q_recommendation : QuickRecommendation
}.

(** The two objects returned by [validateAndDetectFake].  For a
    rejected identifier the object has the fields [valid], [isFake],
    [riskLevel], [reason] and [recommendation]; for an accepted one it
    has [valid], [isFake], [riskLevel], [reasons], [recommendation],
    [parsed] and [details] (copies of fields of [parsed], left out).
    A field that the object does not have is [None]. *)
Record FakeCheck := {
  f_valid : bool;
  isFake : bool;
  f_riskLevel : TP.RiskLevel;
  f_reason : option TP.Reason;             (* the field [reason] *)
  f_reasons : option (list TP.Suspicion);  (* the field [reasons] *)
  f_recommendation : TP.Recommendation;
  f_parsed : option TP.ParsedTransaction
}.

(** The verdict steps of [validateSlip], each one a block of the
    function body working on [result]. *)

(** The outcome of the amount comparison that [amountStep] makes: it is
    made only when the slip has a positive amount and an expected
    amount is given. *)
Definition amountConsistent (slipData : SlipData) (expectedData : ExpectedData)
  : bool :=
  match amount slipData, expectedAmount expectedData with
  | Some a, Some e =>
    if truthy a && PrimFloat.ltb 0%float a && truthy e
    then ac_valid (validateAmount a e) else true
  | _, _ => true
  end.

(** Fake slip detection. *)
Definition authenticityStep (fakeDetection : TP.FakeDetection) (r : Result)
  : Result :=
  let r := addMax 25 (setFakeSlipDetection fakeDetection r) in
  match TP.riskLevel fakeDetection with
  | TP.LOW => setAuthenticity LikelyAuthentic (addScore 25 r)
  | TP.MEDIUM =>
    pushWarning (SuspiciousIndicators (TP.reasons fakeDetection))
      (setAuthenticity ReviewRequired (addScore 15 r))
  | TP.HIGH =>
    pushError (HighRiskFakeSlip (TP.reasons fakeDetection))
      (setAuthenticity HighRiskOfFake r)
  end.

(** Amount presence and, with an expected amount, amount equality. *)
Definition amountStep (slipData : SlipData) (expectedData : ExpectedData)
    (r : Result) : Result :=
  let r := addMax 20 r in
  match amount slipData with
  | Some a =>
    if truthy a && PrimFloat.ltb 0%float a then
      let r := addScore 20 r in
      match expectedAmount expectedData with
      | Some e =>
        if truthy e then
          let amountMatch := validateAmount a e in
          let r := addMax 15 r in
          if ac_valid amountMatch then addScore 15 r
          else pushError (AmountMismatch e a) r
        else r
      | None => r
      end
    else pushWarning AmountNotFound r
  | None => pushWarning AmountNotFound r
  end.

(** OCR confidence. *)
Definition confidenceStep (slipData : SlipData) (r : Result) : Result :=
  let r := addMax 15 r in
  if PrimFloat.leb 70%float (ocrConfidence slipData) then
    setOcrQuality Good (addScore 15 r)
  else if PrimFloat.leb 50%float (ocrConfidence slipData) then
    pushWarning OcrBelowOptimal (setOcrQuality Fair (addScore 10 r))
  else pushWarning OcrLow (setOcrQuality Poor r).

Section WithHost.
Context {host : Host}.

(** [validateRecipient] *)
Definition validateRecipient (actualRecipient expectedRecipient : jsstring)
  : RecipientCheck :=
  let normalize := λ str, removeWhiteSpace (toLowerCase str) in
  let actualNorm := normalize actualRecipient in
  let expectedNorm := normalize expectedRecipient in
  let match_ := includes expectedNorm actualNorm
                || includes actualNorm expectedNorm in
  {| rc_valid := match_; actualRecipient := actualRecipient;
     expectedRecipient_ := expectedRecipient |}.

(** The fallback to the legacy time validation. *)
Definition legacyTimeStep (slipData : SlipData)
    (parsedTransaction : TP.ParsedTransaction) (r : Result) : Result :=
  let timeValidation := validateTime slipData parsedTransaction in
  let r := addMax 25 r in
  if tc_valid timeValidation then addScore 25 r
  else pushError (TimeError (tc_message timeValidation)) r.

(** Time consistency: the OCR date/time when there is one, the legacy
    comparison otherwise. *)
Definition timeStep (currentYear : Z) (slipData : SlipData)
    (parsedTransaction : TP.ParsedTransaction) (r : Result) : Result :=
  match dateTime slipData with
  | Some dt =>
    if negb (falsy (rawOCR dt)) then
      let timeValidation :=
        TP.verifyDateTime currentYear (transactionId slipData) (rawOCR dt) in
      let r := addMax 25 r in
      if TP.dt_valid timeValidation then addScore 25 r
      else
        let r := if negb (TP.dateMatch timeValidation)
                 then pushError DateMismatch r else r in
        let r := if negb (TP.timeMatch timeValidation)
                 then pushError TimeMismatch r else r in
        pushWarning (TimeWarning (TP.message timeValidation)) r
    else legacyTimeStep slipData parsedTransaction r
  | None => legacyTimeStep slipData parsedTransaction r
  end.

(** Recipient, when both an expected and an actual one are given. *)
Definition recipientStep (slipData : SlipData) (expectedData : ExpectedData)
    (r : Result) : Result :=
  if negb (falsy (expectedRecipient expectedData))
     && negb (falsy (recipient slipData)) then
    let recipientMatch :=
      validateRecipient (recipient slipData) (expectedRecipient expectedData) in
    let r := addMax 10 r in
    if rc_valid recipientMatch then addScore 10 r
    else pushWarning
           (RecipientMismatch (expectedRecipient expectedData)
                              (recipient slipData)) r
  else r.

(** [validateTransactionType] *)
Definition validateTransactionType (currentYear : Z)
    (transactionId expectedType : jsstring) : TypeCheck :=
  match TP.parse currentYear transactionId with
  | None =>
    {| ty_valid := false; actualType := None; ty_message := InvalidId |}
  | Some parsed =>
    let valid := eqs (TP.type parsed) expectedType in
    {| ty_valid := valid;
       actualType := Some (TP.type parsed);
       ty_message :=
         if valid then TypeMatches (TP.typeDescription parsed)
         else TypeDiffers expectedType (TP.type parsed) |}
  end.

(** [quickValidate] *)
Definition quickValidate (currentYear : Z) (transactionId : jsstring)
  : QuickResult :=
  let validation := TP.isValid currentYear transactionId in
  let fakeDetection :=
    if TP.valid validation
    then Some (TP.detectFakeSlip currentYear transactionId) else None in
  {| q_valid := TP.valid validation;
     q_reason := TP.reason validation;
     q_parsed := TP.parsed validation;
     q_fakeSlipDetection := fakeDetection;
     q_recommendation :=
       if TP.valid validation then
         match fakeDetection with
         | Some d => Detected (TP.recommendation d)
         | None => PlainAccept
         end
       else RejectInvalidFormat |}.

(** [validateAndDetectFake] *)
Definition validateAndDetectFake (currentYear : Z) (transactionId : jsstring)
  : FakeCheck :=
  match TP.isValid currentYear transactionId with
  | TP.Rejected why =>
    {| f_valid := false; isFake := true; f_riskLevel := TP.HIGH;
       f_reason := Some why; f_reasons := None;
       f_recommendation := TP.RejectInvalid; f_parsed := None |}
  | TP.Accepted parsed =>
    let fakeDetection := TP.detectFakeSlip currentYear transactionId in
    {| f_valid := true;
       isFake := TP.isSuspicious fakeDetection;
       f_riskLevel := TP.riskLevel fakeDetection;
       f_reason := None;
       f_reasons := Some (TP.reasons fakeDetection);
       f_recommendation := TP.recommendation fakeDetection;
       f_parsed := Some parsed |}
  end.

(** The outcome of the time check that [timeStep] makes: the OCR
    date/time verification when there is a raw OCR text, the legacy
    comparison otherwise. *)
Definition timeConsistent (currentYear : Z) (slipData : SlipData)
    (parsedTransaction : TP.ParsedTransaction) : bool :=
  match dateTime slipData with
  | Some dt =>
    if negb (falsy (rawOCR dt)) then
      TP.dt_valid
        (TP.verifyDateTime currentYear (transactionId slipData) (rawOCR dt))
    else tc_valid (validateTime slipData parsedTransaction)
  | None => tc_valid (validateTime slipData parsedTransaction)
  end.

(** The blocks that follow the authenticity block, run on an empty
    result: what the other checks contribute by themselves. *)
Definition otherChecks (currentYear : Z) (slipData : SlipData)
    (expectedData : ExpectedData) (parsedTransaction : TP.ParsedTransaction)
  : Result :=
  confidenceStep slipData
    (recipientStep slipData expectedData
       (amountStep slipData expectedData
          (timeStep currentYear slipData parsedTransaction initial))).

(** [validateSlip]; [currentYear] is the one seen by the parser. *)
Definition validateSlip (currentYear : Z) (slipData : SlipData)
    (expectedData : ExpectedData) : Result :=
  if negb (success slipData) then pushError SlipParseFailed initial else
  if falsy (transactionId slipData) then pushError NoTransactionId initial else
  match TP.isValid currentYear (transactionId slipData) with
  | TP.Rejected why => pushError (InvalidTransactionId why) initial
  | TP.Accepted parsedTransaction =>
    let r := setTransactionInfo parsedTransaction initial in
    let fakeDetection :=
      TP.detectFakeSlip currentYear (transactionId slipData) in
    let r := authenticityStep fakeDetection r in
    let r := timeStep currentYear slipData parsedTransaction r in
    let r := amountStep slipData expectedData r in
    let r := recipientStep slipData expectedData r in
    let r := confidenceStep slipData r in
    conclude r
  end.

End WithHost.

(** A block of [validateSlip] only adds to the result: points, point
    budget, hard errors and warnings, the same whatever was there. *)
Definition additive (f : Result → Result) : Prop :=
  ∀ r, score (f r) = (score r + score (f initial))%Z ∧
       maxScore (f r) = (maxScore r + maxScore (f initial))%Z ∧
       errors (f r) = errors r ++ errors (f initial) ∧
       warnings (f r) = warnings r ++ warnings (f initial).

(** The mock slip of test-validation.js and the expected data it is
    validated against. *)
Definition mockSlipData : SlipData :=
  {| success := true;
     transactionId := utf16 "015298170819BQR02651";
     dateTime := Some {| rawOCR := []; time := utf16 "17:08" |};
     amount := Some 1500%float;
     recipient := utf16 "ร้านค้า ABC";
     ocrConfidence := 85%float |}.

Definition mockExpected : ExpectedData :=
  {| expectedAmount := Some 1500%float;
     expectedRecipient := utf16 "ร้านค้า ABC" |}.

(** The exact form of the acceptance threshold: score / maxScore is at
    least 70 %. *)
Definition reaches70 (score maxScore : Z) : bool :=
  (0 <? maxScore)%Z && (70 * maxScore <=? 100 * score)%Z.

End ValidationService.

(** ** OCRService (services/ocrService.js): text cleaning, identifier
       repair and the search for an identifier *)

Module OCRService.
Import JS Regex.

(** The table [ocrFixes] of [cleanOCRText], in the order of its keys. *)
Definition ocrFixes : list (jsstring * jsstring) :=
  [ (utf16 "/เว", utf16 "APM");
    (utf16 "/เอที", utf16 "ATF");
    (utf16 "/เอ", utf16 "A");
    (utf16 "/บี", utf16 "B");
    (utf16 "เวม", utf16 "APM");
    (utf16 "เว", utf16 "APM");
    (utf16 "เอที", utf16 "ATF");
    (utf16 "บีคิว", utf16 "BQ");
    (utf16 "บีคิวอาร์", utf16 "BQR");
    (utf16 "บีพี", utf16 "BP");
    (utf16 "ดู", utf16 "QR");
    (utf16 "ดูอาร์", utf16 "QR");
    (utf16 "เอ", utf16 "A");
    (utf16 "บี", utf16 "B");
    (utf16 "ซี", utf16 "C");
    (utf16 "ดี", utf16 "D");
    (utf16 "อี", utf16 "E");
    (utf16 "เอฟ", utf16 "F");
    (utf16 "จี", utf16 "G");
    (utf16 "เอช", utf16 "H");
    (utf16 "ไอ", utf16 "I");
    (utf16 "เจ", utf16 "J");
    (utf16 "เค", utf16 "K");
    (utf16 "แอล", utf16 "L");
    (utf16 "เอ็ม", utf16 "M");
    (utf16 "เอ็น", utf16 "N");
    (utf16 "โอ", utf16 "O");
    (utf16 "พี", utf16 "P");
    (utf16 "คิว", utf16 "Q");
    (utf16 "อาร์", utf16 "R");
    (utf16 "เอส", utf16 "S");
    (utf16 "ที", utf16 "T");
    (utf16 "ยู", utf16 "U");
    (utf16 "วี", utf16 "V");
    (utf16 "ดับเบิลยู", utf16 "W");
    (utf16 "เอ็กซ์", utf16 "X");
    (utf16 "วาย", utf16 "Y");
    (utf16 "แซด", utf16 "Z");
    (utf16 "เเอ", utf16 "A");
    (utf16 "๐", utf16 "0");
    (utf16 "๑", utf16 "1");
    (utf16 "๒", utf16 "2");
    (utf16 "๓", utf16 "3");
    (utf16 "๔", utf16 "4");
    (utf16 "๕", utf16 "5");
    (utf16 "๖", utf16 "6");
    (utf16 "๗", utf16 "7");
    (utf16 "๘", utf16 "8");
    (utf16 "๙", utf16 "9") ].

(** The table [thaiToEnglish] of [fixTransactionIdOCRErrors]. *)
Definition thaiToEnglish : list (jsstring * jsstring) :=
  [ (utf16 "ดู", utf16 "QR");
    (utf16 "คิว", utf16 "Q");
    (utf16 "อาร์", utf16 "R");
    (utf16 "บี", utf16 "B");
    (utf16 "เอ", utf16 "A");
    (utf16 "ที", utf16 "T");
    (utf16 "เอฟ", utf16 "F");
    (utf16 "พี", utf16 "P");
    (utf16 "เอ็ม", utf16 "M");
    (utf16 "โอ", utf16 "O") ].

(** The loop [for (const [wrong, correct] of Object.entries(table))
    cleaned = cleaned.replace(new RegExp(wrong, 'g'), correct)]. *)
Definition applyFixes (table : list (jsstring * jsstring)) (text : jsstring)
  : jsstring :=
  fold_left (λ cleaned entry, replaceAll entry.1 entry.2 cleaned) table text.

(** A table is separated when its patterns and replacements are not
    empty and no replacement shares a character with a pattern. *)
Definition separated (table : list (jsstring * jsstring)) : bool :=
  forallb (λ e, negb (falsy e.1) && negb (falsy e.2)
                && forallb (λ e', apartb e'.1 e.2) table) table.

(** The characters with a meaning in the source of a regular
    expression. *)
Definition isSyntaxCharacter (c : N) : bool :=
  existsb (N.eqb c) (utf16 "^$\.*+?()[]{}|").

(** The patterns of a table are plain text for [new RegExp] and its
    replacements are plain text for [replace]. *)
Definition literalTable (table : list (jsstring * jsstring)) : bool :=
  forallb (λ e, forallb (λ c, negb (isSyntaxCharacter c)) e.1
                && forallb (λ c, negb (N.eqb c 36)) e.2) table.

(** Every pattern of the table holds a Thai character. *)
Definition thaiPatterns (table : list (jsstring * jsstring)) : bool :=
  forallb (λ e, existsb isThai e.1) table.

(** A string without characters of the Thai block. *)
Definition plain (w : jsstring) : Prop :=
  forallb (λ c, negb (isThai c)) w = true.

(** The entries of a table that can fire: an entry whose pattern holds
    the pattern of an earlier kept entry is dropped.  [seen] are the
    patterns kept so far. *)
Fixpoint liveEntries (seen : list jsstring) (table : list (jsstring * jsstring))
  : list (jsstring * jsstring) :=
  match table with
  | [] => []
  | e :: rest =>
    if existsb (λ q, includes q e.1) seen then liveEntries seen rest
    else e :: liveEntries (e.1 :: seen) rest
  end.

(** The patterns of the entries that [liveEntries] drops. *)
Fixpoint deadPatterns (seen : list jsstring) (table : list (jsstring * jsstring))
  : list jsstring :=
  match table with
  | [] => []
  | e :: rest =>
    if existsb (λ q, includes q e.1) seen then e.1 :: deadPatterns seen rest
    else deadPatterns (e.1 :: seen) rest
  end.

(** [cleanOCRText] *)
Definition cleanOCRText (text : jsstring) : jsstring :=
  if falsy text then [] else applyFixes ocrFixes text.

(** [/^(0152\d{8})(8QR[08]0?)(\d{4,5})$/] *)
Definition BQR_PATTERN : regex :=
  lits (utf16 "0152") ++ [exactly 8 isDigit] ++ lits (utf16 "8QR")
  ++ [exactly 1 (λ c, N.eqb c 48 || N.eqb c 56); opt (N.eqb 48);
      between 4 5 isDigit].

(** [/^(0152\d{8})(.{2,7}?)(\d{3,5})$/] *)
Definition SPLIT_PATTERN : regex :=
  lits (utf16 "0152")
  ++ [exactly 8 isDigit; betweenLazy 2 7 isDot; between 3 5 isDigit].

(** The object [numberToLetter]; a character without an entry stays. *)
Definition numberToLetter (c : N) : N :=
  if N.eqb c 48 then 79          (* '0': 'O' *)
  else if N.eqb c 49 then 73     (* '1': 'I' *)
  else if N.eqb c 51 then 66     (* '3': 'B' *)
  else if N.eqb c 52 then 65     (* '4': 'A' *)
  else if N.eqb c 53 then 83     (* '5': 'S' *)
  else if N.eqb c 54 then 70     (* '6': 'F' *)
  else if N.eqb c 55 then 84     (* '7': 'T' *)
  else if N.eqb c 56 then 66     (* '8': 'B' *)
  else if N.eqb c 50 then 90     (* '2': 'Z' *)
  else c.

Definition knownCodes : list jsstring :=
  [utf16 "ATF0"; utf16 "ATF"; utf16 "APM0"; utf16 "APM"; utf16 "BQR0";
   utf16 "BQR"; utf16 "BPMO"; utf16 "TRF"; utf16 "PMT"; utf16 "BIL"].

(** [s.endsWith('0')] *)
Definition endsWithZero (s : jsstring) : bool :=
  match last s with Some c => N.eqb c 48 | None => false end.

Definition BQR0 : jsstring := utf16 "BQR0".
Definition ATF0 : jsstring := utf16 "ATF0".
Definition APM0 : jsstring := utf16 "APM0".

(** *** The search for an identifier in the text of a slip *)

(** [[A-Z]] under the flag [i]: the letters of both cases (a character
    outside ASCII is never folded onto an ASCII one). *)
Definition isLetter (c : N) : bool := isUpper c || inRange 97 122 c.
(** [[A-Z0-9]] and [[0-9A-Z]] under the flag [i] *)
Definition isAlnum (c : N) : bool := isLetter c || isDigit c.
(** [[\/\s]] *)
Definition isSeparator (c : N) : bool := N.eqb c 47 || isWhiteSpace c.
(** [[:\s]] *)
Definition isColonOrSpace (c : N) : bool := N.eqb c 58 || isWhiteSpace c.
(** [[0-9A-Z\/\s]] under the flag [i] *)
Definition isIdChar (c : N) : bool :=
  isAlnum c || N.eqb c 47 || isWhiteSpace c.
(** [[:：]] *)
Definition isColon (c : N) : bool := N.eqb c 58 || N.eqb c 0xFF1A.

(** A small letter of a pattern under the flag [i]. *)
Definition anyCase (c : N) : atom :=
  Atom (λ x, N.eqb x c || N.eqb x (c - 32)) 1 (Some 1) false.

Definition LABEL : jsstring := utf16 "เลขที่รายการ".
Definition REFERENCE : regex := map anyCase (utf16 "reference").

(** [/0152\d{8}[A-Z]{2,4}\d{3,5}/gi] *)
Definition ID_LETTERS : regex :=
  lits (utf16 "0152")
  ++ [exactly 8 isDigit; between 2 4 isLetter; between 3 5 isDigit].

(** [/0152\d{8}[\/\s]?[A-Z]{2,4}[\/\s]?\d{3,5}/gi] *)
Definition ID_SEPARATED : regex :=
  lits (utf16 "0152")
  ++ [exactly 8 isDigit; opt isSeparator; between 2 4 isLetter;
      opt isSeparator; between 3 5 isDigit].

(** [/เลขที่รายการ[:\s]*([0-9A-Z\/\s]+)/gi] *)
Definition AFTER_LABEL : regex :=
  lits LABEL ++ [star isColonOrSpace; plus isIdChar].

(** [/reference[:\s]*([0-9A-Z\/\s]+)/gi] *)
Definition AFTER_REFERENCE : regex :=
  REFERENCE ++ [star isColonOrSpace; plus isIdChar].

(** [/0152\d{8}[A-Z0-9]{3,7}\d{3,5}/gi] *)
Definition ID_RELAXED : regex :=
  lits (utf16 "0152")
  ++ [exactly 8 isDigit; between 3 7 isAlnum; between 3 5 isDigit].

(** The array [patterns]; the flag tells whether the pattern has a
    capture group, which is then its last atom. *)
Definition patterns : list (regex * bool) :=
  [(ID_LETTERS, false); (ID_SEPARATED, false); (AFTER_LABEL, true);
   (AFTER_REFERENCE, true); (ID_RELAXED, false)].

(** The array [directPatterns]. *)
Definition directPatterns : list regex :=
  [ID_LETTERS; ID_SEPARATED; ID_RELAXED].

(** [/0152\d{8}[A-Z]{2,4}\d{3,5}/], without the flag [i] *)
Definition ID_CAPITALS : regex :=
  lits (utf16 "0152")
  ++ [exactly 8 isDigit; between 2 4 isUpper; between 3 5 isDigit].

(** [/0152\d{8}[\/\s]*([A-Z]{2,4})[\/\s]*\d{3,5}/i] *)
Definition SEGMENTS : regex :=
  lits (utf16 "0152")
  ++ [exactly 8 isDigit; star isSeparator; between 2 4 isLetter;
      star isSeparator; between 3 5 isDigit].

(** [/0152\d{12,18}/] *)
Definition ALL_DIGITS : regex :=
  lits (utf16 "0152") ++ [between 12 18 isDigit].

(** [match[1] || match[0]] *)
Definition captured (grouped : bool) (caps : list jsstring) : jsstring :=
  if grouped then
    match last caps with
    | Some group => if falsy group then concat caps else group
    | None => concat caps
    end
  else concat caps.

(** The score of a candidate of the given length. *)
Definition lengthScore (length : nat) : Z :=
  if (20 <=? length) && (length <=? 21) then 100
  else if (18 <=? length) && (length <=? 23) then
    50 + (20 - Z.abs (20 - Z.of_nat length)) * 5
  else 0.

(** What the loop over [patterns] keeps true of [bestMatch] and
    [bestScore]. *)
Definition chosen (best : option jsstring * Z) : Prop :=
  (0 ≤ best.2)%Z ∧
  match best.1 with
  | Some b => 18 ≤ length b ≤ 23 ∧ best.2 = lengthScore (length b)
  | None => True
  end.

Section WithHost.
Context {host : Host}.

(** The block guarded by [/^\d+$/.test(middle) && middle.length >= 2 &&
    middle.length <= 4]: [Some] for each of its [return] statements,
    [None] when control leaves the block. *)
Definition digitRules (prefix middle suffix : jsstring) : option jsstring :=
  let reconstructed := map numberToLetter middle in
  if test [lit 56; exactly 2 isDot; lit 56] middle then
    Some (prefix ++ BQR0 ++ suffix)
  else if eqs middle (utf16 "8008") || eqs middle (utf16 "8080") then
    Some (prefix ++ BQR0 ++ suffix)
  else if eqs middle (utf16 "816") || eqs middle (utf16 "8160") then
    Some (prefix ++ ATF0 ++ suffix)
  else
    let bRule :=
      if startsWith (utf16 "8") middle && (3 <=? length middle) then
        if test [lit 56; exactly 2 isDigit; lit 48] middle then
          Some (prefix ++ BQR0 ++ suffix)
        else if eqs middle (utf16 "8TF") || eqs middle (utf16 "8T6")
                || eqs middle (utf16 "816") then
          Some (prefix ++ ATF0 ++ suffix)
        else if eqs middle (utf16 "8PM")
                || test [lit 56; lit 80; exactly 1 isDigit] middle then
          Some (prefix ++ APM0 ++ suffix)
        else None
      else None in
    match bRule with
    | Some fixed => Some fixed
    | None =>
      let reconstructedUpper := toUpperCase reconstructed in
      match
        find (λ code, eqs reconstructedUpper code
                      || startsWith (substring 0 3 code) reconstructedUpper)
             knownCodes
      with
      | Some code => Some (prefix ++ code ++ suffix)
      | None =>
        if (length middle =? 4) && endsWithZero middle then
          Some (prefix ++ reconstructed ++ suffix)
        else None
      end
    end.

(** The block guarded by [/[A-Z]/.test(middle) && middle.length >= 3 &&
    middle.length <= 4]; it always returns. *)
Definition mixedRule (prefix middle suffix : jsstring) : jsstring :=
  let middle :=
    if test [lit 56; plus isUpper; lit 56] middle then
      utf16 "B" ++ substring 1 (length middle - 1) middle ++ utf16 "0"
    else if test [lit 56; plus isUpper; lit 48] middle then
      utf16 "B" ++ drop 1 middle
    else middle in
  prefix ++ middle ++ suffix.

(** The repair rules applied to the cleaned identifier: [Some] for each
    [return] statement between the removal of Thai characters and the
    final [return cleaned], [None] when control reaches that final
    statement. *)
Definition repairRules (cleaned : jsstring) : option jsstring :=
  match matchFull BQR_PATTERN cleaned with
  | Some [p0; p1; p2; p3; d8; _; _; _; _; _; tail] =>
    Some ((p0 ++ p1 ++ p2 ++ p3 ++ d8) ++ BQR0 ++ tail)
  | _ =>
    match matchFull SPLIT_PATTERN cleaned with
    | Some [p0; p1; p2; p3; d8; middle; suffix] =>
      let prefix := p0 ++ p1 ++ p2 ++ p3 ++ d8 in
      if test (lits (utf16 "8QR8")) middle then Some (prefix ++ BQR0 ++ suffix)
      else if test (lits (utf16 "8QR0")) middle then
        Some (prefix ++ BQR0 ++ suffix)
      else
        match
          if test [plus isDigit] middle && (2 <=? length middle)
             && (length middle <=? 4)
          then digitRules prefix middle suffix else None
        with
        | Some fixed => Some fixed
        | None =>
          if testAnywhere [exactly 1 isUpper] middle && (3 <=? length middle)
             && (length middle <=? 4)
          then Some (mixedRule prefix middle suffix)
          else None
        end
    | _ => None
    end
  end.

(** The candidate after the Thai-to-English replacements and the
    removal of the remaining Thai characters (the local [cleaned]). *)
Definition stripThai (transactionId : jsstring) : jsstring :=
  removeThai (applyFixes thaiToEnglish transactionId).

(** [fixTransactionIdOCRErrors] *)
Definition fixTransactionIdOCRErrors (transactionId : jsstring) : jsstring :=
  if falsy transactionId || (length transactionId <? 20) then transactionId
  else
    let cleaned := stripThai transactionId in
    match repairRules cleaned with
    | Some fixed => fixed
    | None => cleaned
    end.

(** The clean-up of a match in the loop over [patterns]. *)
Definition tidy (transactionId : jsstring) : jsstring :=
  let transactionId :=
    trim (filter (λ c, isColon c = false)
            (removeAll REFERENCE (replaceAll LABEL [] transactionId))) in
  let transactionId := cleanOCRText transactionId in
  toUpperCase (filter (λ c, isAlnum c = true) transactionId).

(** The body of the loop over the matches of a pattern; [best] is the
    pair of [bestMatch] and [bestScore]. *)
Definition consider (transactionId : jsstring) (best : option jsstring * Z)
  : option jsstring * Z :=
  let transactionId := tidy transactionId in
  if startsWith (utf16 "0152") transactionId then
    let score := lengthScore (length transactionId) in
    if (best.2 <? score)%Z then (Some transactionId, score) else best
  else best.

(** The loop over [patterns]. *)
Definition scan (cleanedText : jsstring) : option jsstring * Z :=
  fold_left
    (λ best pattern,
       fold_left (λ best caps, consider (captured pattern.2 caps) best)
                 (matchAll pattern.1 cleanedText) best)
    patterns (None, 0%Z).

(** The loop over [directPatterns], left at the first pattern that
    gives a candidate. *)
Definition direct (ocrText : jsstring) : option jsstring :=
  firstSome
    (λ pattern,
       match search pattern ocrText with
       | Some caps =>
         let cleaned :=
           filter (λ c, isAlnum c = true)
                  (cleanOCRText (toUpperCase (concat caps))) in
         if (19 <=? length cleaned) && (length cleaned <=? 22)
            && startsWith (utf16 "0152") cleaned
         then
           let hasLetters := testAnywhere ID_CAPITALS cleaned in
           if hasLetters || (length cleaned =? 20) || (length cleaned =? 21)
           then Some cleaned else None
         else None
       | None => None
       end)
    directPatterns.

(** The reconstruction from segments. *)
Definition segments (cleanedText : jsstring) : option jsstring :=
  match search SEGMENTS cleanedText with
  | Some caps =>
    let reconstructed :=
      toUpperCase (filter (λ c, isAlnum c = true) (concat caps)) in
    if (19 <=? length reconstructed) && (length reconstructed <=? 22)
    then Some reconstructed else None
  | None => None
  end.

(** [extractTransactionId]; [None] is [null]. *)
Definition extractTransactionId (ocrText : jsstring) : option jsstring :=
  if falsy ocrText then None
  else
    let cleanedText := cleanOCRText ocrText in
    let bestMatch := (scan cleanedText).1 in
    let bestMatch :=
      match bestMatch with Some b => Some b | None => direct ocrText end in
    let bestMatch :=
      match bestMatch with
      | Some b => Some b
      | None => segments cleanedText
      end in
    let bestMatch :=
      match bestMatch with
      | Some b => Some b
      | None =>
        match search ALL_DIGITS cleanedText with
        | Some caps => Some (concat caps)
        | None => None
        end
      end in
    fixTransactionIdOCRErrors <$> bestMatch.

End WithHost.
End OCRService.

(** ** An ASCII host

    The case conversions restricted to ASCII letters, which is what the
    host does on ASCII text; used to run the model on concrete
    inputs. *)

Module AsciiHost.
Import JS.

Definition asciiUpper (c : N) : N := if inRange 97 122 c then (c - 32)%N else c.
Definition asciiLower (c : N) : N := if inRange 65 90 c then (c + 32)%N else c.

End AsciiHost.

(** ** The specification's notions, as the specification words them *)

Module Spec.
Import JS TransactionParser.

(** The decimal value of a digit string. *)
Definition decimal (w : jsstring) : Z :=
  fold_left (λ acc c, 10 * acc + (Z.of_N c - 48))%Z w 0%Z.

Definition digits (w : jsstring) : Prop := forallb isDigit w = true.
Definition alphanumeric (w : jsstring) : Prop := forallb isUpperAlnum w = true.

(** The fixed-width grammar: domain prefix + 2-digit year code + 2-digit
    hour + 2-digit minute + 2-digit second + 4-char alphanumeric type
    code + 3-to-5-digit sequence. *)
Definition Grammar (s yy hh mm ss ty sq : jsstring) : Prop :=
  s = KBANK_PREFIX ++ yy ++ hh ++ mm ++ ss ++ ty ++ sq ∧
  (length yy = 2 ∧ digits yy) ∧ (length hh = 2 ∧ digits hh) ∧
  (length mm = 2 ∧ digits mm) ∧ (length ss = 2 ∧ digits ss) ∧
  (length ty = 4 ∧ alphanumeric ty) ∧
  ((3 ≤ length sq ∧ length sq ≤ 5) ∧ digits sq).

(** The semantic bounds: time ranges, and the year (year code + 2470)
    within [currentYear - 5, currentYear + 1]. *)
Definition Plausible (currentYear : Z) (yy hh mm ss : jsstring) : Prop :=
  (decimal hh ≤ 23 ∧ decimal mm ≤ 59 ∧ decimal ss ≤ 59 ∧
   currentYear - 5 ≤ decimal yy + 2470 ∧ decimal yy + 2470 ≤ currentYear + 1)%Z.


(** The decoded record of an identifier cut into its fields. *)
Definition describe (s yy hh mm ss ty sq : jsstring) : ParsedTransaction :=
  {| raw := s; prefix := KBANK_PREFIX;
     year := Num (2470 + decimal yy); yearCode := yy;
     time := hh ++ [58%N] ++ mm ++ [58%N] ++ ss;
     hour := Num (decimal hh); minute := Num (decimal mm);
     second := Num (decimal ss);
     type := ty;
     typeDescription :=
       match transactionTypes !! ty with
       | Some d => if falsy d then UNKNOWN_TYPE else d
       | None => UNKNOWN_TYPE
       end;
     isKnownType := bool_decide (is_Some (transactionTypes !! ty));
     sequence := sq;
     idLength := length s;
     timestamp :=
       {| ts_year := Num (2470 + decimal yy); ts_hour := Num (decimal hh);
          ts_minute := Num (decimal mm); ts_second := Num (decimal ss) |} |}.

(** The structural checks of the validator, in the priority order of
    the specification: prefix, length, regex pattern, semantic parse. *)
Inductive Check := PrefixCheck | LengthCheck | PatternCheck | SemanticCheck.

Definition priority (c : Check) : nat :=
  match c with
  | PrefixCheck => 0
  | LengthCheck => 1
  | PatternCheck => 2
  | SemanticCheck => 3
  end.

Definition Passes (currentYear : Z) (c : Check) (s : jsstring) : Prop :=
  match c with
  | PrefixCheck => ∃ rest, s = KBANK_PREFIX ++ rest
  | LengthCheck => length s = 20 ∨ length s = 21
  | PatternCheck => ∃ yy hh mm ss ty sq, Grammar s yy hh mm ss ty sq
  | SemanticCheck =>
    ∃ yy hh mm ss ty sq,
      Grammar s yy hh mm ss ty sq ∧ Plausible currentYear yy hh mm ss
  end.

(** [c] fails on [s] and every check of higher priority passes. *)
Definition FirstFailing (currentYear : Z) (s : jsstring) (c : Check) : Prop :=
  ¬ Passes currentYear c s ∧
  ∀ c', priority c' < priority c → Passes currentYear c' s.

(** The check a reason speaks of. *)
Definition checkNamed (r : Reason) : option Check :=
  match r with
  | InvalidPrefix _ => Some PrefixCheck
  | InvalidLength _ => Some LengthCheck
  | InvalidFormat => Some PatternCheck
  | ParseFailed => Some SemanticCheck
  | Required | ValidId => None
  end.

(** Risk levels are ordered LOW < MEDIUM < HIGH. *)
Definition rank (l : RiskLevel) : nat :=
  match l with LOW => 0 | MEDIUM => 1 | HIGH => 2 end.

Definition risk_le (a b : RiskLevel) : Prop := rank a ≤ rank b.

(** The triggering conditions of the risk scorer. *)
Inductive Condition :=
| UnknownTypeCode | RepeatedSequence | StaleYear | FutureYear | MidnightTime.

Definition triggered (currentYear : Z) (p : ParsedTransaction) (c : Condition)
  : bool :=
  match c with
  | UnknownTypeCode => negb (isKnownType p)
  | RepeatedSequence => Regex.repeatedDigit (sequence p)
  | StaleYear => num_ltb (year p) (Num (currentYear - 2))
  | FutureYear => num_gtb (year p) (Num (currentYear + 1))
  | MidnightTime =>
    num_eqb (hour p) (Num 0) && num_eqb (minute p) (Num 0)
    && num_eqb (second p) (Num 0)
  end.

(** The conditions of the heuristic checks, and how many of them a
    record triggers. *)
Definition conditions : list Condition :=
  [UnknownTypeCode; RepeatedSequence; StaleYear; FutureYear; MidnightTime].

Definition triggeredCount (currentYear : Z) (p : ParsedTransaction) : nat :=
  length (List.filter (triggered currentYear p) conditions).

(** LOW: accept; MEDIUM: manual review; HIGH: reject. *)
Definition recommendationFor (l : RiskLevel) : Recommendation :=
  match l with LOW => Accept | MEDIUM => Review | HIGH => RejectMultiple end.

(** An hour:minute pair inside a text: one or two digits, a colon, two
    digits. *)
Definition TimeAt (t before h m after : jsstring) : Prop :=
  t = before ++ h ++ [58%N] ++ m ++ after ∧
  (1 ≤ length h ∧ length h ≤ 2) ∧ digits h ∧ length m = 2 ∧ digits m.

(** The leftmost hour:minute pair of a text. *)
Definition FirstTime (t h m : jsstring) : Prop :=
  ∃ before after,
    TimeAt t before h m after ∧
    ∀ before' h' m' after',
      TimeAt t before' h' m' after' → length before ≤ length before'.

(** The identifier of the specification's scenarios and its decoding. *)
Definition scenarioId : jsstring := utf16 "015298170819BQR02651".

Definition scenarioParsed : ParsedTransaction :=
  describe scenarioId (utf16 "98") (utf16 "17") (utf16 "08") (utf16 "19")
           (utf16 "BQR0") (utf16 "2651").

(** A case conversion keeps white space: it turns a string made of
    white space only into one made of white space only (the
    conversions of ECMAScript change no white-space character). *)
Definition KeepsWhiteSpace (convert : jsstring → jsstring) : Prop :=
  ∀ s, forallb isWhiteSpace s = true →
       forallb isWhiteSpace (convert s) = true.

(** An identifier that triggers three conditions (unknown type code,
    repetitive sequence, time 00:00:00) and its decoding. *)
Definition suspectId : jsstring := utf16 "015298000000XXXX1111".

Definition suspectParsed : ParsedTransaction :=
  describe suspectId (utf16 "98") (utf16 "00") (utf16 "00") (utf16 "00")
           (utf16 "XXXX") (utf16 "1111").

End Spec.

(** * Facts *)

(** ** Strings and numbers *)

Module JSFacts.
Import JS Spec.

Lemma startsWith_app p s : startsWith p (p ++ s) = true.
Proof. induction p as [|a p IH]; simpl; [done|]. by rewrite N.eqb_refl. Qed.

Lemma startsWith_true p s : startsWith p s = true ↔ ∃ rest, s = p ++ rest.
Proof.
  split.
  - revert s. induction p as [|a p IH]; intros s; simpl; [by exists s|].
    destruct s as [|b s]; [done|].
    intros [->%N.eqb_eq [rest ->]%IH]%andb_prop. by exists rest.
  - intros [rest ->]. apply startsWith_app.
Qed.

Lemma startsWith_single a c w : startsWith [a] (c :: w) = (a =? c)%N.
Proof. unfold startsWith. apply andb_true_r. Qed.

Lemma isDigit_bounds c : isDigit c = true ↔ (48 ≤ c ∧ c ≤ 57)%N.
Proof.
  unfold isDigit, inRange. by rewrite andb_true_iff, !N.leb_le.
Qed.

Lemma digitsAcc_digits w acc :
  forallb isDigit w = true →
  digitsAcc acc w = fold_left (λ acc c, 10 * acc + (Z.of_N c - 48))%Z w acc.
Proof.
  revert acc. induction w as [|c w IH]; intros acc; simpl; [done|].
  intros [Hc Hw]%andb_prop. rewrite Hc, IH by done. f_equal.
  apply isDigit_bounds in Hc. unfold digitVal. lia.
Qed.

Lemma isDigit_not_space c : isDigit c = true → isWhiteSpace c = false.
Proof.
  intros Hc%isDigit_bounds. unfold isWhiteSpace, inRange.
  repeat (apply orb_false_intro);
    try (apply andb_false_iff; rewrite !N.leb_gt; lia);
    apply N.eqb_neq; lia.
Qed.

(** On a non-empty digit string [parseInt] is the decimal value. *)
Lemma parseInt_digits w :
  w ≠ [] → forallb isDigit w = true → parseInt w = Num (decimal w).
Proof.
  intros Hne Hd. destruct w as [|c w]; [done|].
  pose proof Hd as Hd'. simpl in Hd'. apply andb_prop in Hd' as [Hc Hw].
  unfold parseInt. cbn [trimStart]. rewrite (isDigit_not_space c Hc).
  assert (c ≠ 45%N ∧ c ≠ 43%N) as [H45 H43].
  { apply isDigit_bounds in Hc. lia. }
  rewrite !startsWith_single.
  rewrite (proj2 (N.eqb_neq 45 c)), (proj2 (N.eqb_neq 43 c)) by done.
  cbn [orb]. rewrite Hc.
  f_equal. unfold decimal. by rewrite digitsAcc_digits.
Qed.

End JSFacts.

(** ** The matcher *)

Module RegexFacts.
Import JS Regex.

Lemma firstSome_Some {A B} (f : A → option B) l y :
  firstSome f l = Some y → ∃ x, x ∈ l ∧ f x = Some y.
Proof.
  induction l as [|x l IH]; simpl; [done|].
  destruct (f x) as [z|] eqn:E.
  - intros [= <-]. exists x. split; [left|done].
  - intros (x' & ? & ?)%IH. exists x'. split; [by right|done].
Qed.

Lemma firstSome_is_Some {A B} (f : A → option B) l x :
  x ∈ l → is_Some (f x) → is_Some (firstSome f l).
Proof.
  induction l as [|x' l IH]; simpl; [by intros ?%elem_of_nil|].
  intros Hin Hx. destruct (f x') eqn:E; [done|].
  apply elem_of_cons in Hin as [->|Hin]; [|by apply IH].
  rewrite E in Hx. by destruct Hx.
Qed.

Lemma elem_of_counts a n k :
  k ∈ counts a n ↔
  lo a ≤ k ∧ k ≤ n ∧ match hi a with Some h => k ≤ h | None => True end.
Proof.
  unfold counts.
  set (top := match hi a with Some h => Nat.min h n | None => n end).
  assert (k ∈ seq (lo a) (S top - lo a) ↔ lo a ≤ k ∧ k ≤ top) as Hseq.
  { rewrite elem_of_seq. lia. }
  assert (k ≤ top ↔ k ≤ n ∧ match hi a with Some h => k ≤ h | None => True end)
    as Htop.
  { unfold top. destruct (hi a); lia. }
  destruct (lazy a).
  - rewrite Hseq, Htop. tauto.
  - rewrite list_elem_of_In, <- in_rev, <- list_elem_of_In, Hseq, Htop. tauto.
Qed.

Lemma matchSeq_sound re e s caps :
  matchSeq re e s = Some caps →
  Forall2 fits re caps ∧ ∃ rest, s = concat caps ++ rest ∧ (e = true → rest = []).
Proof.
  revert s caps. induction re as [|a re IH]; intros s caps; simpl.
  - destruct e.
    + destruct s; [|done]. intros [= <-]. split; [constructor|].
      by exists [].
    + intros [= <-]. split; [constructor|]. by exists s.
  - intros (k & Hk & Hf)%firstSome_Some.
    apply elem_of_counts in Hk as (Hlo & Hn & Hhi).
    destruct (forallb (cls a) (take k s)) eqn:Hcls; [|done].
    destruct (matchSeq re e (drop k s)) as [caps'|] eqn:Hm; [|done].
    simpl in Hf. injection Hf as <-.
    apply IH in Hm as (Hfits & rest & Hrest & Hend).
    split.
    + constructor; [|done]. unfold fits. rewrite length_take.
      split_and!; [lia| |done]. destruct (hi a); [lia|done].
    + exists rest. split; [|done]. simpl.
      rewrite <- (take_drop k s) at 1. rewrite Hrest. by rewrite <- app_assoc.
Qed.

Lemma matchSeq_complete re e caps rest :
  Forall2 fits re caps → (e = true → rest = []) →
  is_Some (matchSeq re e (concat caps ++ rest)).
Proof.
  intros Hfits Hend. induction Hfits as [|a w re caps (Hlo & Hhi & Hcls) _ IH];
    simpl.
  - destruct e; [|done]. by rewrite Hend.
  - apply (firstSome_is_Some _ _ (length w)).
    + apply elem_of_counts. rewrite !length_app. split_and!; [done|lia|done].
    + rewrite <- app_assoc, take_app_length, drop_app_length, Hcls.
      destruct IH as [caps' ->]. by eexists.
Qed.

(** Anchored matching succeeds exactly on the concatenations of fitting
    pieces. *)
Lemma matchFull_is_Some re s :
  is_Some (matchFull re s) ↔ ∃ caps, Forall2 fits re caps ∧ s = concat caps.
Proof.
  unfold matchFull. split.
  - intros [caps Hm]. apply matchSeq_sound in Hm as (? & rest & -> & Hend).
    exists caps. rewrite (Hend eq_refl), app_nil_r. done.
  - intros (caps & Hfits & ->).
    rewrite <- (app_nil_r (concat caps)). by apply matchSeq_complete.
Qed.

Lemma matchFull_sound re s caps :
  matchFull re s = Some caps → Forall2 fits re caps ∧ s = concat caps.
Proof.
  intros (? & rest & -> & Hend)%matchSeq_sound.
  by rewrite (Hend eq_refl), app_nil_r.
Qed.

Lemma test_true re s :
  test re s = true ↔ ∃ caps, Forall2 fits re caps ∧ s = concat caps.
Proof.
  unfold test. rewrite bool_decide_eq_true. apply matchFull_is_Some.
Qed.

Lemma search_sound re s caps :
  search re s = Some caps →
  Forall2 fits re caps ∧ ∃ before after, s = before ++ concat caps ++ after.
Proof.
  induction s as [|c s IH]; simpl.
  - destruct (matchSeq re false []) eqn:Hm; [|done]. intros [= ->].
    apply matchSeq_sound in Hm as (? & rest & ? & _).
    split; [done|]. by exists [], rest.
  - destruct (matchSeq re false (c :: s)) eqn:Hm.
    + intros [= ->]. apply matchSeq_sound in Hm as (? & rest & ? & _).
      split; [done|]. by exists [], rest.
    + intros (? & before & after & ->)%IH. split; [done|].
      by exists (c :: before), after.
Qed.

Lemma search_unfold re s :
  search re s =
  match matchSeq re false s with
  | Some caps => Some caps
  | None => match s with [] => None | _ :: s' => search re s' end
  end.
Proof. by destruct s. Qed.

Lemma search_complete re caps before after :
  Forall2 fits re caps → is_Some (search re (before ++ concat caps ++ after)).
Proof.
  intros Hfits. induction before as [|c before IH].
  - rewrite search_unfold. simpl.
    destruct (matchSeq_complete re false caps after Hfits) as [x ->]; done.
  - rewrite search_unfold.
    destruct (matchSeq re false ((c :: before) ++ concat caps ++ after)); done.
Qed.

(** [search] returns the leftmost match. *)
Lemma search_leftmost re s caps :
  search re s = Some caps →
  Forall2 fits re caps ∧
  ∃ before after,
    s = before ++ concat caps ++ after ∧
    ∀ b r, s = b ++ r → length b < length before →
           matchSeq re false r = None.
Proof.
  induction s as [|c s IH]; rewrite search_unfold.
  - destruct (matchSeq re false []) eqn:Hm; [|done]. intros [= ->].
    apply matchSeq_sound in Hm as (? & rest & ? & _).
    split; [done|]. exists [], rest. split; [done|]. simpl; lia.
  - destruct (matchSeq re false (c :: s)) eqn:Hm.
    + intros [= ->]. apply matchSeq_sound in Hm as (? & rest & ? & _).
      split; [done|]. exists [], rest. split; [done|]. simpl; lia.
    + intros (? & before & after & -> & Hleft)%IH. split; [done|].
      exists (c :: before), after. split; [done|].
      intros [|c' b] r; simpl.
      * intros <- _. done.
      * intros [= <- E] Hlen. apply (Hleft b r E). lia.
Qed.

End RegexFacts.

(** ** The ASCII host is a host *)

Module AsciiHostFacts.
Import JS AsciiHost.

Lemma asciiUpper_upperAlnum s :
  forallb isUpperAlnum s = true → map asciiUpper s = s.
Proof.
  induction s as [|c s IH]; simpl; [done|].
  intros [Hc Hs]%andb_prop. rewrite IH by done. f_equal.
  unfold asciiUpper, isUpperAlnum, isUpper, isDigit, inRange in *.
  destruct (N.leb_spec 97 c), (N.leb_spec c 122); simpl; try done.
  destruct (N.leb_spec 65 c), (N.leb_spec c 90), (N.leb_spec 48 c),
    (N.leb_spec c 57); simpl in *; try done; lia.
Qed.

Definition asciiHost : Host :=
  {| toUpperCase := map asciiUpper;
     toLowerCase := map asciiLower;
     toUpperCase_upperAlnum := asciiUpper_upperAlnum |}.

End AsciiHostFacts.

(** ** The parser *)

Module ParserFacts.
Import JS Regex Spec TransactionParser JSFacts RegexFacts AsciiHostFacts.

Lemma fits_lit c w : fits (lit c) w ↔ w = [c].
Proof.
  unfold fits, lit; simpl. split.
  - intros (Hlo & Hhi & Hc). destruct w as [|d [|? ?]]; simpl in *; try lia.
    rewrite andb_true_r in Hc. by apply N.eqb_eq in Hc as ->.
  - intros ->. simpl. rewrite N.eqb_refl. split_and!; done.
Qed.

Lemma fits_exactly n cl w :
  fits (exactly n cl) w ↔ length w = n ∧ forallb cl w = true.
Proof. unfold fits, exactly; simpl. intuition lia. Qed.

Lemma fits_between a b cl w :
  fits (between a b cl) w ↔ (a ≤ length w ∧ length w ≤ b) ∧ forallb cl w = true.
Proof. unfold fits, between; simpl. tauto. Qed.

Lemma STRICT_PATTERN_atoms :
  STRICT_PATTERN =
  [lit 48; lit 49; lit 53; lit 50;
   exactly 8 isDigit; exactly 4 isUpperAlnum; between 3 5 isDigit].
Proof. reflexivity. Qed.

Lemma PARSE_PATTERN_atoms :
  PARSE_PATTERN =
  [lit 48; lit 49; lit 53; lit 50;
   exactly 2 isDigit; exactly 2 isDigit; exactly 2 isDigit; exactly 2 isDigit;
   exactly 4 isUpperAlnum; between 3 5 isDigit].
Proof. reflexivity. Qed.

Lemma KBANK_PREFIX_chars : KBANK_PREFIX = [48; 49; 53; 50]%N.
Proof. reflexivity. Qed.

(** Taking apart a list of pieces matched against a known pattern. *)
Ltac pieces H :=
  repeat match type of H with
  | Forall2 _ (_ :: _) _ =>
    let w := fresh "w" in let Hw := fresh "Hw" in
    apply Forall2_cons_inv_l in H as (w & ? & Hw & H & ->)
  | Forall2 _ [] _ => apply Forall2_nil_inv_l in H as ->
  end.

Lemma Grammar_length s yy hh mm ss ty sq :
  Grammar s yy hh mm ss ty sq → length s = 16 + length sq.
Proof.
  intros (-> & [? _] & [? _] & [? _] & [? _] & [? _] & _).
  rewrite !length_app. simpl. lia.
Qed.

(** The fixed widths leave one way only to cut an identifier. *)
Lemma Grammar_unique s yy hh mm ss ty sq yy' hh' mm' ss' ty' sq' :
  Grammar s yy hh mm ss ty sq → Grammar s yy' hh' mm' ss' ty' sq' →
  yy = yy' ∧ hh = hh' ∧ mm = mm' ∧ ss = ss' ∧ ty = ty' ∧ sq = sq'.
Proof.
  intros (-> & [? _] & [? _] & [? _] & [? _] & [? _] & _)
         (E & [? _] & [? _] & [? _] & [? _] & [? _] & _).
  apply app_inv_head in E.
  apply app_inj_1 in E as [-> E]; [|congruence].
  apply app_inj_1 in E as [-> E]; [|congruence].
  apply app_inj_1 in E as [-> E]; [|congruence].
  apply app_inj_1 in E as [-> E]; [|congruence].
  apply app_inj_1 in E as [-> E]; [|congruence].
  by subst.
Qed.

Lemma forallb_app_true {A} (f : A → bool) l1 l2 :
  forallb f (l1 ++ l2) = true ↔ forallb f l1 = true ∧ forallb f l2 = true.
Proof. by rewrite forallb_app, andb_true_iff. Qed.

Lemma PARSE_PATTERN_pieces s caps :
  matchFull PARSE_PATTERN s = Some caps →
  ∃ yy hh mm ss ty sq,
    caps = [[48]; [49]; [53]; [50]; yy; hh; mm; ss; ty; sq]%N ∧
    Grammar s yy hh mm ss ty sq.
Proof.
  intros [Hfits ->]%matchFull_sound. rewrite PARSE_PATTERN_atoms in Hfits.
  pieces Hfits.
  repeat match goal with
  | H : fits (lit _) _ |- _ => apply fits_lit in H as ->
  | H : fits (exactly _ _) _ |- _ => apply fits_exactly in H
  | H : fits (between _ _ _) _ |- _ => apply fits_between in H
  end.
  eexists _, _, _, _, _, _. split; [done|].
  split; [|done]. simpl. by rewrite app_nil_r.
Qed.

Lemma PARSE_PATTERN_match s yy hh mm ss ty sq :
  Grammar s yy hh mm ss ty sq →
  matchFull PARSE_PATTERN s
  = Some [[48]; [49]; [53]; [50]; yy; hh; mm; ss; ty; sq]%N.
Proof.
  intros HG.
  assert (is_Some (matchFull PARSE_PATTERN s)) as [caps Hcaps].
  { apply matchFull_is_Some.
    exists [[48]; [49]; [53]; [50]; yy; hh; mm; ss; ty; sq]%N.
    destruct HG as (-> & ? & ? & ? & ? & ? & ?).
    split; [|simpl; by rewrite app_nil_r].
    rewrite PARSE_PATTERN_atoms.
    repeat (constructor; [by apply fits_lit|]).
    repeat (constructor; [by apply fits_exactly|]).
    constructor; [by apply fits_between|].
    constructor. }
  rewrite Hcaps.
  apply PARSE_PATTERN_pieces in Hcaps as (?&?&?&?&?&?& -> & HG').
  destruct (Grammar_unique _ _ _ _ _ _ _ _ _ _ _ _ _ HG HG')
    as (-> & -> & -> & -> & -> & ->).
  done.
Qed.

(** The strict pattern is the grammar. *)
Lemma STRICT_PATTERN_Grammar s :
  test STRICT_PATTERN s = true ↔ ∃ yy hh mm ss ty sq, Grammar s yy hh mm ss ty sq.
Proof.
  rewrite test_true, STRICT_PATTERN_atoms. split.
  - intros (caps & Hfits & ->). pieces Hfits.
    repeat match goal with
    | H : fits (lit _) _ |- _ => apply fits_lit in H as ->
    | H : fits (exactly _ _) _ |- _ => apply fits_exactly in H as [? ?]
    | H : fits (between _ _ _) _ |- _ => apply fits_between in H
    end.
    match goal with
    | H : length ?w = 8, H' : forallb isDigit ?w = true |- _ =>
      rename w into d8; rename H into Hlen; rename H' into Hdig
    end.
    do 8 (destruct d8 as [|? d8]; [done|]). destruct d8; [|done].
    cbn [forallb] in Hdig. rewrite !andb_true_iff in Hdig.
    destruct Hdig as (? & ? & ? & ? & ? & ? & ? & ? & _).
    match goal with
    | |- context [[?a; ?b; ?c; ?d; ?e; ?f; ?g; ?h]] =>
      exists [a; b], [c; d], [e; f], [g; h]
    end.
    eexists _, _.
    unfold Grammar, digits, alphanumeric. cbn [forallb length].
    rewrite !andb_true_iff.
    split; [simpl; by rewrite app_nil_r|].
    split_and!; try done; tauto.
  - intros (yy & hh & mm & ss & ty & sq & -> & [? ?] & [? ?] & [? ?] & [? ?]
            & ? & ?).
    exists [[48]; [49]; [53]; [50]; yy ++ hh ++ mm ++ ss; ty; sq]%N.
    split; [|simpl; by rewrite app_nil_r, <- !app_assoc].
    repeat (constructor; [by apply fits_lit|]).
    constructor.
    { apply fits_exactly. rewrite !length_app, !forallb_app_true.
      unfold digits in *. split_and!; try done; lia. }
    constructor; [by apply fits_exactly|].
    constructor; [by apply fits_between|]. constructor.
Qed.

Section WithHost.
Context {host : Host}.

Lemma clean_empty : clean [] = [].
Proof. unfold clean. simpl. by apply toUpperCase_upperAlnum. Qed.

Lemma Grammar_nonempty s yy hh mm ss ty sq :
  Grammar s yy hh mm ss ty sq → s ≠ [].
Proof. intros ?%Grammar_length ->. simpl in *. lia. Qed.

(** What [parse] returns, and when. *)
Lemma parse_Some currentYear id p :
  parse currentYear id = Some p ↔
  (20 ≤ length (clean id) ∧ length (clean id) ≤ 21) ∧
  ∃ yy hh mm ss ty sq,
    Grammar (clean id) yy hh mm ss ty sq ∧
    Plausible currentYear yy hh mm ss ∧
    p = describe (clean id) yy hh mm ss ty sq.
Proof.
  unfold parse, MIN_LENGTH, MAX_LENGTH. split.
  - destruct (falsy id); [done|].
    destruct (startsWith KBANK_PREFIX (clean id)); [|done]. cbn [negb].
    destruct (Nat.ltb_spec (length (clean id)) 20); [done|].
    destruct (Nat.ltb_spec 21 (length (clean id))); [done|]. cbn [orb].
    destruct (test STRICT_PATTERN (clean id)); [|done]. cbn [negb].
    destruct (matchFull PARSE_PATTERN (clean id)) as [caps|] eqn:Hm; [|done].
    apply PARSE_PATTERN_pieces in Hm as (yy & hh & mm & ss & ty & sq & -> & HG).
    pose proof HG as (_ & [? ?] & [? ?] & [? ?] & [? ?] & _).
    rewrite !parseInt_digits by (done || by intros ->).
    unfold buildTimestamp. rewrite !parseInt_digits by (done || by intros ->).
    cbn [num_gtb num_ltb num_add].
    destruct (Z.ltb_spec 23 (decimal hh)); [done|].
    destruct (Z.ltb_spec 59 (decimal mm)); [done|].
    destruct (Z.ltb_spec 59 (decimal ss)); [done|]. cbn [orb].
    destruct (Z.ltb_spec (2470 + decimal yy) (currentYear - 5)); [done|].
    destruct (Z.ltb_spec (currentYear + 1) (2470 + decimal yy)); [done|].
    cbn [orb]. intros [= <-]. split; [lia|].
    exists yy, hh, mm, ss, ty, sq. split_and!; [done| |done].
    unfold Plausible. lia.
  - intros ([? ?] & yy & hh & mm & ss & ty & sq & HG & HP & ->).
    assert (falsy id = false) as ->.
    { destruct id; [|done]. apply Grammar_nonempty in HG.
      by rewrite clean_empty in HG. }
    assert (startsWith KBANK_PREFIX (clean id) = true) as ->.
    { apply startsWith_true. destruct HG as [-> _]. by eexists. }
    cbn [negb].
    destruct (Nat.ltb_spec (length (clean id)) 20); [lia|].
    destruct (Nat.ltb_spec 21 (length (clean id))); [lia|]. cbn [orb].
    assert (test STRICT_PATTERN (clean id) = true) as ->.
    { apply STRICT_PATTERN_Grammar. by eexists _, _, _, _, _, _. }
    cbn [negb]. rewrite (PARSE_PATTERN_match _ _ _ _ _ _ _ HG).
    pose proof HG as (_ & [? ?] & [? ?] & [? ?] & [? ?] & _).
    rewrite !parseInt_digits by (done || by intros ->).
    unfold buildTimestamp. rewrite !parseInt_digits by (done || by intros ->).
    cbn [num_gtb num_ltb num_add].
    destruct HP as (? & ? & ? & ? & ?).
    destruct (Z.ltb_spec 23 (decimal hh)); [lia|].
    destruct (Z.ltb_spec 59 (decimal mm)); [lia|].
    destruct (Z.ltb_spec 59 (decimal ss)); [lia|]. cbn [orb].
    destruct (Z.ltb_spec (2470 + decimal yy) (currentYear - 5)); [lia|].
    destruct (Z.ltb_spec (currentYear + 1) (2470 + decimal yy)); [lia|].
    done.
Qed.


(** *** Cleaning an identifier that is already clean *)

Lemma isUpperAlnum_not_space c : isUpperAlnum c = true → isWhiteSpace c = false.
Proof.
  unfold isUpperAlnum, isUpper, isDigit, isWhiteSpace, inRange.
  rewrite orb_true_iff, !andb_true_iff, !N.leb_le. intros Hc.
  repeat (apply orb_false_intro);
    try (apply andb_false_iff; rewrite !N.leb_gt; lia);
    apply N.eqb_neq; lia.
Qed.

Lemma isDigit_isUpperAlnum c : isDigit c = true → isUpperAlnum c = true.
Proof. unfold isUpperAlnum. intros ->. apply orb_true_r. Qed.

Lemma trimStart_id s :
  forallb (λ c, negb (isWhiteSpace c)) s = true → trimStart s = s.
Proof.
  destruct s as [|c s]; simpl; [done|].
  intros [Hc _]%andb_prop. by apply negb_true_iff in Hc as ->.
Qed.

Lemma trim_id s : forallb (λ c, negb (isWhiteSpace c)) s = true → trim s = s.
Proof.
  intros Hs. unfold trim. rewrite (trimStart_id s Hs), trimStart_id.
  - apply rev_involutive.
  - rewrite forallb_forall in *. intros c Hc. apply Hs. by apply in_rev.
Qed.

Lemma removeWhiteSpace_id s :
  forallb (λ c, negb (isWhiteSpace c)) s = true → removeWhiteSpace s = s.
Proof.
  unfold removeWhiteSpace. induction s as [|c s IH]; simpl; [done|].
  intros [Hc Hs]%andb_prop. apply negb_true_iff in Hc.
  rewrite filter_cons_True by done. by rewrite IH.
Qed.

Lemma clean_id s : forallb isUpperAlnum s = true → clean s = s.
Proof.
  intros Hs. unfold clean.
  assert (forallb (λ c, negb (isWhiteSpace c)) s = true) as Hns.
  { rewrite forallb_forall in *. intros c Hc.
    apply negb_true_iff, isUpperAlnum_not_space. by apply Hs. }
  rewrite trim_id, removeWhiteSpace_id by done.
  by apply toUpperCase_upperAlnum.
Qed.

Lemma Grammar_alphanumeric s yy hh mm ss ty sq :
  Grammar s yy hh mm ss ty sq → forallb isUpperAlnum s = true.
Proof.
  unfold digits, alphanumeric.
  intros (-> & [_ Hyy] & [_ Hhh] & [_ Hmm] & [_ Hss] & [_ Hty] & [_ Hsq]).
  assert (∀ w, forallb isDigit w = true → forallb isUpperAlnum w = true) as Hd.
  { intros w. rewrite !forallb_forall. intros Hw c Hc.
    by apply isDigit_isUpperAlnum, Hw. }
  rewrite !forallb_app_true. split_and!; auto.
Qed.

(** [parse] looks at its argument through [clean] only. *)
Lemma parse_ext currentYear a b :
  clean a = clean b → parse currentYear a = parse currentYear b.
Proof.
  intros E.
  assert (∀ p, parse currentYear a = Some p ↔ parse currentYear b = Some p) as Hp.
  { intros p. by rewrite !parse_Some, E. }
  destruct (parse currentYear a) as [p|].
  - symmetry. by apply Hp.
  - destruct (parse currentYear b) as [q|]; [|done].
    by specialize (proj2 (Hp q) eq_refl).
Qed.

Lemma parse_clean currentYear s :
  test STRICT_PATTERN (clean s) = true →
  parse currentYear (clean s) = parse currentYear s.
Proof.
  intros (yy & hh & mm & ss & ty & sq & HG)%STRICT_PATTERN_Grammar.
  apply parse_ext, clean_id. by eapply Grammar_alphanumeric.
Qed.

(** [isValid], with the inner call of [parse] on the cleaned identifier
    replaced by the call on the identifier itself. *)
Lemma isValid_unfold currentYear s :
  isValid currentYear s =
  if falsy s then Rejected Required else
  if negb (startsWith KBANK_PREFIX (clean s))
  then Rejected (InvalidPrefix (substring 0 4 (clean s))) else
  if (length (clean s) <? MIN_LENGTH) || (MAX_LENGTH <? length (clean s))
  then Rejected (InvalidLength (length (clean s))) else
  if negb (test STRICT_PATTERN (clean s)) then Rejected InvalidFormat else
  match parse currentYear s with
  | None => Rejected ParseFailed
  | Some p => Accepted p
  end.
Proof.
  unfold isValid.
  destruct (test STRICT_PATTERN (clean s)) eqn:Ht; [|done].
  by rewrite parse_clean.
Qed.

(** The validator accepts with the record that [parse] returns. *)
Lemma isValid_Accepted currentYear s p :
  isValid currentYear s = Accepted p ↔ parse currentYear s = Some p.
Proof.
  rewrite isValid_unfold. split.
  - repeat (match goal with |- context [if ?b then _ else _] => destruct b end;
            [done|]).
    destruct (parse currentYear s); [|done]. by intros [= ->].
  - intros Hp. pose proof Hp as Hp'. unfold parse in Hp'. rewrite Hp.
    repeat (match goal with
            | _ : context [if ?b then _ else _] |- _ => destruct b
            end; [done|]).
    done.
Qed.

(** C2, the part that holds for every string: [parse] returns a record
    exactly when [isValid] reports [valid: true]. *)
Lemma parse_iff_isValid currentYear s :
  is_Some (parse currentYear s) ↔ valid (isValid currentYear s) = true.
Proof.
  split.
  - intros [p Hp]. apply isValid_Accepted in Hp. by rewrite Hp.
  - destruct (isValid currentYear s) as [|p] eqn:Hv; [done|].
    intros _. exists p. by apply isValid_Accepted.
Qed.

(** C2, amended: for every non-empty string [s], [parse] returns a record
    exactly when [isValid] reports [valid: true], and when it reports
    [valid: false] the reason names the first failing check in the order
    prefix, length, pattern, semantic parse. *)
Theorem isValid_first_failing currentYear s :
  s ≠ [] →
  (is_Some (parse currentYear s) ↔ valid (isValid currentYear s) = true) ∧
  (valid (isValid currentYear s) = false →
   ∃ c, checkNamed (reason (isValid currentYear s)) = Some c ∧
        FirstFailing currentYear (clean s) c).
Proof.
  intros Hne. split; [apply parse_iff_isValid|].
  rewrite isValid_unfold. unfold MIN_LENGTH, MAX_LENGTH.
  destruct s as [|c0 s0]; [done|]. cbn [falsy]. set (s := c0 :: s0) in *.
  destruct (startsWith KBANK_PREFIX (clean s)) eqn:Hpre; cbn [negb].
  2:{ intros _. exists PrefixCheck. split; [done|]. split.
      - intros Hp%startsWith_true. congruence.
      - intros []; simpl; lia. }
  apply startsWith_true in Hpre.
  destruct (Nat.ltb_spec (length (clean s)) 20); cbn [orb].
  { intros _. exists LengthCheck. split; [done|]. split.
    - simpl. lia.
    - intros []; simpl; try lia. done. }
  destruct (Nat.ltb_spec 21 (length (clean s))).
  { intros _. exists LengthCheck. split; [done|]. split.
    - simpl. lia.
    - intros []; simpl; try lia. done. }
  assert (Passes currentYear LengthCheck (clean s)) as Hlen by (simpl; lia).
  destruct (test STRICT_PATTERN (clean s)) eqn:Ht; cbn [negb].
  2:{ intros _. exists PatternCheck. split; [done|]. split.
      - intros HG%STRICT_PATTERN_Grammar. congruence.
      - intros []; simpl; try lia; done. }
  apply STRICT_PATTERN_Grammar in Ht.
  destruct (parse currentYear s) as [p|] eqn:Hp; [done|].
  intros _. exists SemanticCheck. split; [done|]. split.
  - intros (yy & hh & mm & ss & ty & sq & HG & HP).
    assert (parse currentYear s
            = Some (describe (clean s) yy hh mm ss ty sq)) as Hq.
    { apply parse_Some. split; [lia|]. by exists yy, hh, mm, ss, ty, sq. }
    congruence.
  - intros []; simpl; try lia; done.
Qed.

(** The empty string is rejected as missing, before any of the four
    checks is made. *)
Lemma isValid_empty currentYear : isValid currentYear [] = Rejected Required.
Proof. done. Qed.

(** *** The risk scorer *)

(** The numeric fields of a parsed identifier are within their bounds. *)
Lemma parse_bounds currentYear id p :
  parse currentYear id = Some p →
  ∃ y h m s,
    year p = Num y ∧ hour p = Num h ∧ minute p = Num m ∧ second p = Num s ∧
    (currentYear - 5 ≤ y ∧ y ≤ currentYear + 1 ∧ h ≤ 23 ∧ m ≤ 59 ∧ s ≤ 59)%Z.
Proof.
  intros (_ & yy & hh & mm & ss & ty & sq & _ & HP & ->)%parse_Some.
  exists (2470 + decimal yy)%Z, (decimal hh), (decimal mm), (decimal ss).
  unfold Plausible in HP. simpl. split_and!; try done; lia.
Qed.

(** A parsed year is never beyond [currentYear + 1]. *)
Lemma parse_not_future currentYear id p :
  parse currentYear id = Some p → triggered currentYear p FutureYear = false.
Proof.
  intros (y & h & m & s & Hy & _ & _ & _ & Hb)%parse_bounds.
  simpl. rewrite Hy. simpl. apply Z.ltb_ge. lia.
Qed.

Lemma detectFakeSlip_Accepted currentYear id p :
  isValid currentYear id = Accepted p →
  detectFakeSlip currentYear id =
  let st :=
    overall (check4 p (check3 currentYear p (check2 p (check1 p start)))) in
  {| isSuspicious := 0 <? length (suspiciousReasons st);
     riskLevel := level st;
     reasons := suspiciousReasons st;
     recommendation := recommend (level st);
     assessed := Some p |}.
Proof. intros Hv. unfold detectFakeSlip. by rewrite Hv. Qed.

(** Unfolds the checks of one assessment and splits on their
    conditions; the future-year branch is closed by [Hf]. *)
Ltac assess p Hf :=
  unfold overall, check4, check3, check2, check1, start, flag;
  unfold triggered in Hf; rewrite ?Hf;
  destruct (isKnownType p), (Regex.repeatedDigit (sequence p)),
    (num_ltb (year p) _),
    (num_eqb (hour p) (Num 0) && num_eqb (minute p) (Num 0)
     && num_eqb (second p) (Num 0));
  cbn -[risk_le].

(** The assignments of the checks are plain: on a record with the
    time 00:00:00, check 4 sets MEDIUM over a HIGH left by check 3.
    The bound on the parsed year is what keeps check 3 from leaving
    one. *)
Remark check4_overwrites p reasons :
  hour p = Num 0 → minute p = Num 0 → second p = Num 0 →
  level (check4 p {| suspiciousReasons := reasons; level := HIGH |}) = MEDIUM.
Proof. intros Hh Hm Hs. unfold check4. by rewrite Hh, Hm, Hs. Qed.

(** C3: within one assessment of a structurally valid identifier the
    running risk level only escalates as the checks are applied in
    order, the last running level is the reported one, and an
    identifier that triggers every condition another one triggers is
    rated at least as high (so adding a triggering condition never
    lowers the level). *)
Theorem risk_only_escalates currentYear id p :
  isValid currentYear id = Accepted p →
  (∀ i a b, running currentYear p !! i = Some a →
            running currentYear p !! S i = Some b →
            risk_le (level a) (level b)) ∧
  level <$> last (running currentYear p)
    = Some (riskLevel (detectFakeSlip currentYear id)) ∧
  (∀ id' p',
     isValid currentYear id' = Accepted p' →
     (∀ c, triggered currentYear p c = true →
           triggered currentYear p' c = true) →
     risk_le (riskLevel (detectFakeSlip currentYear id))
             (riskLevel (detectFakeSlip currentYear id'))).
Proof.
  intros Hv. pose proof Hv as Hp. apply isValid_Accepted in Hp.
  pose proof (parse_not_future _ _ _ Hp) as Hf.
  rewrite (detectFakeSlip_Accepted _ _ _ Hv). split_and!.
  - intros i a b. unfold running. assess p Hf;
      (destruct i as [|[|[|[|[|[|?]]]]]]; simpl; try done;
       intros [= <-] [= <-]; unfold risk_le; simpl; lia).
  - unfold running. by assess p Hf.
  - intros id' p' Hv' Hsub. pose proof Hv' as Hp'.
    apply isValid_Accepted in Hp'.
    pose proof (parse_not_future _ _ _ Hp') as Hf'.
    rewrite (detectFakeSlip_Accepted _ _ _ Hv').
    pose proof (Hsub UnknownTypeCode) as H1.
    pose proof (Hsub RepeatedSequence) as H2.
    pose proof (Hsub StaleYear) as H3.
    pose proof (Hsub MidnightTime) as H4.
    simpl in H1, H2, H3, H4. clear Hsub.
    unfold overall, check4, check3, check2, check1, start, flag.
    unfold triggered in Hf, Hf'. rewrite ?Hf, ?Hf'.
    destruct (isKnownType p), (Regex.repeatedDigit (sequence p)),
      (num_ltb (year p) _),
      (num_eqb (hour p) (Num 0) && num_eqb (minute p) (Num 0)
       && num_eqb (second p) (Num 0));
      try rewrite (H1 eq_refl); try rewrite (H2 eq_refl);
      try rewrite (H3 eq_refl); try rewrite (H4 eq_refl);
    destruct (isKnownType p'), (Regex.repeatedDigit (sequence p')),
      (num_ltb (year p') _),
      (num_eqb (hour p') (Num 0) && num_eqb (minute p') (Num 0)
       && num_eqb (second p') (Num 0));
      try (specialize (H1 eq_refl)); try (specialize (H2 eq_refl));
      try (specialize (H3 eq_refl)); try (specialize (H4 eq_refl));
      try done; unfold risk_le; simpl; lia.
Qed.

(** C4: for a structurally valid identifier there is one reason for
    each triggered condition; three or more of them make the final
    level HIGH, whatever level the checks left (the final rule sets
    HIGH on every running state with three reasons), and fewer leave it
    below HIGH; the recommendation is a function of the final level:
    LOW accept, MEDIUM manual review, HIGH reject. *)
Theorem three_reasons_high currentYear id p :
  isValid currentYear id = Accepted p →
  let d := detectFakeSlip currentYear id in
  length (reasons d) = triggeredCount currentYear p ∧
  (3 ≤ triggeredCount currentYear p ↔ riskLevel d = HIGH) ∧
  (3 ≤ length (reasons d) →
   riskLevel d = HIGH ∧ recommendation d = RejectMultiple) ∧
  (∀ st, 3 ≤ length (suspiciousReasons st) → level (overall st) = HIGH) ∧
  recommendation d = recommendationFor (riskLevel d).
Proof.
  intros Hv. pose proof Hv as Hp. apply isValid_Accepted in Hp.
  pose proof (parse_not_future _ _ _ Hp) as Hf.
  rewrite (detectFakeSlip_Accepted _ _ _ Hv). cbn zeta.
  assert (∀ st, 3 ≤ length (suspiciousReasons st) → level (overall st) = HIGH)
    as Hfinal.
  { intros st Hst. unfold overall.
    destruct (Nat.ltb_spec 2 (length (suspiciousReasons st))); [done|lia]. }
  unfold triggeredCount, conditions. cbn [List.filter triggered].
  unfold overall, check4, check3, check2, check1, start, flag.
  unfold triggered in Hf. rewrite ?Hf.
  destruct (isKnownType p), (Regex.repeatedDigit (sequence p)),
    (num_ltb (year p) _),
    (num_eqb (hour p) (Num 0) && num_eqb (minute p) (Num 0)
     && num_eqb (second p) (Num 0));
    cbn; (split_and!; [done|split; (done || lia)|(done || lia)|done|done]).
Qed.

(** C10: with one current year for [parse] and [detectFakeSlip], the
    future-year branch of the scorer is unreachable: a parsed year is at
    most [currentYear + 1], and no assessment lists the reason
    'Transaction year ... is in the future'. *)
Theorem future_year_unreachable currentYear id :
  (∀ p, parse currentYear id = Some p →
        triggered currentYear p FutureYear = false) ∧
  (∀ y, YearFuture y ∉ reasons (detectFakeSlip currentYear id)).
Proof.
  split; [intros p; apply parse_not_future|].
  intros y. destruct (isValid currentYear id) as [why|p] eqn:Hv.
  - unfold detectFakeSlip. rewrite Hv. simpl.
    intros Hin%list_elem_of_singleton. done.
  - rewrite (detectFakeSlip_Accepted _ _ _ Hv).
    apply isValid_Accepted in Hv.
    pose proof (parse_not_future _ _ _ Hv) as Hf.
    assess p Hf; intros Hin;
      repeat (apply elem_of_cons in Hin as [Hin|Hin]; [done|]);
      by apply elem_of_nil in Hin.
Qed.

(** *** The timestamp cross-check *)

Lemma digits_without c w :
  isDigit c = false → digits w → forallb (λ d, negb (d =? c)%N) w = true.
Proof.
  unfold digits. rewrite !forallb_forall. intros Hc Hw d Hd.
  apply negb_true_iff, N.eqb_neq. intros ->.
  specialize (Hw _ Hd). congruence.
Qed.

(** Two texts cut at their first colon. *)
Lemma first_colon a b x y :
  forallb (λ c, negb (c =? 58)%N) a = true →
  forallb (λ c, negb (c =? 58)%N) b = true →
  a ++ 58%N :: x = b ++ 58%N :: y → a = b ∧ x = y.
Proof.
  revert b. induction a as [|c a IH]; intros [|d b]; simpl.
  - by intros _ _ [= ->].
  - intros _ [Hd _]%andb_prop [= <- _]. done.
  - intros [Hc _]%andb_prop _ [= -> _]. done.
  - intros [_ Ha]%andb_prop [_ Hb]%andb_prop [= -> E].
    by destruct (IH b Ha Hb E) as [-> ->].
Qed.

Lemma TIME_PATTERN_pieces caps :
  Forall2 fits TIME_PATTERN caps ↔
  ∃ h m, caps = [h; [58%N]; m] ∧
         (1 ≤ length h ∧ length h ≤ 2) ∧ digits h ∧ length m = 2 ∧ digits m.
Proof.
  unfold TIME_PATTERN, digits. split.
  - intros Hfits. pieces Hfits.
    repeat match goal with
    | H : fits (lit _) _ |- _ => apply fits_lit in H as ->
    | H : fits (exactly _ _) _ |- _ => apply fits_exactly in H as [? ?]
    | H : fits (between _ _ _) _ |- _ => apply fits_between in H as [? ?]
    end.
    by eexists _, _.
  - intros (h & m & -> & ? & ? & ? & ?).
    constructor; [by apply fits_between|].
    constructor; [by apply fits_lit|].
    constructor; [by apply fits_exactly|]. constructor.
Qed.

(** What the tolerant pattern extracts: the leftmost hour:minute pair,
    if there is one. *)
Lemma search_TIME_PATTERN t :
  match search TIME_PATTERN t with
  | Some caps =>
    ∃ before h m after,
      caps = [h; [58%N]; m] ∧ TimeAt t before h m after ∧
      ∀ before' h' m' after',
        TimeAt t before' h' m' after' → length before ≤ length before'
  | None => ¬ ∃ before h m after, TimeAt t before h m after
  end.
Proof.
  destruct (search TIME_PATTERN t) as [caps|] eqn:Hs.
  - apply search_leftmost in Hs as (Hfits & before & after & Ht & Hleft).
    apply TIME_PATTERN_pieces in Hfits as (h & m & -> & Hshape).
    exists before, h, m, after. split; [done|]. split.
    + split; [|done]. rewrite Ht. simpl. by rewrite app_nil_r, <- !app_assoc.
    + intros before' h' m' after' (Ht' & Hshape').
      destruct (Nat.le_gt_cases (length before) (length before')) as [|Hlt];
        [done|].
      specialize (Hleft _ _ Ht' Hlt).
      assert (is_Some (matchSeq TIME_PATTERN false
                         (concat [h'; [58%N]; m'] ++ after'))) as [x Hx].
      { apply matchSeq_complete; [|done].
        apply TIME_PATTERN_pieces. by exists h', m'. }
      simpl in Hx. rewrite app_nil_r, <- !app_assoc in Hx. simpl in Hx.
      simpl in Hleft. congruence.
  - intros (before & h & m & after & -> & Hshape).
    assert (is_Some (search TIME_PATTERN
                       (before ++ concat [h; [58%N]; m] ++ after))) as [x Hx].
    { apply search_complete, TIME_PATTERN_pieces. by exists h, m. }
    simpl in Hx. rewrite app_nil_r, <- !app_assoc in Hx. simpl in Hx.
    simpl in Hs. congruence.
Qed.

(** No year enters [dateMatch]: it only says whether a secondary text
    was given. *)
Lemma dateMatch_no_year currentYear id p t :
  parse currentYear id = Some p →
  dateMatch (verifyDateTime currentYear id t) = negb (falsy t).
Proof.
  intros Hp. unfold verifyDateTime. rewrite Hp. destruct (falsy t); [done|].
  by destruct (search TIME_PATTERN t) as [[|? [|? [|? ?]]]|].
Qed.

(** C5: when [parse] fails, [verifyDateTime] returns the fixed
    non-matching result ([valid: false], [timeMatch: false], message
    'Invalid transaction ID format') whatever the secondary text is;
    when [parse] succeeds and the text holds an hour:minute pair, the
    leftmost pair is extracted and [timeMatch] is true exactly when the
    parsed hour equals the extracted hour and the minutes differ by at
    most 2; [dateMatch] is true for every non-empty text and the same
    for every identifier that parses, whatever the years are. *)
Theorem verifyDateTime_policy currentYear id t :
  (parse currentYear id = None →
   verifyDateTime currentYear id t =
   {| dt_valid := false; message := BadId; dateMatch := false;
      timeMatch := false; transactionDateTime := None;
      ocrDateTime := None |}) ∧
  (∀ p, parse currentYear id = Some p →
     (t ≠ [] → dateMatch (verifyDateTime currentYear id t) = true) ∧
     (∀ id' p', parse currentYear id' = Some p' →
        dateMatch (verifyDateTime currentYear id' t)
        = dateMatch (verifyDateTime currentYear id t)) ∧
     ((∃ before h m after, TimeAt t before h m after) →
      ∃ before h m after,
        TimeAt t before h m after ∧
        (∀ before' h' m' after',
           TimeAt t before' h' m' after' → length before ≤ length before') ∧
        (timeMatch (verifyDateTime currentYear id t) = true ↔
         hour p = Num (decimal h) ∧
         ∃ mp, minute p = Num mp ∧ (Z.abs (mp - decimal m) ≤ 2)%Z)) ∧
     ((¬ ∃ before h m after, TimeAt t before h m after) →
      timeMatch (verifyDateTime currentYear id t) = false)).
Proof.
  split.
  - intros Hp. unfold verifyDateTime. by rewrite Hp.
  - intros p Hp.
    destruct (parse_bounds _ _ _ Hp) as (y & hp & mp & sp & _ & Hh & Hm & _).
    pose proof (search_TIME_PATTERN t) as Hsearch.
    split_and!.
    + intros Hne. rewrite (dateMatch_no_year _ _ _ _ Hp). by destruct t.
    + intros id' p' Hp'.
      by rewrite (dateMatch_no_year _ _ _ _ Hp), (dateMatch_no_year _ _ _ _ Hp').
    + intros (b0 & h0 & m0 & a0 & Hex).
      unfold verifyDateTime. rewrite Hp.
      assert (falsy t = false) as ->.
      { destruct Hex as [-> [[? _] _]]. destruct b0, h0; simpl in *; done || lia. }
      destruct (search TIME_PATTERN t) as [caps|]; [|by destruct Hsearch; eauto 6].
      destruct Hsearch as (before & h & m & after & -> & Hat & Hleft).
      exists before, h, m, after. split; [done|]. split; [done|].
      destruct Hat as (_ & [? ?] & ? & ? & ?).
      rewrite !parseInt_digits by (done || (intros ->; simpl in *; lia)).
      rewrite Hh, Hm. simpl.
      rewrite andb_true_iff, Z.eqb_eq, Z.leb_le. split.
      * intros [-> ?]. split; [done|]. by exists mp.
      * intros [[= ->] (mp' & [= <-] & ?)]. done.
    + intros Hno. unfold verifyDateTime. rewrite Hp.
      destruct (falsy t); [done|].
      destruct (search TIME_PATTERN t) as [caps|]; [|done].
      destruct Hsearch as (before & h & m & after & -> & Hat & _).
      destruct Hno. eauto 6.
Qed.

(** *** The scenario identifier 015298170819BQR02651 *)

Lemma scenario_Grammar :
  Grammar scenarioId (utf16 "98") (utf16 "17") (utf16 "08") (utf16 "19")
          (utf16 "BQR0") (utf16 "2651").
Proof. unfold Grammar, digits, alphanumeric. simpl. split_and!; done || lia. Qed.

Lemma scenario_clean : clean scenarioId = scenarioId.
Proof. by apply clean_id. Qed.

Lemma scenario_parse currentYear p :
  parse currentYear scenarioId = Some p → p = scenarioParsed.
Proof.
  intros (_ & yy & hh & mm & ss & ty & sq & HG & _ & ->)%parse_Some.
  rewrite scenario_clean in *.
  by destruct (Grammar_unique _ _ _ _ _ _ _ _ _ _ _ _ _ HG scenario_Grammar)
    as (-> & -> & -> & -> & -> & ->).
Qed.

(** The leftmost pair is the one the tolerant pattern extracts, and
    [timeMatch] compares it with the parsed hour and minute. *)
Lemma verifyDateTime_first currentYear id p t h m :
  parse currentYear id = Some p → FirstTime t h m →
  timeMatch (verifyDateTime currentYear id t)
  = num_eqb (hour p) (Num (decimal h))
    && num_leb (num_abs (num_sub (minute p) (Num (decimal m)))) (Num 2).
Proof.
  intros Hp (before & after & Hat & Hleft).
  pose proof (search_TIME_PATTERN t) as Hsearch.
  unfold verifyDateTime. rewrite Hp.
  assert (falsy t = false) as ->.
  { destruct Hat as [-> [[? _] _]]. destruct before, h; simpl in *; done || lia. }
  destruct (search TIME_PATTERN t) as [caps|]; [|by destruct Hsearch; eauto 6].
  destruct Hsearch as (before' & h' & m' & after' & -> & Hat' & Hleft').
  pose proof (Hleft _ _ _ _ Hat') as Hle. pose proof (Hleft' _ _ _ _ Hat) as Hge.
  destruct Hat as (Ht & [? ?] & Hh & Hm & Hdm).
  destruct Hat' as (Ht' & [? ?] & Hh' & Hm' & Hdm').
  rewrite Ht in Ht'. apply app_inj_1 in Ht' as [<- E]; [|lia].
  apply first_colon in E as [<- E]; [|by apply digits_without..].
  apply app_inj_1 in E as [<- _]; [|lia].
  by rewrite !parseInt_digits by (done || (intros ->; simpl in *; lia)).
Qed.

(** C6, amended: for every identifier whose parsed time is 17:08:19
    and every text, [verifyDateTime] compares the leftmost hour:minute
    pair of the text: [timeMatch] is true exactly when its hour is 17
    and its minute is 06 to 10.  So it is true when that pair is 17:08
    or 17:10 (two minutes away), and false when it is 17:11 (three
    minutes away) or 17:12. *)
Theorem time_cross_check_scenario currentYear id p t h m :
  parse currentYear id = Some p →
  time p = utf16 "17:08:19" →
  FirstTime t h m →
  let result := timeMatch (verifyDateTime currentYear id t) in
  (result = true ↔ decimal h = 17%Z ∧ (6 ≤ decimal m ≤ 10)%Z) ∧
  (h = utf16 "17" → m = utf16 "08" → result = true) ∧
  (h = utf16 "17" → m = utf16 "10" → result = true) ∧
  (h = utf16 "17" → m = utf16 "11" → result = false) ∧
  (h = utf16 "17" → m = utf16 "12" → result = false).
Proof.
  intros Hp Htime Hfirst. cbv zeta.
  rewrite (verifyDateTime_first _ _ _ _ _ _ Hp Hfirst).
  apply parse_Some in Hp
    as (_ & yy & hh & mm & ss & ty & sq & HG & _ & ->).
  destruct HG as (_ & _ & [? _] & [? _] & [? _] & _).
  cbn [time hour minute describe] in *.
  destruct hh as [|h1 [|h2 [|? ?]]]; try done.
  destruct mm as [|m1 [|m2 [|? ?]]]; try done.
  destruct ss as [|s1 [|s2 [|? ?]]]; try done.
  change (utf16 "17:08:19") with [49; 55; 58; 48; 56; 58; 49; 57]%N in Htime.
  injection Htime as -> -> -> -> -> ->.
  change (decimal [49; 55]%N) with 17%Z. change (decimal [48; 56]%N) with 8%Z.
  cbn [num_eqb num_sub num_abs num_leb].
  split_and!.
  - rewrite andb_true_iff, Z.eqb_eq, Z.leb_le. lia.
  - by intros -> ->.
  - by intros -> ->.
  - by intros -> ->.
  - by intros -> ->.
Qed.

End WithHost.

(** *** Concrete runs, on the ASCII host, in the year 2569 BE *)

#[local] Existing Instance asciiHost.

(** C2 fails on the empty string: [isValid] rejects it, the first
    failing check on its cleaned form is the prefix check, and the
    reason reported ('Transaction ID is required and must be a string')
    names none of the four checks. *)
Lemma isValid_empty_counterexample :
  valid (isValid 2569 []) = false ∧
  FirstFailing 2569 (clean []) PrefixCheck ∧
  ¬ ∃ c, checkNamed (reason (isValid 2569 [])) = Some c ∧
         FirstFailing 2569 (clean []) c.
Proof.
  split_and!.
  - reflexivity.
  - split.
    + intros [rest E]. vm_compute in E. discriminate.
    + intros [] Hc; simpl in Hc; lia.
  - intros (c & Hc & _). vm_compute in Hc. discriminate.
Qed.

Lemma isValid_first_failing_witness :
  utf16 "015398170819BQR02651" ≠ [] ∧
  (valid (isValid 2569 (utf16 "015398170819BQR02651")) = false →
   ∃ c, checkNamed (reason (isValid 2569 (utf16 "015398170819BQR02651")))
        = Some c ∧
        FirstFailing 2569 (clean (utf16 "015398170819BQR02651")) c).
Proof.
  assert (utf16 "015398170819BQR02651" ≠ []) as Hne by (by vm_compute).
  split; [exact Hne|].
  exact (proj2 (isValid_first_failing 2569 (utf16 "015398170819BQR02651") Hne)).
Defined.

Example wrong_prefix_reason :
  isValid 2569 (utf16 "015398170819BQR02651")
  = Rejected (InvalidPrefix (utf16 "0153")).
Proof. reflexivity. Qed.

Example scenario_accepted : isValid 2569 scenarioId = Accepted scenarioParsed.
Proof. vm_compute. reflexivity. Qed.

Lemma risk_only_escalates_witness :
  isValid 2569 scenarioId = Accepted scenarioParsed ∧
  level <$> last (running 2569 scenarioParsed)
    = Some (riskLevel (detectFakeSlip 2569 scenarioId)).
Proof.
  split; [exact scenario_accepted|].
  exact (proj1 (proj2 (risk_only_escalates 2569 scenarioId scenarioParsed
                         scenario_accepted))).
Defined.

Example suspect_accepted : isValid 2569 suspectId = Accepted suspectParsed.
Proof. vm_compute. reflexivity. Qed.

Example suspect_reasons :
  3 ≤ length (reasons (detectFakeSlip 2569 suspectId)).
Proof. vm_compute. lia. Qed.

Lemma three_reasons_high_witness :
  isValid 2569 suspectId = Accepted suspectParsed ∧
  3 ≤ length (reasons (detectFakeSlip 2569 suspectId)) ∧
  length (reasons (detectFakeSlip 2569 suspectId))
    = triggeredCount 2569 suspectParsed ∧
  riskLevel (detectFakeSlip 2569 suspectId) = HIGH ∧
  recommendation (detectFakeSlip 2569 suspectId) = RejectMultiple.
Proof.
  split; [exact suspect_accepted|]. split; [exact suspect_reasons|].
  pose proof (three_reasons_high 2569 suspectId suspectParsed suspect_accepted)
    as (Hcount & _ & Hthree & _).
  exact (conj Hcount (Hthree suspect_reasons)).
Defined.

Example three_reasons_example :
  let d := detectFakeSlip 2569 (utf16 "015298000000XXXX1111") in
  reasons d = [UnknownType (utf16 "XXXX"); RepetitiveSequence; Midnight] ∧
  riskLevel d = HIGH ∧ recommendation d = RejectMultiple.
Proof. vm_compute. done. Qed.

(** C6 fails at 17:11: the identifier parses with time 17:08:19, and
    against a text containing 17:11, three minutes away, [timeMatch] is
    false. *)
Lemma time_1711_counterexample :
  time <$> parse 2569 scenarioId = Some (utf16 "17:08:19") ∧
  timeMatch (verifyDateTime 2569 scenarioId (utf16 "17:11")) = false.
Proof. split; vm_compute; reflexivity. Qed.

Lemma scenario_parses : parse 2569 scenarioId = Some scenarioParsed.
Proof. vm_compute. reflexivity. Qed.

(** A slip text with a date before the time, and a text with an
    earlier hour:minute pair. *)
Lemma slip_text_first :
  FirstTime (utf16 "25 ต.ค. 68 17:08 น.") (utf16 "17") (utf16 "08") ∧
  FirstTime (utf16 "10:30 17:08") (utf16 "10") (utf16 "30").
Proof.
  split.
  - pose proof (search_TIME_PATTERN (utf16 "25 ต.ค. 68 17:08 น.")) as Hs.
    assert (search TIME_PATTERN (utf16 "25 ต.ค. 68 17:08 น.")
            = Some [utf16 "17"; [58%N]; utf16 "08"]) as E
      by (vm_compute; reflexivity).
    rewrite E in Hs. destruct Hs as (before & h & m & after & [= <- <-] & ?).
    by exists before, after.
  - pose proof (search_TIME_PATTERN (utf16 "10:30 17:08")) as Hs.
    assert (search TIME_PATTERN (utf16 "10:30 17:08")
            = Some [utf16 "10"; [58%N]; utf16 "30"]) as E
      by (vm_compute; reflexivity).
    rewrite E in Hs. destruct Hs as (before & h & m & after & [= <- <-] & ?).
    by exists before, after.
Qed.

Lemma time_cross_check_witness :
  parse 2569 scenarioId = Some scenarioParsed ∧
  time scenarioParsed = utf16 "17:08:19" ∧
  FirstTime (utf16 "25 ต.ค. 68 17:08 น.") (utf16 "17") (utf16 "08") ∧
  timeMatch (verifyDateTime 2569 scenarioId (utf16 "25 ต.ค. 68 17:08 น."))
  = true.
Proof.
  split; [exact scenario_parses|]. split; [reflexivity|].
  split; [exact (proj1 slip_text_first)|].
  exact (proj1 (proj2 (time_cross_check_scenario 2569 scenarioId scenarioParsed
                         (utf16 "25 ต.ค. 68 17:08 น.") (utf16 "17")
                         (utf16 "08") scenario_parses eq_refl
                         (proj1 slip_text_first)))
           eq_refl eq_refl).
Defined.

(** A text that contains 17:08 after another pair is compared on that
    other pair. *)
Example earlier_pair_compared :
  timeMatch (verifyDateTime 2569 scenarioId (utf16 "10:30 17:08")) = false ∧
  timeMatch (verifyDateTime 2569 scenarioId (utf16 "17:08 17:12")) = true.
Proof. vm_compute. done. Qed.

End ParserFacts.

(** ** Global replacement of a literal pattern *)

Module ReplaceFacts.
Import JS JSFacts.

Lemma replaceFrom_skip p r k s :
  replaceFrom p r k s = replaceFrom p r 0 (drop k s).
Proof.
  revert k. induction s as [|c s IH]; intros k.
  - by destruct k.
  - destruct k as [|k]; [done|]. simpl. apply IH.
Qed.

(** One step of the scan. *)
Lemma replaceAll_cons p r c s :
  p ≠ [] →
  replaceAll p r (c :: s) =
  if startsWith p (c :: s) then r ++ replaceAll p r (drop (length p) (c :: s))
  else c :: replaceAll p r s.
Proof.
  intros Hp. unfold replaceAll. cbn [replaceFrom].
  destruct (startsWith p (c :: s)); [|done].
  rewrite replaceFrom_skip. destruct p as [|a p]; [done|].
  simpl. by rewrite Nat.sub_0_r.
Qed.

Lemma includes_cons p c s :
  includes p (c :: s) = startsWith p (c :: s) || includes p s.
Proof. done. Qed.

Lemma includes_drop p k s : includes p s = false → includes p (drop k s) = false.
Proof.
  revert k. induction s as [|c s IH]; intros k Hs.
  - by destruct k.
  - destruct k as [|k]; [done|]. simpl drop. apply IH.
    rewrite includes_cons in Hs. by apply orb_false_elim in Hs as [_ ?].
Qed.

Lemma Apart_tail a q r : Apart (a :: q) r → Apart q r.
Proof. intros Hqr c Hc Hq. apply (Hqr c Hc). by right. Qed.

Lemma startsWith_head_apart q r x :
  q ≠ [] → r ≠ [] → Apart q r → startsWith q (r ++ x) = false.
Proof.
  intros Hq Hr Hqr. destruct q as [|a q]; [done|]. destruct r as [|b r]; [done|].
  simpl. destruct (N.eqb_spec a b) as [->|]; [|done].
  destruct (Hqr b); by left.
Qed.

(** A pattern that starts the output and shares no character with the
    replacement started the input already. *)
Lemma startsWith_replaceAll p r q s :
  p ≠ [] → r ≠ [] → q ≠ [] → Apart q r →
  startsWith q (replaceAll p r s) = true → startsWith q s = true.
Proof.
  intros Hp Hr. revert q. induction s as [|c s IH]; intros q Hq Hqr.
  - destruct q; [done|]. done.
  - rewrite replaceAll_cons by done.
    destruct (startsWith p (c :: s)).
    + by rewrite startsWith_head_apart.
    + destruct q as [|a q]; [done|]. simpl.
      intros [-> Hrest]%andb_prop. cbn [andb].
      destruct q as [|a' q]; [done|].
      apply IH; [done| |done]. by eapply Apart_tail.
Qed.

Lemma includes_app_apart q r x :
  q ≠ [] → Apart q r → includes q x = false → includes q (r ++ x) = false.
Proof.
  intros Hq Hqr Hx. induction r as [|b r IH]; [done|].
  cbn [app]. rewrite includes_cons.
  assert (startsWith q (b :: r ++ x) = false) as ->
    by (by apply (startsWith_head_apart q (b :: r) x)).
  cbn [orb].
  apply IH. intros c Hc. apply Hqr. by right.
Qed.

(** Replacing does not create occurrences of a pattern that shares no
    character with the replacement. *)
Lemma includes_replaceAll p r q s :
  p ≠ [] → r ≠ [] → q ≠ [] → Apart q r →
  includes q s = false → includes q (replaceAll p r s) = false.
Proof.
  intros Hp Hr Hq Hqr.
  remember (length s) as n eqn:Hn. assert (length s ≤ n) as Hle by lia.
  clear Hn. revert s Hle.
  induction n as [|n IH]; intros s Hle Hs.
  - destruct s; [done|]. simpl in Hle. lia.
  - destruct s as [|c s]; [done|]. rewrite replaceAll_cons by done.
    rewrite includes_cons in Hs. apply orb_false_elim in Hs as [Hhead Htail].
    destruct (startsWith p (c :: s)) eqn:Hpre.
    + apply includes_app_apart; [done..|]. apply IH.
      * rewrite length_drop. destruct p; [done|]. simpl in *. lia.
      * apply includes_drop. rewrite includes_cons. by rewrite Hhead, Htail.
    + rewrite includes_cons. apply orb_false_intro.
      * destruct (startsWith q (c :: replaceAll p r s)) eqn:Hq'; [|done].
        assert (startsWith q (replaceAll p r (c :: s)) = true) as Hout.
        { rewrite replaceAll_cons by done. by rewrite Hpre. }
        apply startsWith_replaceAll in Hout; [|done..]. congruence.
      * apply IH; [simpl in Hle; lia|done].
Qed.

(** After the replacement the pattern itself occurs no more. *)
Lemma includes_replaceAll_self p r s :
  p ≠ [] → r ≠ [] → Apart p r → includes p (replaceAll p r s) = false.
Proof.
  intros Hp Hr Hpr.
  remember (length s) as n eqn:Hn. assert (length s ≤ n) as Hle by lia.
  clear Hn. revert s Hle.
  induction n as [|n IH]; intros s Hle.
  - destruct s; [|simpl in Hle; lia]. by destruct p.
  - destruct s as [|c s]; [by destruct p|]. rewrite replaceAll_cons by done.
    destruct (startsWith p (c :: s)) eqn:Hpre.
    + apply includes_app_apart; [done..|]. apply IH.
      rewrite length_drop. destruct p; [done|]. simpl in *. lia.
    + rewrite includes_cons. apply orb_false_intro.
      * destruct (startsWith p (c :: replaceAll p r s)) eqn:Hq'; [|done].
        assert (startsWith p (replaceAll p r (c :: s)) = true) as Hout.
        { rewrite replaceAll_cons by done. by rewrite Hpre. }
        apply startsWith_replaceAll in Hout; [|done..]. congruence.
      * apply IH. simpl in Hle; lia.
Qed.

(** Without an occurrence nothing is replaced. *)
Lemma replaceAll_id p r s : includes p s = false → replaceAll p r s = s.
Proof.
  unfold replaceAll. induction s as [|c s IH]; [done|].
  rewrite includes_cons. intros [Hhead Htail]%orb_false_elim.
  cbn [replaceFrom]. rewrite Hhead. f_equal. by apply IH.
Qed.

(** An occurrence brings all the characters of the pattern. *)
Lemma includes_chars p s c : includes p s = true → c ∈ p → c ∈ s.
Proof.
  induction s as [|d s IH].
  - destruct p; [by intros _ ?%elem_of_nil|done].
  - rewrite includes_cons. intros [Hpre|Hin]%orb_prop Hc.
    + apply startsWith_true in Hpre as [rest ->].
      apply elem_of_app. by left.
    + right. by apply IH.
Qed.

End ReplaceFacts.

(** ** Text cleaning and identifier repair *)

Module OCRFacts.
Import JS Regex OCRService JSFacts ReplaceFacts AsciiHostFacts.

Lemma apartb_Apart q r : apartb q r = true → Apart q r.
Proof.
  unfold apartb, Apart. rewrite forallb_forall. intros Hqr c Hc Hq.
  apply list_elem_of_In in Hc. specialize (Hqr c Hc).
  apply negb_true_iff in Hqr.
  assert (existsb (N.eqb c) q = true) as Hex; [|congruence].
  apply existsb_exists. exists c. split; [by apply list_elem_of_In|].
  apply N.eqb_refl.
Qed.

Lemma separated_spec table e e' :
  separated table = true → e ∈ table → e' ∈ table →
  e.1 ≠ [] ∧ e.2 ≠ [] ∧ Apart e'.1 e.2.
Proof.
  unfold separated. rewrite forallb_forall.
  intros Hsep He%list_elem_of_In He'%list_elem_of_In.
  specialize (Hsep e He). rewrite !andb_true_iff, !negb_true_iff in Hsep.
  destruct Hsep as [[H1 H2] H3]. rewrite forallb_forall in H3.
  split_and!; [by destruct (e.1)|by destruct (e.2)|].
  by apply apartb_Apart, H3.
Qed.

(** A pass over part of a separated table leaves no occurrence of the
    patterns it went through. *)
Lemma applyFixes_removes table seen todo text :
  separated table = true →
  (∀ e, e ∈ seen ++ todo → e ∈ table) →
  (∀ e, e ∈ seen → includes e.1 text = false) →
  ∀ e, e ∈ seen ++ todo → includes e.1 (applyFixes todo text) = false.
Proof.
  intros Hsep. revert seen text.
  induction todo as [|d todo IH]; intros seen text Hsub Hseen e He.
  - rewrite app_nil_r in He. by apply Hseen.
  - cbn [applyFixes fold_left].
    change (includes e.1 (applyFixes todo (replaceAll d.1 d.2 text)) = false).
    assert (d ∈ table) as Hd.
    { apply Hsub, elem_of_app. right. by left. }
    apply (IH (seen ++ [d])).
    + intros x Hx. apply Hsub. by rewrite <- app_assoc in Hx.
    + intros x [Hx|Hx%list_elem_of_singleton]%elem_of_app.
      * assert (x ∈ table) as Hxt.
        { apply Hsub, elem_of_app. by left. }
        destruct (separated_spec table d x Hsep Hd Hxt) as (? & ? & ?).
        destruct (separated_spec table x x Hsep Hxt Hxt) as (? & _ & _).
        apply includes_replaceAll; [done..|]. by apply Hseen.
      * subst x.
        destruct (separated_spec table d d Hsep Hd Hd) as (? & ? & ?).
        by apply includes_replaceAll_self.
    + by rewrite <- app_assoc.
Qed.

(** A pass over a text without occurrences changes nothing. *)
Lemma applyFixes_id table text :
  (∀ e, e ∈ table → includes e.1 text = false) → applyFixes table text = text.
Proof.
  induction table as [|d table IH]; intros Hfree; [done|].
  cbn [applyFixes fold_left].
  change (applyFixes table (replaceAll d.1 d.2 text) = text).
  rewrite replaceAll_id by (apply Hfree; by left).
  apply IH. intros e He. apply Hfree. by right.
Qed.

Lemma applyFixes_idempotent table text :
  separated table = true →
  applyFixes table (applyFixes table text) = applyFixes table text.
Proof.
  intros Hsep. apply applyFixes_id. intros e He.
  apply (applyFixes_removes table [] table text Hsep); [done| |done].
  by intros ? ?%elem_of_nil.
Qed.

Lemma ocrFixes_separated : separated ocrFixes = true.
Proof. vm_compute. reflexivity. Qed.

(** Both tables are literal, which is what [replaceAll] models. *)
Lemma tables_literal :
  literalTable ocrFixes = true ∧ literalTable thaiToEnglish = true.
Proof. split; vm_compute; reflexivity. Qed.

(** C8: the character normalizer is idempotent: cleaning a cleaned text
    changes nothing. *)
Theorem cleanOCRText_idempotent text :
  cleanOCRText (cleanOCRText text) = cleanOCRText text.
Proof.
  unfold cleanOCRText. destruct (falsy text); [done|].
  destruct (falsy (applyFixes ocrFixes text)) eqn:Hout.
  - by destruct (applyFixes ocrFixes text).
  - apply applyFixes_idempotent, ocrFixes_separated.
Qed.

Example cleanOCRText_example :
  cleanOCRText (utf16 "015298175028/เว16903 ๑๒ บีคิวอาร์")
  = utf16 "015298175028APM16903 12 BQR".
Proof. vm_compute. reflexivity. Qed.

(** *** The repair function *)

Lemma thaiToEnglish_thai : thaiPatterns thaiToEnglish = true.
Proof. vm_compute. reflexivity. Qed.

Lemma removeThai_id s :
  forallb (λ c, negb (isThai c)) s = true → removeThai s = s.
Proof.
  unfold removeThai. induction s as [|c s IH]; simpl; [done|].
  intros [Hc Hs]%andb_prop. apply negb_true_iff in Hc.
  rewrite filter_cons_True by done. by rewrite IH.
Qed.

Section WithHost.
Context {host : Host}.

(** Without Thai characters the preliminary cleaning is the identity. *)
Lemma stripThai_id s :
  forallb (λ c, negb (isThai c)) s = true → stripThai s = s.
Proof.
  intros Hs. unfold stripThai. rewrite applyFixes_id; [by apply removeThai_id|].
  intros e He%list_elem_of_In.
  pose proof thaiToEnglish_thai as Ht. unfold thaiPatterns in Ht.
  rewrite forallb_forall in Ht. specialize (Ht e He).
  apply existsb_exists in Ht as (c & Hc%list_elem_of_In & Hthai).
  destruct (includes e.1 s) eqn:Hinc; [|done].
  pose proof (includes_chars _ _ c Hinc Hc) as Hcs%list_elem_of_In.
  rewrite forallb_forall in Hs. specialize (Hs c Hcs).
  by rewrite Hthai in Hs.
Qed.


End WithHost.

#[local] Existing Instance asciiHost.


Example repair_scenario :
  fixTransactionIdOCRErrors (utf16 "0152981708198QR802651")
  = utf16 "015298170819BQR02651".
Proof. vm_compute. reflexivity. Qed.

Example repair_thai_scenario :
  fixTransactionIdOCRErrors (utf16 "0152981708198ดู802651")
  = utf16 "015298170819BQR02651".
Proof. vm_compute. reflexivity. Qed.

End OCRFacts.

(** ** Slip validation *)

Module ValidationFacts.
Import JS ValidationService ParserFacts AsciiHostFacts.

Lemma additive_compose f g :
  additive f → additive g → additive (λ r, g (f r)).
Proof.
  intros Hf Hg r. destruct (Hf r) as (? & ? & ? & ?).
  destruct (Hg (f r)) as (-> & -> & -> & ->).
  destruct (Hg (f initial)) as (-> & -> & -> & ->).
  rewrite !app_assoc. split_and!; congruence || lia.
Qed.

(** Closes [additive f] once the conditions of [f] are split. *)
Ltac additive_branch :=
  intros ?; simpl; rewrite ?app_nil_r, <- ?app_assoc; split_and!; done || lia.

(** The authenticity block: 25 points at LOW, 15 and a warning at
    MEDIUM, none and a hard error at HIGH, out of a budget of 25. *)
Lemma authenticityStep_adds fake r :
  maxScore (authenticityStep fake r) = (maxScore r + 25)%Z ∧
  match TP.riskLevel fake with
  | TP.LOW =>
    score (authenticityStep fake r) = (score r + 25)%Z ∧
    errors (authenticityStep fake r) = errors r ∧
    warnings (authenticityStep fake r) = warnings r
  | TP.MEDIUM =>
    score (authenticityStep fake r) = (score r + 15)%Z ∧
    errors (authenticityStep fake r) = errors r ∧
    warnings (authenticityStep fake r)
      = warnings r ++ [SuspiciousIndicators (TP.reasons fake)]
  | TP.HIGH =>
    score (authenticityStep fake r) = score r ∧
    errors (authenticityStep fake r)
      = errors r ++ [HighRiskFakeSlip (TP.reasons fake)] ∧
    warnings (authenticityStep fake r) = warnings r
  end.
Proof. unfold authenticityStep. by destruct (TP.riskLevel fake). Qed.

Lemma amountStep_additive slipData expectedData :
  additive (amountStep slipData expectedData).
Proof.
  unfold amountStep.
  destruct (amount slipData) as [a|]; [|additive_branch].
  destruct (truthy a && PrimFloat.ltb 0 a); [|additive_branch].
  destruct (expectedAmount expectedData) as [e|]; [|additive_branch].
  destruct (truthy e); [|additive_branch].
  destruct (ac_valid (validateAmount a e)); additive_branch.
Qed.

Lemma amountStep_bounds slipData expectedData :
  let r := amountStep slipData expectedData initial in
  (0 ≤ score r ∧ score r ≤ maxScore r ∧ 20 ≤ maxScore r ∧ maxScore r ≤ 35)%Z.
Proof.
  unfold amountStep.
  destruct (amount slipData) as [a|]; [|simpl; lia].
  destruct (truthy a && PrimFloat.ltb 0 a); [|simpl; lia].
  destruct (expectedAmount expectedData) as [e|]; [|simpl; lia].
  destruct (truthy e); [|simpl; lia].
  destruct (ac_valid (validateAmount a e)); simpl; lia.
Qed.

Lemma confidenceStep_additive slipData : additive (confidenceStep slipData).
Proof.
  unfold confidenceStep.
  destruct (PrimFloat.leb 70 (ocrConfidence slipData)); [additive_branch|].
  destruct (PrimFloat.leb 50 (ocrConfidence slipData)); additive_branch.
Qed.

Lemma confidenceStep_bounds slipData :
  let r := confidenceStep slipData initial in
  (0 ≤ score r ∧ score r ≤ maxScore r ∧ maxScore r = 15)%Z.
Proof.
  unfold confidenceStep.
  destruct (PrimFloat.leb 70 (ocrConfidence slipData)); [simpl; lia|].
  destruct (PrimFloat.leb 50 (ocrConfidence slipData)); simpl; lia.
Qed.

Lemma legacyTimeStep_additive slipData p : additive (legacyTimeStep slipData p).
Proof.
  unfold legacyTimeStep.
  destruct (tc_valid (validateTime slipData p)); additive_branch.
Qed.

Lemma legacyTimeStep_bounds slipData p :
  let r := legacyTimeStep slipData p initial in
  (0 ≤ score r ∧ score r ≤ maxScore r ∧ maxScore r = 25)%Z.
Proof.
  unfold legacyTimeStep.
  destruct (tc_valid (validateTime slipData p)); simpl; lia.
Qed.

(** The exact threshold and its binary64 evaluation agree on every
    score the orchestrator can reach. *)
Lemma threshold_table :
  forallb (λ s, forallb (λ m,
      Bool.eqb (PrimFloat.leb 70 (percentage (Z.of_nat s) (Z.of_nat m)))
               (reaches70 (Z.of_nat s) (Z.of_nat m)))
    (seq 1 110)) (seq 0 111) = true.
Proof. vm_compute. reflexivity. Qed.

Lemma threshold_exact score maxScore :
  (0 ≤ score ≤ 110)%Z → (1 ≤ maxScore ≤ 110)%Z →
  PrimFloat.leb 70 (percentage score maxScore) = reaches70 score maxScore.
Proof.
  intros Hs Hm. pose proof threshold_table as Ht.
  rewrite forallb_forall in Ht.
  assert (In (Z.to_nat score) (seq 0 111)) as Hin by (apply in_seq; lia).
  specialize (Ht _ Hin). rewrite forallb_forall in Ht.
  assert (In (Z.to_nat maxScore) (seq 1 110)) as Hin' by (apply in_seq; lia).
  specialize (Ht _ Hin'). rewrite !Z2Nat.id in Ht by lia.
  by apply eqb_prop.
Qed.

Section WithHost.
Context {host : Host}.

Lemma timeStep_additive currentYear slipData p :
  additive (timeStep currentYear slipData p).
Proof.
  unfold timeStep.
  destruct (dateTime slipData) as [dt|]; [|apply legacyTimeStep_additive].
  destruct (falsy (rawOCR dt)); [apply legacyTimeStep_additive|]. cbn [negb].
  destruct (TP.dt_valid _); [additive_branch|].
  destruct (TP.dateMatch _), (TP.timeMatch _); additive_branch.
Qed.

Lemma timeStep_bounds currentYear slipData p :
  let r := timeStep currentYear slipData p initial in
  (0 ≤ score r ∧ score r ≤ maxScore r ∧ maxScore r = 25)%Z.
Proof.
  unfold timeStep.
  destruct (dateTime slipData) as [dt|]; [|apply legacyTimeStep_bounds].
  destruct (falsy (rawOCR dt)); [apply legacyTimeStep_bounds|]. cbn [negb].
  destruct (TP.dt_valid _); [simpl; lia|].
  destruct (TP.dateMatch _), (TP.timeMatch _); simpl; lia.
Qed.

Lemma recipientStep_additive slipData expectedData :
  additive (recipientStep slipData expectedData).
Proof.
  unfold recipientStep.
  destruct (negb (falsy (expectedRecipient expectedData))
            && negb (falsy (recipient slipData))); [|additive_branch].
  destruct (rc_valid _); additive_branch.
Qed.

Lemma recipientStep_bounds slipData expectedData :
  let r := recipientStep slipData expectedData initial in
  (0 ≤ score r ∧ score r ≤ maxScore r ∧ maxScore r ≤ 10)%Z.
Proof.
  unfold recipientStep.
  destruct (negb (falsy (expectedRecipient expectedData))
            && negb (falsy (recipient slipData))); [|simpl; lia].
  destruct (rc_valid _); simpl; lia.
Qed.

Lemma otherChecks_additive currentYear slipData expectedData p :
  additive (λ r, confidenceStep slipData
                   (recipientStep slipData expectedData
                      (amountStep slipData expectedData
                         (timeStep currentYear slipData p r)))).
Proof.
  apply (additive_compose
           (λ r, recipientStep slipData expectedData
                   (amountStep slipData expectedData
                      (timeStep currentYear slipData p r))));
    [|apply confidenceStep_additive].
  apply (additive_compose
           (λ r, amountStep slipData expectedData
                   (timeStep currentYear slipData p r)));
    [|apply recipientStep_additive].
  apply (additive_compose (timeStep currentYear slipData p));
    [apply timeStep_additive|apply amountStep_additive].
Qed.

Lemma otherChecks_bounds currentYear slipData expectedData p :
  let r := otherChecks currentYear slipData expectedData p in
  (0 ≤ score r ∧ score r ≤ maxScore r ∧ 60 ≤ maxScore r ∧ maxScore r ≤ 85)%Z.
Proof.
  unfold otherChecks.
  pose proof (timeStep_bounds currentYear slipData p) as Ht.
  pose proof (amountStep_bounds slipData expectedData) as Ha.
  pose proof (recipientStep_bounds slipData expectedData) as Hr.
  pose proof (confidenceStep_bounds slipData) as Hc.
  cbn zeta in *.
  set (t := timeStep currentYear slipData p initial) in *.
  destruct (amountStep_additive slipData expectedData t) as (Ea & Ea' & _ & _).
  set (a := amountStep slipData expectedData t) in *.
  destruct (recipientStep_additive slipData expectedData a) as (Er & Er' & _ & _).
  set (r := recipientStep slipData expectedData a) in *.
  destruct (confidenceStep_additive slipData r) as (Ec & Ec' & _ & _).
  lia.
Qed.

Lemma validateSlip_Accepted currentYear slipData expectedData p :
  success slipData = true →
  TP.isValid currentYear (transactionId slipData) = TP.Accepted p →
  validateSlip currentYear slipData expectedData =
  conclude
    (confidenceStep slipData
       (recipientStep slipData expectedData
          (amountStep slipData expectedData
             (timeStep currentYear slipData p
                (authenticityStep
                   (TP.detectFakeSlip currentYear (transactionId slipData))
                   (setTransactionInfo p initial)))))).
Proof.
  intros Hs Hv. unfold validateSlip. rewrite Hs, Hv. cbn [negb].
  destruct (transactionId slipData); [done|done].
Qed.

(** The verdict and the authenticity block of a slip that reaches the
    scoring. *)
Lemma validateSlip_scored currentYear slipData expectedData p :
  success slipData = true →
  TP.isValid currentYear (transactionId slipData) = TP.Accepted p →
  let r := validateSlip currentYear slipData expectedData in
  let fake := TP.detectFakeSlip currentYear (transactionId slipData) in
  let rest := otherChecks currentYear slipData expectedData p in
  (valid r = true ↔
   errors r = [] ∧ (0 < maxScore r ∧ 70 * maxScore r ≤ 100 * score r)%Z) ∧
  maxScore r = (25 + maxScore rest)%Z ∧
  match TP.riskLevel fake with
  | TP.LOW =>
    score r = (25 + score rest)%Z ∧
    errors r = errors rest ∧ warnings r = warnings rest
  | TP.MEDIUM =>
    score r = (15 + score rest)%Z ∧
    errors r = errors rest ∧
    warnings r = SuspiciousIndicators (TP.reasons fake) :: warnings rest
  | TP.HIGH =>
    score r = score rest ∧
    errors r = HighRiskFakeSlip (TP.reasons fake) :: errors rest ∧
    warnings r = warnings rest ∧
    valid r = false
  end.
Proof.
  intros Hs Hv. cbn zeta.
  rewrite (validateSlip_Accepted _ _ _ _ Hs Hv).
  set (fake := TP.detectFakeSlip currentYear (transactionId slipData)).
  pose proof (authenticityStep_adds fake (setTransactionInfo p initial))
    as [Hmax Hauth].
  set (a := authenticityStep fake (setTransactionInfo p initial)) in *.
  destruct (otherChecks_additive currentYear slipData expectedData p a)
    as (Escore & Emax & Eerr & Ewarn).
  pose proof (otherChecks_bounds currentYear slipData expectedData p) as Hb.
  cbn zeta in Hb. fold (otherChecks currentYear slipData expectedData p) in *.
  set (rest := otherChecks currentYear slipData expectedData p) in *.
  set (final := confidenceStep _ _) in *.
  change (score (conclude final)) with (score final).
  change (maxScore (conclude final)) with (maxScore final).
  change (errors (conclude final)) with (errors final).
  change (warnings (conclude final)) with (warnings final).
  change (valid (conclude final))
    with (bool_decide (length (errors final) = 0)
          && PrimFloat.leb 70 (percentage (score final) (maxScore final))).
  simpl in Hmax.
  assert ((0 ≤ score final ≤ 110)%Z ∧ (1 ≤ maxScore final ≤ 110)%Z)
    as [Hsb Hmb].
  { destruct (TP.riskLevel fake); simpl in Hauth;
      destruct Hauth as (? & ? & ?); lia. }
  rewrite (threshold_exact _ _ Hsb Hmb). unfold reaches70.
  split_and!.
  - rewrite andb_true_iff, bool_decide_eq_true, andb_true_iff,
      Z.ltb_lt, Z.leb_le.
    split; (intros [He ?]; split; [|done]).
    + by destruct (errors final).
    + by rewrite He.
  - lia.
  - destruct (TP.riskLevel fake); simpl in Hauth;
      destruct Hauth as (Hsc & Her & Hwa);
      rewrite Escore, Eerr, Ewarn, Hsc, Her, Hwa; split_and!; try done; lia.
Qed.

(** C7: [validateSlip] returns [valid: true] exactly when the list of
    errors is empty and score / maxScore is at least 70 %; for a slip
    whose transaction ID is structurally valid, the authenticity check
    has a budget of 25 points, of which LOW earns 25, MEDIUM earns 15
    and a warning, and HIGH earns none and appends a hard error (so the
    slip is rejected); [otherChecks] is what the other checks score by
    themselves. *)
Theorem validateSlip_verdict currentYear slipData expectedData :
  let r := validateSlip currentYear slipData expectedData in
  (valid r = true ↔
   errors r = [] ∧ (0 < maxScore r ∧ 70 * maxScore r ≤ 100 * score r)%Z) ∧
  (∀ p,
     success slipData = true →
     TP.isValid currentYear (transactionId slipData) = TP.Accepted p →
     let fake := TP.detectFakeSlip currentYear (transactionId slipData) in
     let rest := otherChecks currentYear slipData expectedData p in
     maxScore r = (25 + maxScore rest)%Z ∧
     match TP.riskLevel fake with
     | TP.LOW =>
       score r = (25 + score rest)%Z ∧
       errors r = errors rest ∧ warnings r = warnings rest
     | TP.MEDIUM =>
       score r = (15 + score rest)%Z ∧
       errors r = errors rest ∧
       warnings r = SuspiciousIndicators (TP.reasons fake) :: warnings rest
     | TP.HIGH =>
       score r = score rest ∧
       errors r = HighRiskFakeSlip (TP.reasons fake) :: errors rest ∧
       warnings r = warnings rest ∧
       valid r = false
     end).
Proof.
  cbn zeta. split.
  - destruct (success slipData) eqn:Hs.
    2:{ unfold validateSlip. rewrite Hs. simpl. split; [done|]. by intros [? _]. }
    destruct (TP.isValid currentYear (transactionId slipData)) as [why|p] eqn:Hv.
    + unfold validateSlip. rewrite Hs, Hv. cbn [negb].
      destruct (falsy (transactionId slipData)); simpl;
        (split; [done|]); by intros [? _].
    + apply (validateSlip_scored _ _ expectedData _ Hs Hv).
  - intros p Hs Hv.
    apply (validateSlip_scored _ _ expectedData _ Hs Hv).
Qed.

End WithHost.

#[local] Existing Instance asciiHost.

Example mock_accepted :
  TP.isValid 2569 (transactionId mockSlipData) = TP.Accepted Spec.scenarioParsed.
Proof. vm_compute. reflexivity. Qed.

Example mock_result :
  let r := validateSlip 2569 mockSlipData mockExpected in
  valid r = true ∧ score r = 110%Z ∧ maxScore r = 110%Z ∧ errors r = [].
Proof. vm_compute. done. Qed.

End ValidationFacts.

(** ** More on the parser: the decoded record, white space, reasons *)

Module RecordFacts.
Import JS Regex Spec TransactionParser JSFacts RegexFacts AsciiHostFacts
       ParserFacts.

Lemma decimal_from_nonneg w acc :
  (0 ≤ acc)%Z → forallb isDigit w = true →
  (0 ≤ fold_left (λ acc c, 10 * acc + (Z.of_N c - 48)) w acc)%Z.
Proof.
  revert acc. induction w as [|c w IH]; intros acc Hacc; simpl; [done|].
  intros [Hc Hw]%andb_prop. apply IH; [|done].
  apply isDigit_bounds in Hc. lia.
Qed.

Lemma decimal_nonneg w : forallb isDigit w = true → (0 ≤ decimal w)%Z.
Proof. by apply decimal_from_nonneg. Qed.

Lemma filter_rev {A} (P : A → Prop) `{∀ x, Decision (P x)} (l : list A) :
  filter P (rev l) = rev (filter P l).
Proof.
  induction l as [|x l IH]; [done|]. simpl rev.
  rewrite filter_app, IH.
  destruct (decide (P x)).
  - rewrite (filter_cons_True P x l), (filter_cons_True P x []) by done.
    by rewrite filter_nil.
  - rewrite (filter_cons_False P x l), (filter_cons_False P x []) by done.
    by rewrite filter_nil, app_nil_r.
Qed.

Lemma removeWhiteSpace_trimStart s :
  removeWhiteSpace (trimStart s) = removeWhiteSpace s.
Proof.
  unfold removeWhiteSpace. induction s as [|c s IH]; [done|]. simpl.
  destruct (isWhiteSpace c) eqn:Hc; [|done].
  rewrite IH, filter_cons_False; [done|]. by rewrite Hc.
Qed.

(** Trimming removes white space only. *)
Lemma removeWhiteSpace_trim s : removeWhiteSpace (trim s) = removeWhiteSpace s.
Proof.
  unfold trim, removeWhiteSpace. rewrite filter_rev.
  fold (removeWhiteSpace (trimStart (rev (trimStart s)))).
  rewrite removeWhiteSpace_trimStart. unfold removeWhiteSpace.
  rewrite filter_rev, rev_involutive.
  apply removeWhiteSpace_trimStart.
Qed.

Lemma dictionary_descriptions ty d :
  transactionTypes !! ty = Some d → falsy d = false.
Proof.
  intros Hd. apply elem_of_list_to_map_2 in Hd.
  repeat (apply elem_of_cons in Hd as [[= -> ->]|Hd]; [done|]).
  by apply elem_of_nil in Hd.
Qed.

Section WithHost.
Context {host : Host}.

Lemma parse_type_length currentYear id p :
  parse currentYear id = Some p → length (type p) = 4.
Proof.
  intros (_ & yy & hh & mm & ss & ty & sq & HG & _ & ->)%parse_Some.
  by destruct HG as (_ & _ & _ & _ & _ & [? _] & _).
Qed.

Lemma parse_description currentYear id p :
  parse currentYear id = Some p → typeDescription p ≠ [].
Proof.
  intros (_ & yy & hh & mm & ss & ty & sq & _ & _ & ->)%parse_Some. simpl.
  destruct (transactionTypes !! ty) as [d|] eqn:Hd; [|done].
  rewrite (dictionary_descriptions _ _ Hd). intros ->.
  by apply dictionary_descriptions in Hd.
Qed.

(** X1: a record returned by [parse] is the decoding of its [raw]
    field: [raw] is the cleaned input, 20 or 21 characters long, and is
    the concatenation prefix, year code, hour, minute, second, type
    code, sequence; the numeric fields are the values of those digits,
    within 0..23, 0..59, 0..59, and the year is 2470 plus the year code,
    within [currentYear - 5, currentYear + 1]; the type code has four
    characters and the sequence four or five digits; the description is
    never empty. *)
Theorem parse_decodes_raw currentYear id p :
  parse currentYear id = Some p →
  raw p = clean id ∧ idLength p = length (raw p) ∧
  (idLength p = 20 ∨ idLength p = 21) ∧
  prefix p = KBANK_PREFIX ∧
  ∃ hh mm ss y h m s,
    raw p = prefix p ++ yearCode p ++ hh ++ mm ++ ss ++ type p ++ sequence p ∧
    time p = hh ++ [58%N] ++ mm ++ [58%N] ++ ss ∧
    length (yearCode p) = 2 ∧ length hh = 2 ∧ length mm = 2 ∧ length ss = 2 ∧
    length (type p) = 4 ∧
    (length (sequence p) = 4 ∨ length (sequence p) = 5) ∧
    y = decimal (yearCode p) ∧ h = decimal hh ∧ m = decimal mm ∧
    s = decimal ss ∧
    year p = Num (2470 + y) ∧ hour p = Num h ∧ minute p = Num m ∧
    second p = Num s ∧
    timestamp p = {| ts_year := year p; ts_hour := hour p;
                     ts_minute := minute p; ts_second := second p |} ∧
    (0 ≤ y ∧ y ≤ 99 ∧ 0 ≤ h ∧ h ≤ 23 ∧ 0 ≤ m ∧ m ≤ 59 ∧ 0 ≤ s ∧ s ≤ 59 ∧
     currentYear - 5 ≤ 2470 + y ∧ 2470 + y ≤ currentYear + 1)%Z ∧
    typeDescription p ≠ [].
Proof.
  intros ([? ?] & yy & hh & mm & ss & ty & sq & HG & HP & ->)%parse_Some.
  pose proof (Grammar_length _ _ _ _ _ _ _ HG) as Hlen.
  destruct HG as (Hraw & [? Hyy] & [? Hhh] & [? Hmm] & [? Hss] & [? _]
                  & [[? ?] _]).
  destruct HP as (? & ? & ? & ? & ?).
  pose proof (decimal_nonneg _ Hyy). pose proof (decimal_nonneg _ Hhh).
  pose proof (decimal_nonneg _ Hmm). pose proof (decimal_nonneg _ Hss).
  assert (decimal yy ≤ 99)%Z.
  { destruct yy as [|a [|b [|? ?]]]; try done.
    unfold digits in Hyy. cbn [forallb] in Hyy.
    rewrite !andb_true_iff, !isDigit_bounds in Hyy.
    unfold decimal. simpl. lia. }
  simpl. split_and!; [done|done|lia|done|].
  exists hh, mm, ss, (decimal yy), (decimal hh), (decimal mm), (decimal ss).
  split_and!; try done; try lia.
  destruct (transactionTypes !! ty) as [d|] eqn:Hd; [|done].
  rewrite (dictionary_descriptions _ _ Hd). intros ->.
  by apply dictionary_descriptions in Hd.
Qed.

(** X2: parsing the [raw] field of a parsed record gives the record
    back. *)
Theorem parse_raw_round_trip currentYear id p :
  parse currentYear id = Some p → parse currentYear (raw p) = Some p.
Proof.
  intros Hp. pose proof Hp as Hq.
  apply parse_Some in Hq as (_ & yy & hh & mm & ss & ty & sq & HG & _ & ->).
  simpl. rewrite <- Hp. apply parse_ext, clean_id.
  by eapply Grammar_alphanumeric.
Qed.

(** X3: white space anywhere in the identifier is ignored: two
    strings that are equal once their white space is removed are parsed
    alike, and validated alike. *)
Theorem parse_ignores_white_space currentYear a b :
  removeWhiteSpace a = removeWhiteSpace b →
  parse currentYear a = parse currentYear b ∧
  isValidQuick currentYear a = isValidQuick currentYear b.
Proof.
  intros E.
  assert (parse currentYear a = parse currentYear b) as Hp.
  { apply parse_ext. unfold clean.
    by rewrite !removeWhiteSpace_trim, E. }
  split; [done|]. unfold isValidQuick.
  pose proof (parse_iff_isValid currentYear a) as Ha.
  pose proof (parse_iff_isValid currentYear b) as Hb.
  rewrite Hp in Ha.
  destruct (valid (isValid currentYear a)), (valid (isValid currentYear b));
    try done.
  - destruct Ha as [_ Ha]. specialize (Ha eq_refl). by apply Hb in Ha.
  - destruct Hb as [_ Hb]. specialize (Hb eq_refl). by apply Ha in Hb.
Qed.

(** X4: for a structurally valid identifier the reasons are those of
    the triggered conditions, in the order unknown type, repetitive
    sequence, stale year (a year more than two years before the current
    one: [year < currentYear - 2]), midnight; there are at most four, and their
    number decides the level: none LOW, one or two MEDIUM, three or
    four HIGH; the slip is suspicious exactly when the level is not
    LOW. *)
Theorem reasons_decide_risk currentYear id p :
  isValid currentYear id = Accepted p →
  let d := detectFakeSlip currentYear id in
  reasons d =
    (if triggered currentYear p UnknownTypeCode
     then [UnknownType (type p)] else [])
    ++ (if triggered currentYear p RepeatedSequence
        then [RepetitiveSequence] else [])
    ++ (if triggered currentYear p StaleYear then [YearOlder (year p)] else [])
    ++ (if triggered currentYear p MidnightTime then [Midnight] else []) ∧
  length (reasons d) ≤ 4 ∧
  (riskLevel d = LOW ↔ length (reasons d) = 0) ∧
  (riskLevel d = MEDIUM ↔ 1 ≤ length (reasons d) ∧ length (reasons d) ≤ 2) ∧
  (riskLevel d = HIGH ↔ 3 ≤ length (reasons d)) ∧
  (isSuspicious d = true ↔ riskLevel d ≠ LOW) ∧
  assessed d = Some p.
Proof.
  intros Hv. pose proof Hv as Hp. apply isValid_Accepted in Hp.
  pose proof (parse_not_future _ _ _ Hp) as Hf.
  rewrite (detectFakeSlip_Accepted _ _ _ Hv). cbn zeta.
  unfold triggered at 1 2 3 4.
  unfold overall, check4, check3, check2, check1, start, flag.
  unfold triggered in Hf. rewrite ?Hf.
  destruct (isKnownType p), (Regex.repeatedDigit (sequence p)),
    (num_ltb (year p) _),
    (num_eqb (hour p) (Num 0) && num_eqb (minute p) (Num 0)
     && num_eqb (second p) (Num 0));
    cbn; split_and!; try done; try lia; split; (done || lia).
Qed.

End WithHost.

#[local] Existing Instance asciiHost.

Lemma parse_decodes_raw_witness :
  parse 2569 scenarioId = Some scenarioParsed ∧
  raw scenarioParsed = clean scenarioId ∧
  (idLength scenarioParsed = 20 ∨ idLength scenarioParsed = 21).
Proof.
  split; [exact scenario_parses|].
  pose proof (parse_decodes_raw 2569 scenarioId scenarioParsed scenario_parses)
    as (Hraw & _ & Hlen & _).
  exact (conj Hraw Hlen).
Defined.

Lemma parse_raw_round_trip_witness :
  parse 2569 scenarioId = Some scenarioParsed ∧
  parse 2569 (raw scenarioParsed) = Some scenarioParsed.
Proof.
  split; [exact scenario_parses|].
  exact (parse_raw_round_trip 2569 scenarioId scenarioParsed scenario_parses).
Defined.

Lemma spaced_scenario :
  removeWhiteSpace (utf16 " 0152 9817 0819 BQR0 2651 ")
  = removeWhiteSpace scenarioId.
Proof. vm_compute. reflexivity. Qed.

Lemma parse_ignores_white_space_witness :
  removeWhiteSpace (utf16 " 0152 9817 0819 BQR0 2651 ")
  = removeWhiteSpace scenarioId ∧
  parse 2569 (utf16 " 0152 9817 0819 BQR0 2651 ") = parse 2569 scenarioId.
Proof.
  split; [exact spaced_scenario|].
  exact (proj1 (parse_ignores_white_space 2569 _ _ spaced_scenario)).
Defined.

Lemma reasons_decide_risk_witness :
  isValid 2569 scenarioId = Accepted scenarioParsed ∧
  length (reasons (detectFakeSlip 2569 scenarioId)) ≤ 4 ∧
  assessed (detectFakeSlip 2569 scenarioId) = Some scenarioParsed.
Proof.
  split; [exact scenario_accepted|].
  pose proof (reasons_decide_risk 2569 scenarioId scenarioParsed
                scenario_accepted) as (_ & Hlen & _ & _ & _ & _ & Hp).
  exact (conj Hlen Hp).
Defined.

End RecordFacts.

(** ** More on the services: wrappers, hard errors, scores, time checks *)

Module ServiceFacts.
Import JS Regex Spec ValidationService JSFacts RegexFacts ParserFacts
       RecordFacts ValidationFacts AsciiHostFacts.

Lemma amountStep_budget slipData expectedData :
  let r := amountStep slipData expectedData initial in
  (maxScore r = 20 ∨ maxScore r = 35)%Z ∧
  (errors r = [] ↔ amountConsistent slipData expectedData = true).
Proof.
  unfold amountStep, amountConsistent.
  destruct (amount slipData) as [a|]; [|simpl; split; [lia|done]].
  destruct (truthy a && PrimFloat.ltb 0 a); [|simpl; split; [lia|]].
  - destruct (expectedAmount expectedData) as [e|]; [|simpl; split; [lia|done]].
    destruct (truthy e); [|simpl; split; [lia|done]].
    destruct (ac_valid (validateAmount a e)); simpl; (split; [lia|done]).
  - by destruct (expectedAmount expectedData).
Qed.

Lemma confidenceStep_errors slipData :
  errors (confidenceStep slipData initial) = [].
Proof.
  unfold confidenceStep.
  destruct (PrimFloat.leb 70 (ocrConfidence slipData)); [done|].
  by destruct (PrimFloat.leb 50 (ocrConfidence slipData)).
Qed.

Section WithHost.
Context {host : Host}.

Lemma recipientStep_budget slipData expectedData :
  let r := recipientStep slipData expectedData initial in
  (maxScore r = 0 ∨ maxScore r = 10)%Z ∧ errors r = [].
Proof.
  unfold recipientStep.
  destruct (negb (falsy (expectedRecipient expectedData))
            && negb (falsy (recipient slipData))); [|simpl; split; [lia|done]].
  destruct (rc_valid _); simpl; (split; [lia|done]).
Qed.

Lemma legacyTimeStep_errors slipData p :
  errors (legacyTimeStep slipData p initial) = [] ↔
  tc_valid (validateTime slipData p) = true.
Proof.
  unfold legacyTimeStep. by destruct (tc_valid (validateTime slipData p)).
Qed.

Lemma timeStep_errors currentYear slipData p :
  errors (timeStep currentYear slipData p initial) = [] ↔
  timeConsistent currentYear slipData p = true.
Proof.
  unfold timeStep, timeConsistent.
  destruct (dateTime slipData) as [dt|]; [|apply legacyTimeStep_errors].
  destruct (falsy (rawOCR dt)) eqn:Hraw; cbn [negb];
    [apply legacyTimeStep_errors|].
  set (v := TP.verifyDateTime _ _ _).
  assert (TP.dt_valid v = TP.dateMatch v && TP.timeMatch v) as Hv.
  { unfold v, TP.verifyDateTime.
    destruct (TP.parse currentYear (transactionId slipData)); [|done].
    rewrite Hraw.
    by destruct (search TP.TIME_PATTERN (rawOCR dt)) as [[|? [|? [|? ?]]]|]. }
  rewrite Hv.
  by destruct (TP.dateMatch v), (TP.timeMatch v).
Qed.

(** The errors and the budget of the checks that follow the
    authenticity check. *)
Lemma otherChecks_budget currentYear slipData expectedData p :
  let r := otherChecks currentYear slipData expectedData p in
  (maxScore r = 60 ∨ maxScore r = 70 ∨ maxScore r = 75 ∨ maxScore r = 85)%Z ∧
  (errors r = [] ↔
   timeConsistent currentYear slipData p = true ∧
   amountConsistent slipData expectedData = true).
Proof.
  unfold otherChecks. cbn zeta.
  pose proof (timeStep_bounds currentYear slipData p) as Ht.
  pose proof (timeStep_errors currentYear slipData p) as Hte.
  pose proof (amountStep_budget slipData expectedData) as [Ha Hae].
  pose proof (recipientStep_budget slipData expectedData) as [Hr Hre].
  pose proof (confidenceStep_bounds slipData) as Hc.
  pose proof (confidenceStep_errors slipData) as Hce.
  cbn zeta in *.
  set (t := timeStep currentYear slipData p initial) in *.
  destruct (amountStep_additive slipData expectedData t) as (_ & Ea & Ea' & _).
  set (a := amountStep slipData expectedData t) in *.
  destruct (recipientStep_additive slipData expectedData a)
    as (_ & Er & Er' & _).
  set (r := recipientStep slipData expectedData a) in *.
  destruct (confidenceStep_additive slipData r) as (_ & Ec & Ec' & _).
  split; [lia|].
  rewrite Ec', Er', Ea', Hce, Hre, !app_nil_r, <- Hte, <- Hae.
  split.
  - by intros [? ?]%app_eq_nil.
  - by intros [-> ->].
Qed.

(** X5: a slip is accepted only if it passed every hard check: the slip
    was read, the identifier is structurally valid, its risk level is
    not HIGH, the time check succeeded and, where an amount was
    expected and found, the amounts agree. *)
Theorem valid_slip_passed_hard_checks currentYear slipData expectedData :
  valid (validateSlip currentYear slipData expectedData) = true →
  success slipData = true ∧
  ∃ p, TP.isValid currentYear (transactionId slipData) = TP.Accepted p ∧
       TP.riskLevel (TP.detectFakeSlip currentYear (transactionId slipData))
         ≠ TP.HIGH ∧
       timeConsistent currentYear slipData p = true ∧
       amountConsistent slipData expectedData = true.
Proof.
  intros Hvalid.
  destruct (success slipData) eqn:Hs.
  2:{ unfold validateSlip in Hvalid. by rewrite Hs in Hvalid. }
  destruct (TP.isValid currentYear (transactionId slipData)) as [why|p] eqn:Hv.
  { unfold validateSlip in Hvalid. rewrite Hs, Hv in Hvalid.
    by destruct (falsy (transactionId slipData)). }
  split; [done|]. exists p. split; [done|].
  pose proof (validateSlip_scored _ _ expectedData _ Hs Hv) as (Hiff & _ & Hlev).
  cbn zeta in *. apply Hiff in Hvalid as [Herr _].
  pose proof (otherChecks_budget currentYear slipData expectedData p)
    as [_ Hrest].
  cbn zeta in Hrest.
  destruct (TP.riskLevel (TP.detectFakeSlip currentYear (transactionId slipData)));
    destruct Hlev as (_ & He & _); rewrite He in Herr.
  - split; [done|]. by apply Hrest.
  - split; [done|]. by apply Hrest.
  - done.
Qed.

(** X6: the score lies between 0 and the budget.  A slip that is not
    scored (unread, without an identifier, or with an invalid one) has
    budget 0, score 0, exactly one error and no fake slip detection; a
    scored slip has a budget of 85, 95, 100 or 110. *)
Theorem validateSlip_budget currentYear slipData expectedData :
  let r := validateSlip currentYear slipData expectedData in
  (0 ≤ score r ∧ score r ≤ maxScore r)%Z ∧
  if success slipData
     && TP.valid (TP.isValid currentYear (transactionId slipData))
  then (maxScore r = 85 ∨ maxScore r = 95 ∨ maxScore r = 100
        ∨ maxScore r = 110)%Z ∧
       fakeSlipDetection r
       = Some (TP.detectFakeSlip currentYear (transactionId slipData))
  else maxScore r = 0%Z ∧ score r = 0%Z ∧ length (errors r) = 1 ∧
       valid r = false ∧ fakeSlipDetection r = None.
Proof.
  cbn zeta.
  destruct (success slipData) eqn:Hs.
  2:{ unfold validateSlip. rewrite Hs. simpl. split_and!; done. }
  destruct (TP.isValid currentYear (transactionId slipData)) as [why|p] eqn:Hv.
  { unfold validateSlip. rewrite Hs, Hv. cbn [negb TP.valid andb].
    destruct (falsy (transactionId slipData)); simpl; split_and!; done. }
  cbn [TP.valid andb].
  pose proof (validateSlip_scored _ _ expectedData _ Hs Hv) as (_ & Hmax & Hlev).
  pose proof (otherChecks_bounds currentYear slipData expectedData p) as Hb.
  pose proof (otherChecks_budget currentYear slipData expectedData p)
    as [Hbud _].
  cbn zeta in *.
  split_and!.
  - destruct (TP.riskLevel _); destruct Hlev as (-> & _); lia.
  - destruct (TP.riskLevel _); destruct Hlev as (-> & _); lia.
  - lia.
  - rewrite (validateSlip_Accepted _ _ _ _ Hs Hv).
    unfold confidenceStep, recipientStep, amountStep, timeStep, legacyTimeStep,
      authenticityStep.
    repeat match goal with
           | |- context [match ?x with _ => _ end] => destruct x
           end; reflexivity.
Qed.

(** X7: the wrappers report what the parser and the scorer report, on
    every string: [validateAndDetectFake] has the level, the
    recommendation and the suspicion flag of [detectFakeSlip]; for an
    accepted identifier it has the reasons of [detectFakeSlip] and the
    parsed record, and no field [reason]; for a rejected one it has no
    field [reasons] and no field [parsed], and its field [reason] is
    the reason of [isValid], which is the one reason that
    [detectFakeSlip] lists.  [quickValidate] recommends what
    [detectFakeSlip] recommends or rejects the format, and never gives
    its plain 'Accept'. *)
Theorem wrappers_agree currentYear id :
  let d := TP.detectFakeSlip currentYear id in
  let f := validateAndDetectFake currentYear id in
  let q := quickValidate currentYear id in
  f_valid f = TP.isValidQuick currentYear id ∧
  isFake f = TP.isSuspicious d ∧
  f_riskLevel f = TP.riskLevel d ∧
  f_recommendation f = TP.recommendation d ∧
  match TP.isValid currentYear id with
  | TP.Accepted p =>
    f_reason f = None ∧ f_reasons f = Some (TP.reasons d) ∧
    f_parsed f = Some p ∧ TP.parse currentYear id = Some p
  | TP.Rejected why =>
    f_reason f = Some why ∧ f_reasons f = None ∧ f_parsed f = None ∧
    TP.reasons d = [TP.Invalid why] ∧ TP.parse currentYear id = None
  end ∧
  q_valid q = TP.isValidQuick currentYear id ∧
  q_reason q = TP.reason (TP.isValid currentYear id) ∧
  q_parsed q = TP.parse currentYear id ∧
  q_fakeSlipDetection q
    = (if TP.isValidQuick currentYear id then Some d else None) ∧
  q_recommendation q
    = (if TP.isValidQuick currentYear id
       then Detected (TP.recommendation d) else RejectInvalidFormat) ∧
  q_recommendation q ≠ PlainAccept.
Proof.
  cbn zeta.
  unfold validateAndDetectFake, quickValidate, TP.isValidQuick.
  destruct (TP.isValid currentYear id) as [why|p] eqn:Hv.
  - assert (TP.parse currentYear id = None) as Hp.
    { destruct (TP.parse currentYear id) as [p|] eqn:Hp; [|done].
      apply isValid_Accepted in Hp. congruence. }
    unfold TP.detectFakeSlip. rewrite Hv, Hp. simpl. split_and!; done.
  - pose proof Hv as Hp. apply isValid_Accepted in Hp. rewrite Hp.
    simpl. split_and!; done.
Qed.

(** X8: the three readers of the parser agree: [extractYear] and
    [getTransactionType] return a value exactly when [isValidQuick] is
    true; the year is then within [currentYear - 5, currentYear + 1]
    and the description is not empty. *)
Theorem readers_agree currentYear id :
  (is_Some (TP.extractYear currentYear id)
   ↔ TP.isValidQuick currentYear id = true) ∧
  (is_Some (TP.getTransactionType currentYear id)
   ↔ TP.isValidQuick currentYear id = true) ∧
  (∀ y, TP.extractYear currentYear id = Some y →
        ∃ z, y = Num z ∧ (currentYear - 5 ≤ z ∧ z ≤ currentYear + 1)%Z) ∧
  (∀ d, TP.getTransactionType currentYear id = Some d → d ≠ []).
Proof.
  unfold TP.extractYear, TP.getTransactionType, TP.isValidQuick.
  pose proof (parse_iff_isValid currentYear id) as Hiff.
  destruct (TP.parse currentYear id) as [p|] eqn:Hp.
  - split_and!.
    + split; [intros _; by apply Hiff|by eexists].
    + split; [intros _; by apply Hiff|by eexists].
    + intros y [= <-].
      destruct (parse_bounds _ _ _ Hp) as (z & ? & ? & ? & Hy & _ & _ & _ & Hb).
      exists z. split; [done|lia].
    + intros d [= <-]. by eapply parse_description.
  - split_and!.
    + split; [by intros [? ?]|]. intros Hq%Hiff. by destruct Hq.
    + split; [by intros [? ?]|]. intros Hq%Hiff. by destruct Hq.
    + done.
    + done.
Qed.

(** X9: [validateTransactionType] accepts exactly when the identifier
    parses and its type code is the expected one; as a parsed type code
    has four characters, an expected type of another length, such as
    the dictionary's own BQR, ATF and APM, is never accepted. *)
Theorem validateTransactionType_four currentYear id expectedType :
  (ty_valid (validateTransactionType currentYear id expectedType) = true ↔
   ∃ p, TP.parse currentYear id = Some p ∧ TP.type p = expectedType) ∧
  (length expectedType ≠ 4 →
   ty_valid (validateTransactionType currentYear id expectedType) = false).
Proof.
  unfold validateTransactionType.
  destruct (TP.parse currentYear id) as [p|] eqn:Hp; simpl.
  - unfold eqs. split.
    + rewrite bool_decide_eq_true. split; [by exists p|].
      by intros (q & [= <-] & ?).
    + intros Hlen. apply bool_decide_eq_false. intros <-.
      by apply parse_type_length in Hp.
  - split; [|done]. split; [done|]. by intros (q & ? & _).
Qed.

End WithHost.

(** *** The three time comparisons *)

Lemma split_no_sep sep w :
  forallb (λ c, negb (c =? sep)%N) w = true → split sep w = [w].
Proof.
  induction w as [|c w IH]; simpl; [done|].
  intros [Hc Hw]%andb_prop. apply negb_true_iff in Hc. rewrite Hc.
  by rewrite IH.
Qed.

Lemma split_app_sep sep h rest :
  forallb (λ c, negb (c =? sep)%N) h = true →
  split sep (h ++ sep :: rest) = h :: split sep rest.
Proof.
  induction h as [|c h IH]; simpl.
  - intros _. by rewrite N.eqb_refl.
  - intros [Hc Hh]%andb_prop. apply negb_true_iff in Hc. rewrite Hc.
    by rewrite IH.
Qed.

Lemma digits_no_space w :
  digits w → forallb (λ c, negb (isWhiteSpace c)) w = true.
Proof.
  unfold digits. rewrite !forallb_forall. intros Hw d Hd.
  apply negb_true_iff, isDigit_not_space. by apply Hw.
Qed.

Lemma removeNor_id s :
  forallb (λ c, negb (c =? 0x0E19)%N) s = true → TP.removeNor s = s.
Proof.
  induction s as [|c s IH]; simpl; [done|].
  intros [Hc Hs]%andb_prop. apply negb_true_iff in Hc. rewrite Hc.
  by rewrite IH.
Qed.

(** On a text that is an hour:minute pair the tolerant pattern
    extracts that pair. *)
Lemma search_TIME_PATTERN_exact h m :
  (1 ≤ length h ∧ length h ≤ 2) → digits h → length m = 2 → digits m →
  search TP.TIME_PATTERN (h ++ [58%N] ++ m) = Some [h; [58%N]; m].
Proof.
  intros Hh Hdh Hm Hdm.
  pose proof (search_TIME_PATTERN (h ++ [58%N] ++ m)) as Hs.
  assert (TimeAt (h ++ [58%N] ++ m) [] h m []) as Hat.
  { split; [by rewrite app_nil_r|done]. }
  destruct (search TP.TIME_PATTERN (h ++ [58%N] ++ m)) as [caps|].
  2:{ destruct Hs. by exists [], h, m, []. }
  destruct Hs as (before & h' & m' & after & -> & Hat' & Hleft).
  specialize (Hleft _ _ _ _ Hat). destruct before; [|simpl in Hleft; lia].
  destruct Hat' as (E & _ & Hdh' & Hm' & _). simpl in E.
  apply first_colon in E as [<- E];
    [|by apply digits_without..].
  assert (m ++ [] = m' ++ after) as E' by (by rewrite app_nil_r).
  apply app_inj_1 in E' as [<- _]; [done|lia].
Qed.

Section WithHost.
Context {host : Host}.

(** X10: on a text that is an hour:minute pair (one or two digits, a
    colon, two digits) the three time comparisons agree: [timeMatch]
    of [verifyDateTime], [valid] of [verifyTime] and [valid] of
    [validateTime] are all true exactly when the hours are equal and
    the minutes differ by at most 2. *)
Theorem time_checks_agree currentYear id p h m slipData dt :
  TP.parse currentYear id = Some p →
  (1 ≤ length h ∧ length h ≤ 2) → digits h → length m = 2 → digits m →
  dateTime slipData = Some dt → time dt = h ++ [58%N] ++ m →
  let verdict :=
    num_eqb (TP.hour p) (Num (decimal h))
    && num_leb (num_abs (num_sub (TP.minute p) (Num (decimal m)))) (Num 2) in
  TP.timeMatch (TP.verifyDateTime currentYear id (h ++ [58%N] ++ m)) = verdict ∧
  TP.tv_valid (TP.verifyTime currentYear id (h ++ [58%N] ++ m)) = verdict ∧
  tc_valid (validateTime slipData p) = verdict.
Proof.
  intros Hp Hh Hdh Hm Hdm Hdt Ht. cbn zeta.
  assert (h ≠ []) as Hhne by (intros ->; simpl in Hh; lia).
  assert (m ≠ []) as Hmne by (intros ->; simpl in Hm; lia).
  assert (falsy (h ++ [58%N] ++ m) = false) as Hfalsy by (by destruct h).
  assert (split 58 (h ++ [58%N] ++ m) = [h; m]) as Hsplit.
  { cbn [app]. rewrite split_app_sep by (by apply digits_without).
    by rewrite split_no_sep by (by apply digits_without). }
  split_and!.
  - unfold TP.verifyDateTime. rewrite Hp, Hfalsy.
    rewrite (search_TIME_PATTERN_exact h m) by done.
    by rewrite !parseInt_digits.
  - unfold TP.verifyTime. rewrite Hp, Hfalsy.
    assert (forallb (λ c, negb (isWhiteSpace c)) (h ++ [58%N] ++ m) = true)
      as Hns.
    { rewrite !forallb_app_true. split_and!; [by apply digits_no_space|done|].
      by apply digits_no_space. }
    rewrite (trim_id _ Hns), removeNor_id, (trim_id _ Hns), Hsplit.
    + simpl. by rewrite !parseInt_digits.
    + rewrite !forallb_app_true. split_and!; [by apply digits_without|done|].
      by apply digits_without.
  - pose proof Hp as Hq.
    apply parse_Some in Hq
      as (_ & yy & hh & mm & ss & ty & sq & HG & _ & ->).
    destruct HG as (_ & _ & [? ?] & [? ?] & [? ?] & _).
    unfold validateTime. rewrite Hdt, Ht, Hfalsy, Hsplit. cbn [TP.time describe].
    assert (split 58 (hh ++ [58%N] ++ mm ++ [58%N] ++ ss) = [hh; mm; ss]) as ->.
    { cbn [app]. rewrite !split_app_sep by (by apply digits_without).
      by rewrite split_no_sep by (by apply digits_without). }
    simpl. rewrite !parseInt_digits by (done || (intros ->; simpl in *; lia)).
    simpl. rewrite (Z.eqb_sym (decimal h)). f_equal.
    replace (decimal m - decimal mm)%Z with (- (decimal mm - decimal m))%Z
      by lia.
    by rewrite Z.abs_opp.
Qed.

End WithHost.

#[local] Existing Instance asciiHost.

Lemma mock_valid : valid (validateSlip 2569 mockSlipData mockExpected) = true.
Proof. vm_compute. reflexivity. Qed.

Lemma valid_slip_passed_hard_checks_witness :
  valid (validateSlip 2569 mockSlipData mockExpected) = true ∧
  success mockSlipData = true ∧
  ∃ p, TP.isValid 2569 (transactionId mockSlipData) = TP.Accepted p ∧
       TP.riskLevel (TP.detectFakeSlip 2569 (transactionId mockSlipData))
         ≠ TP.HIGH ∧
       timeConsistent 2569 mockSlipData p = true ∧
       amountConsistent mockSlipData mockExpected = true.
Proof.
  split; [exact mock_valid|].
  exact (valid_slip_passed_hard_checks 2569 mockSlipData mockExpected
           mock_valid).
Defined.

Lemma scenario_time_text :
  (1 ≤ length (utf16 "17") ∧ length (utf16 "17") ≤ 2) ∧
  digits (utf16 "17") ∧ length (utf16 "08") = 2 ∧ digits (utf16 "08").
Proof. vm_compute. split_and!; (lia || reflexivity). Qed.

Lemma time_checks_agree_witness :
  TP.parse 2569 scenarioId = Some scenarioParsed ∧
  dateTime mockSlipData = Some {| rawOCR := []; time := utf16 "17:08" |} ∧
  TP.timeMatch (TP.verifyDateTime 2569 scenarioId (utf16 "17" ++ [58%N] ++ utf16 "08"))
  = tc_valid (validateTime mockSlipData scenarioParsed).
Proof.
  split; [exact scenario_parses|]. split; [reflexivity|].
  destruct scenario_time_text as (Hh & Hdh & Hm & Hdm).
  pose proof (time_checks_agree 2569 scenarioId scenarioParsed
                (utf16 "17") (utf16 "08") mockSlipData
                {| rawOCR := []; time := utf16 "17:08" |}
                scenario_parses Hh Hdh Hm Hdm eq_refl eq_refl)
    as (H1 & _ & H3).
  exact (eq_trans H1 (eq_sym H3)).
Defined.

End ServiceFacts.

(** ** More on text cleaning and identifier repair *)

Module CleaningFacts.
Import JS Regex Spec OCRService JSFacts RegexFacts ReplaceFacts OCRFacts
       ParserFacts RecordFacts AsciiHostFacts.
Module TP := TransactionParser.
Module VS := ValidationService.

Lemma includes_startsWith p s : startsWith p s = true → includes p s = true.
Proof. intros Hp. destruct s; simpl; by rewrite Hp. Qed.

Lemma includes_true p s : includes p s = true ↔ ∃ a b, s = a ++ p ++ b.
Proof.
  split.
  - induction s as [|c s IH].
    + destruct p; [|done]. intros _. by exists [], [].
    + rewrite includes_cons. intros [Hpre|Hin]%orb_prop.
      * apply startsWith_true in Hpre as [rest ->]. by exists [], rest.
      * destruct (IH Hin) as (a & b & ->). by exists (c :: a), b.
  - intros (a & b & ->). induction a as [|c a IH].
    + cbn [app]. apply includes_startsWith, startsWith_app.
    + cbn [app]. rewrite includes_cons, IH. apply orb_true_r.
Qed.

Lemma includes_trans q p s :
  includes q p = true → includes p s = true → includes q s = true.
Proof.
  intros (a & b & ->)%includes_true (c & d & ->)%includes_true.
  apply includes_true. exists (c ++ a), (b ++ d).
  by rewrite <- !app_assoc.
Qed.

Lemma includes_single c s : includes [c] s = false → c ∉ s.
Proof.
  intros Hc Hin. apply list_elem_of_split in Hin as (a & b & ->).
  assert (includes [c] (a ++ c :: b) = true); [|congruence].
  apply includes_true. by exists a, b.
Qed.

(** *** The normal form of cleaned text *)

Lemma applyFixes_app l1 l2 text :
  applyFixes (l1 ++ l2) text = applyFixes l2 (applyFixes l1 text).
Proof. unfold applyFixes. apply fold_left_app. Qed.

(** Cleaned text holds no occurrence of a pattern of the table. *)
Lemma cleaned_free text e :
  e ∈ ocrFixes → includes e.1 (cleanOCRText text) = false.
Proof.
  intros He. unfold cleanOCRText. destruct (falsy text).
  - assert (e.1 ≠ []) as Hne
      by (by destruct (separated_spec _ e e ocrFixes_separated He He)).
    by destruct (e.1).
  - apply (applyFixes_removes ocrFixes [] ocrFixes text ocrFixes_separated);
      [done| |done].
    by intros ? ?%elem_of_nil.
Qed.

(** X11: cleaned text holds no occurrence of any pattern of the
    substitution table; in particular it holds no Thai digit. *)
Theorem cleanOCRText_normal_form text :
  (∀ e, e ∈ ocrFixes → includes e.1 (cleanOCRText text) = false) ∧
  (∀ c, c ∈ cleanOCRText text → inRange 0x0E50 0x0E59 c = false).
Proof.
  assert (∀ e, e ∈ ocrFixes → includes e.1 (cleanOCRText text) = false) as Hn
    by apply cleaned_free.
  split; [done|].
  intros c Hc. destruct (inRange 0x0E50 0x0E59 c) eqn:Hr; [|done].
  assert (∃ r, ([c], r) ∈ ocrFixes) as [r Hin].
  { unfold inRange in Hr. apply andb_prop in Hr as [H1%N.leb_le H2%N.leb_le].
    assert (c = 0x0E50 ∨ c = 0x0E51 ∨ c = 0x0E52 ∨ c = 0x0E53 ∨ c = 0x0E54
            ∨ c = 0x0E55 ∨ c = 0x0E56 ∨ c = 0x0E57 ∨ c = 0x0E58
            ∨ c = 0x0E59)%N as Hcases by lia.
    destruct Hcases as [->|[->|[->|[->|[->|[->|[->|[->|[->| ->]]]]]]]]];
      eexists; apply list_elem_of_In; vm_compute; tauto. }
  specialize (Hn _ Hin). by apply includes_single in Hn.
Qed.

Lemma ocrFixes_thai : thaiPatterns ocrFixes = true.
Proof. vm_compute. reflexivity. Qed.

(** A pass of a table of Thai patterns over a text without Thai
    characters changes nothing. *)
Lemma applyFixes_no_thai table text :
  thaiPatterns table = true →
  forallb (λ c, negb (isThai c)) text = true → applyFixes table text = text.
Proof.
  intros Ht Hs. apply applyFixes_id. intros e He%list_elem_of_In.
  unfold thaiPatterns in Ht. rewrite forallb_forall in Ht.
  specialize (Ht e He).
  apply existsb_exists in Ht as (c & Hc%list_elem_of_In & Hthai).
  destruct (includes e.1 text) eqn:Hinc; [|done].
  pose proof (includes_chars _ _ c Hinc Hc) as Hcs%list_elem_of_In.
  rewrite forallb_forall in Hs. specialize (Hs c Hcs).
  by rewrite Hthai in Hs.
Qed.

(** X12: a text without characters of the Thai block is returned as it
    is. *)
Theorem cleanOCRText_no_thai text :
  forallb (λ c, negb (isThai c)) text = true → cleanOCRText text = text.
Proof.
  intros Hs. unfold cleanOCRText. destruct text as [|c text]; [done|].
  cbn [falsy]. by apply applyFixes_no_thai; [apply ocrFixes_thai|].
Qed.

(** *** Entries that never fire *)

(** The entries dropped by [liveEntries] never fire on a text without
    occurrences of the patterns seen. *)
Lemma applyFixes_live table seen todo text :
  separated table = true →
  (∀ e, e ∈ todo → e ∈ table) →
  (∀ q, q ∈ seen → ∃ e, e ∈ table ∧ e.1 = q) →
  (∀ q, q ∈ seen → includes q text = false) →
  applyFixes todo text = applyFixes (liveEntries seen todo) text.
Proof.
  intros Hsep. revert seen text.
  induction todo as [|d todo IH]; intros seen text Hsub Hseen Hfree; [done|].
  assert (d ∈ table) as Hd by (apply Hsub; by left).
  assert (∀ e, e ∈ todo → e ∈ table) as Hsub' by (intros e ?; apply Hsub; by right).
  cbn [liveEntries].
  destruct (existsb (λ q, includes q d.1) seen) eqn:Hshadow.
  - apply existsb_exists in Hshadow as (q & Hq%list_elem_of_In & Hinc).
    change (applyFixes (d :: todo) text)
      with (applyFixes todo (replaceAll d.1 d.2 text)).
    rewrite replaceAll_id; [by apply IH|].
    destruct (includes d.1 text) eqn:Hocc; [|done].
    rewrite <- (Hfree q Hq). symmetry. by eapply includes_trans.
  - change (applyFixes (d :: todo) text)
      with (applyFixes todo (replaceAll d.1 d.2 text)).
    change (applyFixes (d :: liveEntries (d.1 :: seen) todo) text)
      with (applyFixes (liveEntries (d.1 :: seen) todo)
              (replaceAll d.1 d.2 text)).
    destruct (separated_spec table d d Hsep Hd Hd) as (? & ? & ?).
    apply IH; [done| |].
    + intros q [->|Hq]%elem_of_cons; [by exists d|by apply Hseen].
    + intros q [->|Hq]%elem_of_cons; [by apply includes_replaceAll_self|].
      destruct (Hseen q Hq) as (x & Hx & <-).
      destruct (separated_spec table d x Hsep Hd Hx) as (_ & _ & ?).
      destruct (separated_spec table x x Hsep Hx Hx) as (? & _ & _).
      apply includes_replaceAll; [done..|]. by apply Hfree.
Qed.

(** X13: ten entries of the substitution table never fire, because the
    pattern of an earlier entry occurs in theirs (among them the
    entries for F, H, M, N, S, W and X): on every text the cleaning is
    the pass of the other thirty-nine entries. *)
Theorem cleanOCRText_dead_entries :
  deadPatterns [] ocrFixes
  = map utf16 ["บีคิวอาร์"; "ดูอาร์"; "เอฟ"; "เอช"; "เอ็ม"; "เอ็น"; "เอส";
               "ดับเบิลยู"; "เอ็กซ์"; "เเอ"]
  ∧ length (liveEntries [] ocrFixes) = 39
  ∧ ∀ text, cleanOCRText text
            = if falsy text then [] else applyFixes (liveEntries [] ocrFixes) text.
Proof.
  split_and!; [by vm_compute..|].
  intros text. unfold cleanOCRText. destruct (falsy text); [done|].
  apply (applyFixes_live ocrFixes); [apply ocrFixes_separated|done|..];
    by intros ? ?%elem_of_nil.
Qed.

(** *** Identifiers the repair leaves alone *)

Lemma BQR_PATTERN_atoms :
  BQR_PATTERN =
  [lit 48; lit 49; lit 53; lit 50; exactly 8 isDigit; lit 56; lit 81; lit 82;
   exactly 1 (λ c, N.eqb c 48 || N.eqb c 56); opt (N.eqb 48);
   between 4 5 isDigit]%N.
Proof. reflexivity. Qed.

Lemma SPLIT_PATTERN_atoms :
  SPLIT_PATTERN =
  [lit 48; lit 49; lit 53; lit 50; exactly 8 isDigit; betweenLazy 2 7 isDot;
   between 3 5 isDigit]%N.
Proof. reflexivity. Qed.

Lemma fits_betweenLazy a b cl w :
  fits (betweenLazy a b cl) w
  ↔ (a ≤ length w ∧ length w ≤ b) ∧ forallb cl w = true.
Proof. unfold fits, betweenLazy; simpl. tauto. Qed.

(** A pattern that begins with a literal matches only strings that
    begin with it. *)
Lemma test_lit_head a re c w : test (lit a :: re) (c :: w) = true → c = a.
Proof.
  intros (caps & Hfits & E)%test_true.
  apply Forall2_cons_inv_l in Hfits as (w0 & caps' & Hw%fits_lit & _ & ->).
  subst w0. simpl in E. congruence.
Qed.

Lemma test_plus cl w : test [plus cl] w = true → forallb cl w = true.
Proof.
  intros (caps & Hfits & ->)%test_true.
  apply Forall2_cons_inv_l in Hfits as (w0 & caps' & (_ & _ & Hw) & Hnil & ->).
  apply Forall2_nil_inv_l in Hnil as ->. simpl. by rewrite app_nil_r.
Qed.

Ltac fitting :=
  repeat match goal with
  | H : fits (lit _) _ |- _ => apply fits_lit in H as ->
  | H : fits (exactly _ _) _ |- _ => apply fits_exactly in H as [? ?]
  | H : fits (between _ _ _) _ |- _ => apply fits_between in H as [[? ?] ?]
  | H : fits (betweenLazy _ _ _) _ |- _ =>
    apply fits_betweenLazy in H as [[? ?] ?]
  end.


Lemma isUpperAlnum_not_thai c : isUpperAlnum c = true → isThai c = false.
Proof.
  unfold isUpperAlnum, isUpper, isDigit, isThai, inRange.
  rewrite orb_true_iff, !andb_true_iff, !N.leb_le. intros Hc.
  apply andb_false_iff. left. apply N.leb_gt. lia.
Qed.

Lemma no_thai_of (cl : N → bool) w :
  (∀ c, cl c = true → isThai c = false) → forallb cl w = true →
  forallb (λ c, negb (isThai c)) w = true.
Proof.
  intros Hcl. rewrite !forallb_forall. intros Hw c Hc.
  apply negb_true_iff, Hcl, Hw, Hc.
Qed.

(** *** The BQR rule *)





Section WithHost.
Context {host : Host}.

(** When the thirteenth character is not a digit, a rule that fires
    rebuilds the candidate as it was. *)
Lemma repairRules_nondigit cleaned c fixed :
  cleaned !! 12 = Some c → isDigit c = false →
  repairRules cleaned = Some fixed → fixed = cleaned.
Proof.
  intros Hc Hnd. unfold repairRules.
  destruct (matchFull BQR_PATTERN cleaned) as [caps|] eqn:HB.
  { exfalso. apply matchFull_sound in HB as [Hfits ->].
    rewrite BQR_PATTERN_atoms in Hfits. pieces Hfits. fitting.
    destruct w3 as [|? [|? [|? [|? [|? [|? [|? [|? [|? ?]]]]]]]]]; try done.
    simpl in Hc. injection Hc as <-. done. }
  destruct (matchFull SPLIT_PATTERN cleaned) as [caps|] eqn:HS; [|done].
  apply matchFull_sound in HS as [Hfits ->].
  rewrite SPLIT_PATTERN_atoms in Hfits. pieces Hfits. fitting.
  rename w3 into d8, w4 into middle, w5 into suffix.
  destruct d8 as [|? [|? [|? [|? [|? [|? [|? [|? [|? ?]]]]]]]]]; try done.
  destruct middle as [|c' middle]; [simpl in *; lia|].
  simpl in Hc. injection Hc as ->.
  assert (∀ re, test (lit 56 :: re) (c :: middle) = false) as Hlit.
  { intros re. destruct (test _ _) eqn:Ht; [|done].
    apply test_lit_head in Ht as ->. done. }
  change (lits (utf16 "8QR8")) with (lit 56 :: lits (utf16 "QR8")).
  change (lits (utf16 "8QR0")) with (lit 56 :: lits (utf16 "QR0")).
  rewrite !Hlit.
  assert (test [plus isDigit] (c :: middle) = false) as ->.
  { destruct (test _ _) eqn:Ht; [|done]. apply test_plus in Ht.
    simpl in Ht. by rewrite Hnd in Ht. }
  cbn [andb].
  destruct (_ && _ && _); [|done].
  intros [= <-]. unfold mixedRule. rewrite !Hlit. simpl.
  by rewrite app_nil_r.
Qed.

(** The repair changes nothing when the rules rebuild the candidate. *)
Lemma repair_from_rules candidate :
  forallb (λ c, negb (isThai c)) candidate = true →
  (∀ fixed, repairRules candidate = Some fixed → fixed = candidate) →
  fixTransactionIdOCRErrors candidate = candidate.
Proof.
  intros Hthai Hrules. unfold fixTransactionIdOCRErrors.
  destruct (_ || _); [done|]. rewrite stripThai_id by done.
  destruct (repairRules candidate) as [fixed|] eqn:Hr; [|done].
  by apply Hrules.
Qed.

(** X14: a candidate without characters of the Thai block whose
    thirteenth character, the first of the type code, is not a digit is
    repaired to itself, whatever rule fires. *)
Theorem repair_keeps_nondigit candidate :
  forallb (λ c, negb (isThai c)) candidate = true →
  (∀ c, candidate !! 12 = Some c → isDigit c = false) →
  fixTransactionIdOCRErrors candidate = candidate.
Proof.
  intros Hthai Hc.
  destruct (candidate !! 12) as [c|] eqn:Hc12.
  - apply repair_from_rules; [done|]. intros fixed.
    apply (repairRules_nondigit _ c); [done|by apply Hc].
  - apply lookup_ge_None in Hc12. unfold fixTransactionIdOCRErrors.
    assert ((length candidate <? 20) = true) as -> by (apply Nat.ltb_lt; lia).
    by rewrite orb_true_r.
Qed.

(** X15: a structurally valid identifier whose type code begins with a
    letter, as every type code of the dictionary does, is repaired to
    itself. *)
Theorem repair_keeps_valid currentYear id p :
  TP.parse currentYear id = Some p →
  TP.isKnownType p = true ∨ (∃ c t, TP.type p = c :: t ∧ isDigit c = false) →
  fixTransactionIdOCRErrors (TP.raw p) = TP.raw p.
Proof.
  intros (_ & yy & hh & mm & ss & ty & sq & HG & _ & ->)%parse_Some Hty.
  cbn [TP.raw TP.type TP.isKnownType describe] in *.
  assert (∃ c t, ty = c :: t ∧ isDigit c = false) as (c & t & -> & Hc).
  { destruct Hty as [Hknown|]; [|done].
    apply bool_decide_eq_true in Hknown as [d Hd].
    apply elem_of_list_to_map_2 in Hd.
    repeat (apply elem_of_cons in Hd as [[= -> ->]|Hd]; [by eexists _, _|]).
    by apply elem_of_nil in Hd. }
  apply repair_from_rules.
  - eapply no_thai_of; [apply isUpperAlnum_not_thai|].
    by eapply Grammar_alphanumeric.
  - intros fixed. apply (repairRules_nondigit _ c); [|done].
    destruct HG as (-> & [? _] & [? _] & [? _] & [? _] & _).
    destruct yy as [|? [|? [|? ?]]]; try done.
    destruct hh as [|? [|? [|? ?]]]; try done.
    destruct mm as [|? [|? [|? ?]]]; try done.
    by destruct ss as [|? [|? [|? ?]]].
Qed.



End WithHost.

(** *** What the repair returns *)








Section WithHost.
Context {host : Host}.





End WithHost.

(** *** The recipient check *)

Lemma removeWhiteSpace_white s :
  forallb isWhiteSpace s = true → removeWhiteSpace s = [].
Proof.
  unfold removeWhiteSpace. induction s as [|c s IH]; [done|].
  cbn [forallb]. intros [Hc Hs]%andb_prop.
  rewrite filter_cons_False by (by rewrite Hc). by apply IH.
Qed.

Lemma upper_not_white c : inRange 65 90 c = true → isWhiteSpace c = false.
Proof.
  unfold isWhiteSpace, inRange. intros [Hlo Hhi]%andb_prop.
  apply N.leb_le in Hlo, Hhi.
  repeat match goal with
  | |- context [N.leb ?a ?b] => destruct (N.leb_spec a b); try lia
  | |- context [N.eqb ?a ?b] => destruct (N.eqb_spec a b); try lia
  end; done.
Qed.

Lemma asciiLower_white : KeepsWhiteSpace (map AsciiHost.asciiLower).
Proof.
  intros s. induction s as [|c s IH]; [done|].
  cbn [forallb map]. intros [Hc Hs]%andb_prop.
  rewrite IH, andb_true_r by done. unfold AsciiHost.asciiLower.
  destruct (inRange 65 90 c) eqn:Hupper; [|done].
  apply upper_not_white in Hupper. congruence.
Qed.

Section WithHost.
Context {host : Host}.

(** X18: the recipient check compares the names in lower case and
    without white space, and accepts exactly when one occurs in the
    other; it is symmetric and accepts equal names; and where the
    host's [toLowerCase] keeps white space, it accepts every name
    against an expected name made of white space only (the empty name
    included). *)
Theorem validateRecipient_containment actual expected :
  let normalize := λ str, removeWhiteSpace (toLowerCase str) in
  (VS.rc_valid (VS.validateRecipient actual expected) = true ↔
   (∃ a b, normalize actual = a ++ normalize expected ++ b)
   ∨ (∃ a b, normalize expected = a ++ normalize actual ++ b)) ∧
  VS.rc_valid (VS.validateRecipient actual expected)
  = VS.rc_valid (VS.validateRecipient expected actual) ∧
  VS.rc_valid (VS.validateRecipient actual actual) = true ∧
  (KeepsWhiteSpace toLowerCase →
   forallb isWhiteSpace expected = true →
   VS.rc_valid (VS.validateRecipient actual expected) = true).
Proof.
  cbn zeta. unfold VS.validateRecipient. cbn [VS.rc_valid]. split_and!.
  - by rewrite orb_true_iff, !includes_true.
  - apply orb_comm.
  - apply orb_true_iff. left. apply includes_true. exists [], [].
    by rewrite app_nil_r.
  - intros Hlower Hwhite. apply orb_true_iff. left. apply includes_true.
    rewrite (removeWhiteSpace_white (toLowerCase expected))
      by (apply Hlower, Hwhite).
    by exists [], (removeWhiteSpace (toLowerCase actual)).
Qed.

End WithHost.

#[local] Existing Instance asciiHost.

Lemma scenario_plain : plain scenarioId.
Proof. vm_compute. reflexivity. Qed.

Lemma cleanOCRText_no_thai_witness :
  forallb (λ c, negb (isThai c)) scenarioId = true ∧
  cleanOCRText scenarioId = scenarioId.
Proof.
  split; [exact scenario_plain|].
  exact (cleanOCRText_no_thai scenarioId scenario_plain).
Defined.

Lemma scenario_thirteenth c : scenarioId !! 12 = Some c → isDigit c = false.
Proof. vm_compute. by intros [= <-]. Qed.

Lemma repair_keeps_nondigit_witness :
  forallb (λ c, negb (isThai c)) scenarioId = true ∧
  (∀ c, scenarioId !! 12 = Some c → isDigit c = false) ∧
  fixTransactionIdOCRErrors scenarioId = scenarioId.
Proof.
  split; [exact scenario_plain|]. split; [exact scenario_thirteenth|].
  exact (repair_keeps_nondigit scenarioId scenario_plain scenario_thirteenth).
Defined.

Lemma scenario_known : TP.isKnownType scenarioParsed = true.
Proof. vm_compute. reflexivity. Qed.

Lemma repair_keeps_valid_witness :
  TP.parse 2569 scenarioId = Some scenarioParsed ∧
  TP.isKnownType scenarioParsed = true ∧
  fixTransactionIdOCRErrors (TP.raw scenarioParsed) = TP.raw scenarioParsed.
Proof.
  split; [exact scenario_parses|]. split; [exact scenario_known|].
  exact (repair_keeps_valid 2569 scenarioId scenarioParsed scenario_parses
           (or_introl scenario_known)).
Defined.





Lemma blank_expected : forallb isWhiteSpace (utf16 "  ") = true.
Proof. vm_compute. reflexivity. Qed.

Lemma validateRecipient_containment_witness :
  KeepsWhiteSpace toLowerCase ∧
  forallb isWhiteSpace (utf16 "  ") = true ∧
  VS.rc_valid (VS.validateRecipient (utf16 "ร้านค้า ABC") (utf16 "  ")) = true.
Proof.
  split; [exact asciiLower_white|]. split; [exact blank_expected|].
  pose proof (validateRecipient_containment (utf16 "ร้านค้า ABC") (utf16 "  "))
    as (_ & _ & _ & Hblank).
  exact (Hblank asciiLower_white blank_expected).
Defined.

End CleaningFacts.

(** ** The search for an identifier in the text of a slip *)

Module ExtractionFacts.
Import JS Regex Spec OCRService JSFacts RegexFacts ReplaceFacts OCRFacts
       ParserFacts RecordFacts AsciiHostFacts CleaningFacts.
Module TP := TransactionParser.

(** *** Matches of a pattern over a text *)

Lemma matchAll_cons re c s :
  matchAll re (c :: s) =
  match matchSeq re false (c :: s) with
  | Some caps => caps :: matchAllFrom re (length (concat caps) - 1) s
  | None => matchAllFrom re 0 s
  end.
Proof. reflexivity. Qed.

Lemma matchAllFrom_none re s :
  (∀ j, matchSeq re false (drop j s) = None) →
  ∀ k, matchAllFrom re k s = [].
Proof.
  induction s as [|c s IH]; intros Hnone k; [done|].
  assert (∀ j, matchSeq re false (drop j s) = None) as Hs
    by (intros j; apply (Hnone (S j))).
  destruct k as [|k]; cbn [matchAllFrom]; [|by apply IH].
  pose proof (Hnone 0) as H0. cbn [drop] in H0. rewrite H0. by apply IH.
Qed.

Lemma removeFrom_none re s :
  (∀ j, matchSeq re false (drop j s) = None) → removeAll re s = s.
Proof.
  unfold removeAll. induction s as [|c s IH]; intros Hnone; [done|].
  cbn [removeFrom]. pose proof (Hnone 0) as H0. cbn [drop] in H0.
  rewrite H0. f_equal. apply IH.
  intros j. apply (Hnone (S j)).
Qed.

(** A match takes at least the minimal counts of the atoms. *)
Lemma fits_length re caps :
  Forall2 fits re caps → sum_list (lo <$> re) ≤ length (concat caps).
Proof.
  induction 1 as [|a w re caps (Hlo & _) _ IH]; [done|].
  rewrite fmap_cons. cbn [sum_list concat]. rewrite length_app.
  apply Nat.add_le_mono; [exact Hlo|exact IH].
Qed.

Lemma matchSeq_short re e s :
  length s < sum_list (lo <$> re) → matchSeq re e s = None.
Proof.
  intros Hlen. destruct (matchSeq re e s) as [caps|] eqn:Hm; [|done].
  apply matchSeq_sound in Hm as (Hfits%fits_length & rest & -> & _).
  rewrite length_app in Hlen. lia.
Qed.

Lemma matchAllFrom_short re k s :
  length s < k + sum_list (lo <$> re) → matchAllFrom re k s = [].
Proof.
  revert k. induction s as [|c s IH]; intros k Hlen; [done|].
  simpl in Hlen. destruct k as [|k]; cbn [matchAllFrom].
  - rewrite matchSeq_short by (simpl; lia). apply IH. lia.
  - apply IH. lia.
Qed.

(** A pattern that begins with a character the text does not hold has
    no match. *)
Lemma matchSeq_lit_absent c re e s :
  head s ≠ Some c → matchSeq (lit c :: re) e s = None.
Proof.
  intros Hc. destruct (matchSeq _ e s) as [caps|] eqn:Hm; [|done].
  apply matchSeq_sound in Hm as (Hfits & rest & -> & _).
  apply Forall2_cons_inv_l in Hfits as (w & caps' & ->%fits_lit & _ & ->).
  done.
Qed.

Lemma matchAllFrom_absent c re s k :
  c ∉ s → matchAllFrom (lit c :: re) k s = [].
Proof.
  intros Hc. apply matchAllFrom_none. intros j. apply matchSeq_lit_absent.
  intros Hh. apply Hc. apply head_Some_elem_of in Hh.
  rewrite <- (take_drop j s). apply elem_of_app. by right.
Qed.

(** A pattern with an atom that takes a character of a class the text
    does not hold has no match. *)
Lemma matchAllFrom_needs re i a s k :
  re !! i = Some a → 1 ≤ lo a → (∀ c, c ∈ s → cls a c = false) →
  matchAllFrom re k s = [].
Proof.
  intros Hi Hlo Hs. apply (matchAllFrom_none re). intros j.
  destruct (matchSeq re false (drop j s)) as [caps|] eqn:Hm; [|done].
  apply matchSeq_sound in Hm as (Hfits & rest & E & _).
  destruct (Forall2_lookup_l _ _ _ _ _ Hfits Hi) as (w & Hw & Hlo' & _ & Hcls).
  destruct w as [|c w]; [simpl in Hlo'; lia|].
  cbn [forallb] in Hcls. apply andb_prop in Hcls as [Hc _].
  rewrite Hs in Hc; [done|].
  rewrite <- (take_drop j s), E. apply elem_of_app. right.
  apply elem_of_app. left. apply list_elem_of_In, in_concat. exists (c :: w).
  split; [|by left]. apply list_elem_of_In. by eapply list_elem_of_lookup_2.
Qed.

(** The first pieces of a match are a match of the first atoms. *)
Lemma matchSeq_prefix re1 re2 e s :
  matchSeq re1 false s = None → matchSeq (re1 ++ re2) e s = None.
Proof.
  intros Hnone. destruct (matchSeq (re1 ++ re2) e s) as [caps|] eqn:Hm; [|done].
  apply matchSeq_sound in Hm as (Hfits & rest & -> & _).
  apply Forall2_app_inv_l in Hfits as (caps1 & caps2 & Hf1 & _ & ->).
  rewrite concat_app, <- app_assoc in Hnone.
  destruct (matchSeq_complete re1 false caps1 (concat caps2 ++ rest) Hf1)
    as [? Hsome]; [done|]. congruence.
Qed.

Lemma fits_lits w caps : Forall2 fits (lits w) caps → concat caps = w.
Proof.
  revert caps. induction w as [|c w IH]; intros caps Hfits.
  - by apply Forall2_nil_inv_l in Hfits as ->.
  - cbn [lits map] in Hfits.
    apply Forall2_cons_inv_l in Hfits as (x & caps' & ->%fits_lit & Hfits & ->).
    simpl. f_equal. by apply IH.
Qed.

(** A match of a pattern that begins with a literal text begins with
    that text. *)
Lemma matchSeq_lits w re e s caps :
  matchSeq (lits w ++ re) e s = Some caps → ∃ rest, s = w ++ rest.
Proof.
  intros (Hfits & rest & -> & _)%matchSeq_sound.
  apply Forall2_app_inv_l in Hfits as (caps1 & caps2 & Hf1 & _ & ->).
  rewrite concat_app, (fits_lits _ _ Hf1), <- app_assoc. by eexists.
Qed.

Lemma includes_piece p j k s :
  includes p (take k (drop j s)) = true → includes p s = true.
Proof.
  intros (a & b & E)%includes_true. apply includes_true.
  exists (take j s ++ a), (b ++ drop k (drop j s)).
  rewrite <- (take_drop j s) at 1. rewrite <- (take_drop k (drop j s)) at 1.
  rewrite E. by rewrite <- !app_assoc.
Qed.

(** *** The word reference *)

Lemma fits_anyCase c w :
  fits (anyCase c) w → ∃ x, w = [x] ∧ (x = c ∨ x = (c - 32)%N).
Proof.
  unfold fits, anyCase; simpl. intros (Hlo & Hhi & Hc).
  destruct w as [|x [|? ?]]; simpl in *; try lia.
  exists x. split; [done|].
  rewrite andb_true_r, orb_true_iff, !N.eqb_eq in Hc. done.
Qed.

Lemma filter_drop_length {A} (P : A → Prop) `{∀ x, Decision (P x)} j
    (l : list A) :
  length (filter P (drop j l)) ≤ length (filter P l).
Proof.
  rewrite <- (take_drop j l) at 2. rewrite filter_app, length_app. lia.
Qed.

(** The word takes nine letters. *)
Lemma REFERENCE_letters e s caps :
  matchSeq REFERENCE e s = Some caps →
  9 ≤ length (filter (λ c, isLetter c = true) s).
Proof.
  intros (Hfits & rest & -> & _)%matchSeq_sound.
  unfold REFERENCE in Hfits. cbn [utf16 map] in Hfits.
  change (utf16 "reference") with [114; 101; 102; 101; 114; 101; 110; 99; 101]%N
    in Hfits.
  cbn [map] in Hfits. pieces Hfits.
  repeat match goal with
  | H : fits (anyCase _) _ |- _ =>
    let x := fresh "x" in let Hx := fresh "Hx" in
    apply fits_anyCase in H as (x & -> & Hx);
    assert (isLetter x = true) by (by destruct Hx as [-> | ->]);
    clear Hx
  end.
  cbn [concat app]. rewrite !filter_cons_True by done. simpl. lia.
Qed.

Lemma REFERENCE_none s :
  length (filter (λ c, isLetter c = true) s) < 9 →
  ∀ j, matchSeq REFERENCE false (drop j s) = None.
Proof.
  intros Hs j. destruct (matchSeq _ _ _) as [caps|] eqn:Hm; [|done].
  apply REFERENCE_letters in Hm.
  pose proof (filter_drop_length (λ c, isLetter c = true) j s). lia.
Qed.

(** *** The classes of a digit and of a capital letter *)

Lemma digit_classes c :
  isDigit c = true →
  isLetter c = false ∧ isAlnum c = true ∧ isSeparator c = false
  ∧ isUpper c = false.
Proof.
  intros [? ?]%isDigit_bounds.
  unfold isAlnum, isLetter, isSeparator, isWhiteSpace, isUpper, isDigit,
    inRange.
  repeat match goal with
  | |- context [(?a <=? ?b)%N] => destruct (N.leb_spec a b); try lia
  | |- context [(?a =? ?b)%N] => destruct (N.eqb_spec a b); try lia
  end; done.
Qed.

Lemma upper_classes c :
  isUpper c = true →
  isDigit c = false ∧ isLetter c = true ∧ isAlnum c = true
  ∧ isSeparator c = false.
Proof.
  unfold isUpper at 1. unfold inRange.
  intros [?%N.leb_le ?%N.leb_le]%andb_prop.
  unfold isAlnum, isLetter, isSeparator, isWhiteSpace, isUpper, isDigit,
    inRange.
  repeat match goal with
  | |- context [(?a <=? ?b)%N] => destruct (N.leb_spec a b); try lia
  | |- context [(?a =? ?b)%N] => destruct (N.eqb_spec a b); try lia
  end; done.
Qed.

(** Evaluation of a pattern on a text whose characters have known
    classes. *)

Ltac classify :=
  repeat match goal with
  | H : isDigit ?c = true |- _ =>
    lazymatch goal with
    | _ : isLetter c = false |- _ => fail
    | _ => destruct (digit_classes c H) as (? & ? & ? & ?)
    end
  | H : isUpper ?c = true |- _ =>
    lazymatch goal with
    | _ : isLetter c = true |- _ => fail
    | _ => destruct (upper_classes c H) as (? & ? & ? & ?)
    end
  end.

Ltac known :=
  repeat match goal with
  | H : ?f ?c = _ |- context [?f ?c] => rewrite H
  end.

Ltac run :=
  repeat (progress (cbn -[isDigit isLetter isAlnum isSeparator isUpper];
                    known)).

Lemma prefix_atoms : lits (utf16 "0152") = [lit 48; lit 49; lit 53; lit 50].
Proof. reflexivity. Qed.

Ltac first_match :=
  cbn [app];
  match goal with
  | |- context [matchAll ?re ?s] =>
    let Hm := fresh "Hm" in
    eassert (matchSeq re false s = Some _) as Hm
      by (unfold re; rewrite prefix_atoms; run; reflexivity);
    rewrite matchAll_cons, Hm; clear Hm;
    rewrite matchAllFrom_short by (simpl; lia)
  end.

Ltac explode w k :=
  lazymatch k with
  | O => idtac
  | S ?k' => destruct w as [|? w]; [|explode w k']
  end.

Lemma filter_all {A} (P : A → Prop) `{∀ x, Decision (P x)} (l : list A) :
  Forall P l → filter P l = l.
Proof.
  induction 1 as [|x l Hx _ IH]; [done|].
  by rewrite filter_cons_True, IH.
Qed.

Lemma filter_none {A} (P : A → Prop) `{∀ x, Decision (P x)} (l : list A) :
  Forall (λ x, ¬ P x) l → filter P l = [].
Proof.
  induction 1 as [|x l Hx _ IH]; [done|].
  by rewrite filter_cons_False, IH.
Qed.

Lemma forallb_Forall {A} (f : A → bool) (l : list A) :
  forallb f l = true ↔ Forall (λ x, f x = true) l.
Proof.
  rewrite forallb_forall, Forall_forall.
  split; intros Hl x Hx; apply Hl; by apply list_elem_of_In.
Qed.

(** A text of digits, up to four capital letters or digits, and
    digits: the form of an identifier and of its first characters. *)
Lemma letters_bound a m b :
  digits a → digits b → length m ≤ 4 →
  length (filter (λ c, isLetter c = true) (a ++ m ++ b)) < 9.
Proof.
  unfold digits. intros Ha Hb Hm.
  assert (∀ w, forallb isDigit w = true →
               filter (λ c, isLetter c = true) w = []) as Hnone.
  { intros w Hw%forallb_Forall. apply filter_none.
    eapply Forall_impl; [exact Hw|]. intros c Hc. simpl in Hc.
    destruct (digit_classes c Hc) as (-> & _). done. }
  rewrite !filter_app, !length_app, (Hnone a Ha), (Hnone b Hb).
  pose proof (length_filter (λ c, isLetter c = true) m). simpl. lia.
Qed.

(** *** The label pattern *)

Lemma LABEL_key : includes (utf16 "ที") LABEL = true.
Proof. vm_compute. reflexivity. Qed.

Lemma key_listed : (utf16 "ที", utf16 "T") ∈ ocrFixes.
Proof. apply list_elem_of_In. vm_compute. tauto. Qed.

Lemma AFTER_LABEL_head : ∃ re, AFTER_LABEL = lit 0x0E40 :: re.
Proof.
  assert (∃ w, LABEL = 0x0E40%N :: w) as [w Hw]
    by (eexists; vm_compute; reflexivity).
  unfold AFTER_LABEL. rewrite Hw. eexists. reflexivity.
Qed.

(** X19: the pattern that looks for the Thai label of the identifier
    never matches: the cleaning has rewritten the syllable 'ที' of the
    label before the search is made.  For the same reason the removal
    of the label leaves every piece of cleaned text as it is. *)
Theorem label_pattern_dead text :
  matchAll AFTER_LABEL (cleanOCRText text) = [] ∧
  ∀ j k, let piece := take k (drop j (cleanOCRText text)) in
         replaceAll LABEL [] piece = piece.
Proof.
  pose proof (cleaned_free text _ key_listed) as Hfree. cbn [fst] in Hfree.
  split.
  - apply (matchAllFrom_none AFTER_LABEL). intros j. unfold AFTER_LABEL.
    destruct (matchSeq (lits LABEL ++ _) false (drop j (cleanOCRText text)))
      as [caps|] eqn:Hm; [|done].
    apply (matchSeq_lits LABEL) in Hm as [rest Hm].
    assert (includes LABEL (cleanOCRText text) = true) as Hin.
    { apply includes_true. exists (take j (cleanOCRText text)), rest.
      by rewrite <- Hm, take_drop. }
    rewrite (includes_trans _ _ _ LABEL_key Hin) in Hfree. done.
  - intros j k piece. apply replaceAll_id.
    destruct (includes LABEL piece) eqn:Hin; [|done].
    apply includes_piece in Hin.
    rewrite (includes_trans _ _ _ LABEL_key Hin) in Hfree. done.
Qed.

(** *** The loop over the patterns *)

Section WithHost.
Context {host : Host}.

Lemma cleanOCRText_plain text : plain text → cleanOCRText text = text.
Proof.
  intros Hs. unfold cleanOCRText. destruct text as [|c text]; [done|].
  cbn [falsy]. by apply applyFixes_no_thai; [apply ocrFixes_thai|].
Qed.

(** The clean-up of a match changes nothing in such a text. *)
Lemma tidy_id c :
  forallb isUpperAlnum c = true →
  length (filter (λ c, isLetter c = true) c) < 9 →
  tidy c = c.
Proof.
  intros Hc Hletters.
  pose proof Hc as Hall%forallb_Forall.
  assert (plain c) as Hplain
    by (by eapply no_thai_of; [apply isUpperAlnum_not_thai|]).
  unfold tidy. rewrite replaceAll_id.
  2:{ destruct (includes LABEL c) eqn:Hinc; [|done].
      assert (0x0E40%N ∈ c) as Hin.
      { apply (includes_chars LABEL); [done|]. vm_compute. by left. }
      unfold plain in Hplain. rewrite forallb_forall in Hplain.
      by specialize (Hplain _ (proj1 (list_elem_of_In _ _) Hin)). }
  rewrite removeFrom_none by (by apply REFERENCE_none).
  rewrite (filter_all (λ c, isColon c = false)).
  2:{ eapply Forall_impl; [exact Hall|]. intros x Hx. simpl in Hx.
      unfold isUpperAlnum, isUpper, isDigit, inRange in Hx. unfold isColon.
      rewrite orb_true_iff, !andb_true_iff, !N.leb_le in Hx.
      apply orb_false_iff. split; apply N.eqb_neq; lia. }
  rewrite trim_id.
  2:{ rewrite forallb_forall in Hc. apply forallb_forall. intros x Hx.
      apply negb_true_iff, isUpperAlnum_not_space, Hc, Hx. }
  rewrite cleanOCRText_plain by done.
  rewrite (filter_all (λ c, isAlnum c = true)).
  2:{ eapply Forall_impl; [exact Hall|]. intros x Hx. simpl in Hx.
      unfold isAlnum, isLetter. unfold isUpperAlnum in Hx.
      apply orb_true_iff in Hx as [-> | ->]; [done|apply orb_true_r]. }
  by apply toUpperCase_upperAlnum.
Qed.

Lemma consider_plainly c best :
  forallb isUpperAlnum c = true →
  length (filter (λ c, isLetter c = true) c) < 9 →
  startsWith (utf16 "0152") c = true →
  consider c best =
  if (best.2 <? lengthScore (length c))%Z
  then (Some c, lengthScore (length c)) else best.
Proof.
  intros Hc Hl Hp. unfold consider. cbv zeta. by rewrite tidy_id, Hp.
Qed.

Lemma scan_unfold text :
  scan text =
  let b1 := fold_left (λ best caps, consider (captured false caps) best)
              (matchAll ID_LETTERS text) (None, 0%Z) in
  let b2 := fold_left (λ best caps, consider (captured false caps) best)
              (matchAll ID_SEPARATED text) b1 in
  let b3 := fold_left (λ best caps, consider (captured true caps) best)
              (matchAll AFTER_LABEL text) b2 in
  let b4 := fold_left (λ best caps, consider (captured true caps) best)
              (matchAll AFTER_REFERENCE text) b3 in
  fold_left (λ best caps, consider (captured false caps) best)
    (matchAll ID_RELAXED text) b4.
Proof. reflexivity. Qed.

Lemma lengthScore_positive l : (0 < lengthScore l)%Z → 18 ≤ l ≤ 23.
Proof.
  unfold lengthScore.
  destruct (Nat.leb_spec 20 l), (Nat.leb_spec l 21); cbn [andb]; try lia;
    destruct (Nat.leb_spec 18 l), (Nat.leb_spec l 23); cbn [andb]; lia.
Qed.

Lemma consider_chosen id best : chosen best → chosen (consider id best).
Proof.
  intros [Hpos Hbest]. unfold consider. cbv zeta.
  destruct (startsWith _ _); [|done].
  destruct (Z.ltb_spec best.2 (lengthScore (length (tidy id)))); [|done].
  split; cbn [fst snd]; [lia|]. split; [|done].
  apply lengthScore_positive. lia.
Qed.

Lemma scan_chosen text : chosen (scan text).
Proof.
  unfold scan.
  assert (chosen (None, 0%Z)) as Hinit by done.
  revert Hinit. generalize (None : option jsstring, 0%Z).
  induction patterns as [|pattern ps IH]; intros best Hbest; [done|].
  cbn [fold_left]. apply IH. revert best Hbest.
  induction (matchAll pattern.1 text) as [|caps ms IHm]; intros best Hbest;
    [done|].
  cbn [fold_left]. by apply IHm, consider_chosen.
Qed.

(** X20: what is extracted is the repair of a candidate of 16 to 23
    characters; from the empty text nothing is extracted. *)
Theorem extract_candidate text :
  extractTransactionId [] = None ∧
  ∀ found, extractTransactionId text = Some found →
    ∃ candidate, found = fixTransactionIdOCRErrors candidate ∧
                 16 ≤ length candidate ≤ 23.
Proof.
  split; [done|]. intros found. unfold extractTransactionId.
  destruct (falsy text); [done|]. cbv zeta.
  pose proof (scan_chosen (cleanOCRText text)) as [_ Hscan].
  destruct (scan (cleanOCRText text)).1 as [b|].
  { intros [= <-]. exists b. split; [done|]. lia. }
  destruct (direct text) as [b|] eqn:Hdirect.
  { intros [= <-]. exists b. split; [done|].
    apply firstSome_Some in Hdirect as (pattern & _ & Hpattern).
    destruct (search pattern text) as [caps|]; [|done].
    cbv zeta in Hpattern.
    destruct (_ && _ && _) eqn:Hlen in Hpattern; [|done].
    destruct (_ || _ || _) in Hpattern; [|done].
    injection Hpattern as <-.
    apply andb_prop in Hlen as [[?%Nat.leb_le ?%Nat.leb_le]%andb_prop _].
    lia. }
  destruct (segments (cleanOCRText text)) as [b|] eqn:Hsegments.
  { intros [= <-]. exists b. split; [done|].
    unfold segments in Hsegments.
    destruct (search SEGMENTS _) as [caps|]; [|done]. cbv zeta in Hsegments.
    destruct (_ && _) eqn:Hlen in Hsegments; [|done].
    injection Hsegments as <-.
    apply andb_prop in Hlen as [?%Nat.leb_le ?%Nat.leb_le]. lia. }
  destruct (search ALL_DIGITS (cleanOCRText text)) as [caps|] eqn:Hdigits;
    [|done].
  intros [= <-]. exists (concat caps). split; [done|].
  apply search_sound in Hdigits as [Hfits _].
  unfold ALL_DIGITS in Hfits. rewrite prefix_atoms in Hfits. cbn [app] in Hfits.
  pieces Hfits. fitting. simpl. rewrite length_app. simpl. lia.
Qed.

End WithHost.

(** *** Extraction from a text that is an identifier *)

Section Identifier.
Context {host : Host}.
Variables (d1 d2 d3 d4 d5 d6 d7 d8 l1 l2 t3 t4 : N) (sq : jsstring).
Hypothesis Hd8 : digits [d1; d2; d3; d4; d5; d6; d7; d8].
Hypothesis Hl1 : isUpper l1 = true.
Hypothesis Hl2 : isUpper l2 = true.
Hypothesis Ht :
  (isUpper t3 = true ∧ isUpper t4 = true)
  ∨ (isUpper t3 = true ∧ isDigit t4 = true)
  ∨ (isDigit t3 = true ∧ isDigit t4 = true).
Hypothesis Hsq : digits sq.
Hypothesis Hlen : 4 ≤ length sq ≤ 5.

(** The identifier, and the number of letters of its type code. *)
Let s : jsstring :=
  [48; 49; 53; 50; d1; d2; d3; d4; d5; d6; d7; d8; l1; l2; t3; t4]%N ++ sq.
Let n : nat :=
  if isUpper t3 then if isUpper t4 then 4 else 3 else 2.

Ltac cases :=
  unfold s, n in *; clear s n;
  pose proof Hd8 as Hd; pose proof Hsq as Hq;
  unfold digits in Hd, Hq;
  destruct sq as [|q1 [|q2 [|q3 [|q4 [|q5 [|? ?]]]]]];
    try (simpl in Hlen; lia);
  cbn [forallb] in Hd, Hq;
  repeat (let H := fresh "H" in apply andb_prop in Hd as [H Hd]);
  repeat (let H := fresh "H" in apply andb_prop in Hq as [H Hq]);
  destruct Ht as [[? ?]|[[? ?]|[? ?]]]; classify.

Lemma ID_LETTERS_match :
  ∃ caps, matchAll ID_LETTERS s = [caps] ∧ concat caps = take (17 + n) s.
Proof.
  cases; known; first_match; (eexists; split; [reflexivity|]); reflexivity.
Qed.

Lemma ID_SEPARATED_match :
  ∃ caps, matchAll ID_SEPARATED s = [caps] ∧ concat caps = take (17 + n) s.
Proof.
  cases; known; first_match; (eexists; split; [reflexivity|]); reflexivity.
Qed.

Lemma ID_RELAXED_match :
  ∃ caps, matchAll ID_RELAXED s = [caps] ∧ concat caps = s.
Proof.
  cases; known; first_match; (eexists; split; [reflexivity|]); reflexivity.
Qed.

Lemma identifier_upper : forallb isUpperAlnum s = true.
Proof.
  unfold s. rewrite forallb_app_true. split.
  - pose proof Hd8 as Hd. unfold digits in Hd. cbn [forallb] in Hd |- *.
    repeat (let H := fresh "H" in apply andb_prop in Hd as [H Hd]).
    destruct Ht as [[? ?]|[[? ?]|[? ?]]]; classify;
      unfold isUpperAlnum; known; by rewrite ?orb_true_r.
  - eapply forallb_forall. intros c Hc. apply isDigit_isUpperAlnum.
    pose proof Hsq as Hq. unfold digits in Hq. rewrite forallb_forall in Hq.
    by apply Hq.
Qed.

Lemma identifier_letters : length (filter (λ c, isLetter c = true) s) < 9.
Proof.
  change s with ([48; 49; 53; 50; d1; d2; d3; d4; d5; d6; d7; d8]%N
                 ++ [l1; l2; t3; t4] ++ sq).
  apply letters_bound; [|done|simpl; lia].
  pose proof Hd8 as Hd. unfold digits in Hd |- *. cbn [forallb] in Hd |- *.
  by rewrite Hd.
Qed.

Lemma piece_upper k : forallb isUpperAlnum (take k s) = true.
Proof.
  pose proof identifier_upper as Hs. rewrite <- (take_drop k s) in Hs.
  by apply forallb_app_true in Hs as [? _].
Qed.

Lemma piece_letters k : length (filter (λ c, isLetter c = true) (take k s)) < 9.
Proof.
  pose proof identifier_letters as Hs. rewrite <- (take_drop k s) in Hs.
  rewrite filter_app, length_app in Hs. lia.
Qed.

Lemma AFTER_LABEL_match : matchAll AFTER_LABEL s = [].
Proof.
  destruct AFTER_LABEL_head as [re ->].
  apply matchAllFrom_absent. intros Hin%list_elem_of_In.
  pose proof identifier_upper as Hs. rewrite forallb_forall in Hs.
  by specialize (Hs _ Hin).
Qed.

Lemma AFTER_REFERENCE_match : matchAll AFTER_REFERENCE s = [].
Proof.
  apply (matchAllFrom_none AFTER_REFERENCE). intros j.
  apply (matchSeq_prefix REFERENCE). apply REFERENCE_none, identifier_letters.
Qed.

(** The body of the loop on a candidate that the clean-up leaves as
    it is. *)
Lemma consider_take k best :
  4 ≤ k →
  consider (take k s) best =
  if (best.2 <? lengthScore (length (take k s)))%Z
  then (Some (take k s), lengthScore (length (take k s))) else best.
Proof.
  intros Hk. unfold consider. cbv zeta.
  rewrite tidy_id by (apply piece_upper || apply piece_letters).
  assert (startsWith (utf16 "0152") (take k s) = true) as ->; [|done].
  do 4 (destruct k as [|k]; [lia|]). by vm_compute.
Qed.

Lemma consider_whole best :
  consider s best =
  if (best.2 <? lengthScore (length s))%Z
  then (Some s, lengthScore (length s)) else best.
Proof.
  pose proof (consider_take (length s) best) as Hs.
  rewrite firstn_all in Hs. apply Hs.
  unfold s. rewrite length_app. simpl. lia.
Qed.

Lemma identifier_lengths :
  lengthScore (length s) = 100%Z ∧
  lengthScore (length (take (17 + n) s))
  = if decide (n = 2) then 145%Z else 100%Z.
Proof.
  rewrite length_take. unfold s, n. rewrite length_app.
  assert (length sq = 4 ∨ length sq = 5) as [-> | ->] by lia;
    by destruct (isUpper t3), (isUpper t4).
Qed.

Lemma scan_identifier :
  scan s = (Some (take (17 + n) s), if decide (n = 2) then 145%Z else 100%Z).
Proof.
  destruct ID_LETTERS_match as (caps1 & E1 & C1).
  destruct ID_SEPARATED_match as (caps2 & E2 & C2).
  destruct ID_RELAXED_match as (caps5 & E5 & C5).
  destruct identifier_lengths as [Hs Hn].
  rewrite scan_unfold. cbv zeta.
  rewrite E1, E2, E5, AFTER_LABEL_match, AFTER_REFERENCE_match.
  cbn [fold_left captured]. rewrite C1, C2, C5.
  rewrite (consider_take _ (None, 0%Z)) by lia. cbn [snd]. rewrite Hn.
  assert (Z.ltb 0 (if decide (n = 2) then 145%Z else 100%Z) = true) as ->
    by (by destruct (decide (n = 2))).
  rewrite consider_take by lia. cbn [snd]. rewrite Hn, Z.ltb_irrefl.
  rewrite consider_whole. cbn [snd]. rewrite Hs.
  by destruct (decide (n = 2)).
Qed.

Lemma extract_identifier :
  extractTransactionId s = Some (take (17 + n) s).
Proof.
  unfold extractTransactionId.
  assert (falsy s = false) as -> by done.
  rewrite cleanOCRText_plain
    by (eapply no_thai_of; [apply isUpperAlnum_not_thai|apply identifier_upper]).
  rewrite scan_identifier. cbn [fst fmap option_fmap option_map]. f_equal.
  apply repair_from_rules.
  - eapply no_thai_of; [apply isUpperAlnum_not_thai|apply piece_upper].
  - intros fixed. apply (repairRules_nondigit _ l1).
    + unfold n. by destruct (isUpper t3), (isUpper t4).
    + by destruct (upper_classes l1 Hl1) as (? & _).
Qed.

End Identifier.

Section WithHost.
Context {host : Host}.

(** X21: extraction from a text that is a valid identifier whose type
    code is [n] capital letters, two at least, followed by digits: the
    result is the first 17 + n characters of the identifier.  These are
    the whole identifier when it has no more characters, and a valid
    identifier when n is 3 at least: the last digit of an identifier
    of 21 characters with a type code such as BQR0 is lost, and an
    identifier whose type code is two letters and two digits is cut to
    19 characters, which the parser rejects. *)
Theorem extract_parsed currentYear id p n :
  TP.parse currentYear id = Some p →
  2 ≤ n →
  forallb isUpper (take n (TP.type p)) = true →
  forallb isDigit (drop n (TP.type p)) = true →
  let found := take (17 + n) (TP.raw p) in
  extractTransactionId (TP.raw p) = Some found ∧
  (found = TP.raw p ↔ TP.idLength p ≤ 17 + n) ∧
  (is_Some (TP.parse currentYear found) ↔ 3 ≤ n).
Proof.
  intros Hp Hn Hup Hdig. cbv zeta. pose proof Hp as Hq.
  apply parse_Some in Hq
    as ([Hmin Hmax] & yy & hh & mm & ss & ty & sq & HG & HP & ->).
  cbn [TP.raw TP.type TP.idLength describe] in *.
  pose proof (Grammar_length _ _ _ _ _ _ _ HG) as Hlen.
  pose proof (Grammar_alphanumeric _ _ _ _ _ _ _ HG) as Halnum.
  destruct HG as (Hraw & [? Hyy] & [? Hhh] & [? Hmm] & [? Hss] & [? Hty]
                  & [[? ?] Hsq]).
  assert (4 ≤ length sq ≤ 5) as Hsql by lia.
  rewrite Hraw in *. clear Hraw. rewrite KBANK_PREFIX_chars in *.
  destruct yy as [|y1 [|y2 [|? ?]]]; try done.
  destruct hh as [|h1 [|h2 [|? ?]]]; try done.
  destruct mm as [|m1 [|m2 [|? ?]]]; try done.
  destruct ss as [|s1 [|s2 [|? ?]]]; try done.
  destruct ty as [|l1 [|l2 [|t3 [|t4 [|? ?]]]]]; try done.
  cbn [app] in *.
  set (s := 48%N :: 49%N :: 53%N :: 50%N :: y1 :: y2 :: h1 :: h2 :: m1 :: m2
            :: s1 :: s2 :: l1 :: l2 :: t3 :: t4 :: sq) in *.
  unfold digits in *.
  assert (isUpper l1 = true ∧ isUpper l2 = true ∧
          ((isUpper t3 = true ∧ isUpper t4 = true ∧ 4 ≤ n)
           ∨ (isUpper t3 = true ∧ isDigit t4 = true ∧ n = 3)
           ∨ (isDigit t3 = true ∧ isDigit t4 = true ∧ n = 2)))
    as (Hl1 & Hl2 & Ht).
  { destruct n as [|[|[|[|n]]]]; try lia; cbn [take drop forallb] in Hup, Hdig;
      repeat (let H := fresh "H" in apply andb_prop in Hup as [H Hup]);
      repeat (let H := fresh "H" in apply andb_prop in Hdig as [H Hdig]);
      (split; [assumption|split; [assumption|]]).
    - right; right. done.
    - right; left. done.
    - left. split_and!; [done..|lia]. }
  pose proof (extract_identifier y1 y2 h1 h2 m1 m2 s1 s2 l1 l2 t3 t4 sq)
    as Hex.
  cbn [app] in Hex. fold s in Hex.
  assert (take (17 + (if isUpper t3 then if isUpper t4 then 4 else 3 else 2)) s
          = take (17 + n) s) as Hcut.
  { destruct Ht as [(Ht3 & Ht4 & ?)|[(Ht3 & Ht4 & ->)|(Ht3 & Ht4 & ->)]].
    - rewrite Ht3, Ht4, !take_ge; [done|lia|simpl; lia].
    - rewrite Ht3. by destruct (digit_classes t4 Ht4) as (_ & _ & _ & ->).
    - by destruct (digit_classes t3 Ht3) as (_ & _ & _ & ->). }
  rewrite Hcut in Hex. split_and!.
  - apply Hex; unfold digits; try done.
    + change (forallb isDigit ([y1; y2] ++ [h1; h2] ++ [m1; m2] ++ [s1; s2])
              = true).
      by rewrite !forallb_app_true.
    + destruct Ht as [(? & ? & _)|[(? & ? & _)|(? & ? & _)]]; tauto.
  - split.
    + intros E. apply (f_equal length) in E. rewrite length_take in E. lia.
    + intros ?. by apply take_ge.
  - assert (forallb isUpperAlnum (take (17 + n) s) = true) as Hr.
    { rewrite <- (take_drop (17 + n) s) in Halnum.
      by apply forallb_app_true in Halnum as [? _]. }
    split.
    + intros [q Hq]. apply parse_Some in Hq as ([Hq _] & _).
      rewrite (clean_id _ Hr), length_take in Hq. lia.
    + intros Hn3.
      assert (take (17 + n) s
              = TP.KBANK_PREFIX ++ [y1; y2] ++ [h1; h2] ++ [m1; m2] ++ [s1; s2]
                ++ [l1; l2; t3; t4] ++ take (n + 1) sq) as Hshape.
      { rewrite KBANK_PREFIX_chars. unfold s. cbn [app].
        replace (17 + n) with (S (S (S (S (S (S (S (S (S (S (S (S (S (S (S (S
          (n + 1))))))))))))))))) by lia.
        done. }
      eexists. apply parse_Some. rewrite (clean_id _ Hr).
      split; [rewrite length_take; lia|].
      exists [y1; y2], [h1; h2], [m1; m2], [s1; s2], [l1; l2; t3; t4],
        (take (n + 1) sq).
      split_and!; [|exact HP|reflexivity].
      unfold Grammar, digits, alphanumeric. cbn [forallb length].
      rewrite length_take. split_and!; try done; try lia;
        try (by apply andb_true_iff).
      rewrite <- (take_drop (n + 1) sq) in Hsq.
      by apply forallb_app_true in Hsq as [? _].
Qed.

End WithHost.

(** *** Extraction from a text of digits *)

(** The relaxed pattern takes the whole of a text of 18 to 23 digits
    that begins with 0152. *)
Lemma ID_RELAXED_digits w :
  digits w → 14 ≤ length w ≤ 19 →
  ∃ caps, matchAll ID_RELAXED (utf16 "0152" ++ w) = [caps]
          ∧ concat caps = utf16 "0152" ++ w.
Proof.
  unfold digits. intros Hw Hlen.
  change (utf16 "0152") with [48; 49; 53; 50]%N.
  explode w 20; simpl in Hlen; try lia;
    cbn [forallb] in Hw;
    repeat (let H := fresh "H" in apply andb_prop in Hw as [H Hw]);
    classify; first_match; (eexists; split; [reflexivity|]); reflexivity.
Qed.

Section WithHost.
Context {host : Host}.

(** X22: from a text of 18 to 23 digits that begins with 0152, the
    reading of an identifier whose letters were taken for digits, the
    extraction returns the repair of the whole text. *)
Theorem extract_digits w :
  digits w → 14 ≤ length w ≤ 19 →
  extractTransactionId (utf16 "0152" ++ w)
  = Some (fixTransactionIdOCRErrors (utf16 "0152" ++ w)).
Proof.
  intros Hw Hlen.
  destruct (ID_RELAXED_digits w Hw Hlen) as (caps & Hcaps & Hall).
  set (s := utf16 "0152" ++ w) in *.
  assert (digits s) as Hs.
  { unfold s, digits. by rewrite forallb_app_true. }
  assert (forallb isUpperAlnum s = true) as Hupper.
  { unfold digits in Hs. rewrite forallb_forall in Hs.
    apply forallb_forall. intros c Hc. by apply isDigit_isUpperAlnum, Hs. }
  assert (∀ c, c ∈ s → isLetter c = false) as Hnone.
  { intros c Hc%list_elem_of_In. unfold digits in Hs.
    rewrite forallb_forall in Hs.
    by destruct (digit_classes c (Hs c Hc)) as (? & _). }
  assert (length (filter (λ c, isLetter c = true) s) < 9) as Hletters.
  { rewrite filter_none; [simpl; lia|]. apply Forall_forall.
    intros c Hc. by rewrite (Hnone c Hc). }
  assert (plain s) as Hplain
    by (by eapply no_thai_of; [apply isUpperAlnum_not_thai|]).
  unfold extractTransactionId.
  assert (falsy s = false) as -> by done.
  rewrite (cleanOCRText_plain s Hplain), scan_unfold. cbv zeta.
  assert (matchAll ID_LETTERS s = []) as ->
    by (apply (matchAllFrom_needs ID_LETTERS 5 (between 2 4 isLetter));
        [reflexivity|simpl; lia|exact Hnone]).
  assert (matchAll ID_SEPARATED s = []) as ->
    by (apply (matchAllFrom_needs ID_SEPARATED 6 (between 2 4 isLetter));
        [reflexivity|simpl; lia|exact Hnone]).
  assert (matchAll AFTER_LABEL s = []) as ->.
  { destruct AFTER_LABEL_head as [re ->]. apply matchAllFrom_absent.
    intros Hin%list_elem_of_In. unfold plain in Hplain.
    rewrite forallb_forall in Hplain. by specialize (Hplain _ Hin). }
  assert (matchAll AFTER_REFERENCE s = []) as ->.
  { apply (matchAllFrom_none AFTER_REFERENCE). intros j.
    apply (matchSeq_prefix REFERENCE). by apply REFERENCE_none. }
  rewrite Hcaps. cbn [fold_left captured]. rewrite Hall.
  rewrite consider_plainly by done. cbn [snd].
  assert (0 < lengthScore (length s))%Z as Hscore.
  { unfold s. rewrite length_app. change (length (utf16 "0152")) with 4.
    unfold lengthScore.
    destruct (Nat.leb_spec 20 (4 + length w)),
      (Nat.leb_spec (4 + length w) 21); cbn [andb]; try lia;
      destruct (Nat.leb_spec 18 (4 + length w)),
        (Nat.leb_spec (4 + length w) 23); cbn [andb]; lia. }
  apply Z.ltb_lt in Hscore. by rewrite Hscore.
Qed.

End WithHost.

#[local] Existing Instance asciiHost.

Lemma scenario_type :
  forallb isUpper (take 3 (TP.type scenarioParsed)) = true ∧
  forallb isDigit (drop 3 (TP.type scenarioParsed)) = true.
Proof. vm_compute. done. Qed.

Lemma extract_parsed_witness :
  TP.parse 2569 scenarioId = Some scenarioParsed ∧
  (forallb isUpper (take 3 (TP.type scenarioParsed)) = true ∧
   forallb isDigit (drop 3 (TP.type scenarioParsed)) = true) ∧
  extractTransactionId (TP.raw scenarioParsed)
  = Some (take (17 + 3) (TP.raw scenarioParsed)).
Proof.
  split; [exact scenario_parses|]. split; [exact scenario_type|].
  exact (proj1 (extract_parsed 2569 scenarioId scenarioParsed 3
                  scenario_parses (le_S 2 2 (le_n 2))
                  (proj1 scenario_type) (proj2 scenario_type))).
Defined.

(** The last digit of an identifier of 21 characters is lost, and an
    identifier with a type code of two letters and two digits is cut
    to 19 characters. *)
Example extract_long :
  extractTransactionId (utf16 "015298170819BQR012345")
  = Some (utf16 "015298170819BQR01234") ∧
  extractTransactionId (utf16 "015298170819AB1212345")
  = Some (utf16 "015298170819AB12123").
Proof. vm_compute. done. Qed.

Lemma misread_digits :
  digits (utf16 "9817081981602651") ∧
  14 ≤ length (utf16 "9817081981602651") ≤ 19.
Proof. vm_compute. split; [reflexivity|lia]. Qed.

Lemma extract_digits_witness :
  (digits (utf16 "9817081981602651") ∧
   14 ≤ length (utf16 "9817081981602651") ≤ 19) ∧
  extractTransactionId (utf16 "0152" ++ utf16 "9817081981602651")
  = Some (fixTransactionIdOCRErrors
            (utf16 "0152" ++ utf16 "9817081981602651")).
Proof.
  split; [exact misread_digits|].
  exact (extract_digits (utf16 "9817081981602651") (proj1 misread_digits)
           (proj2 misread_digits)).
Defined.

Example extract_misread :
  extractTransactionId (utf16 "01529817081981602651")
  = Some (utf16 "015298170819ATF002651").
Proof. vm_compute. reflexivity. Qed.

End ExtractionFacts.
